(** * Honeybee [AnalysisPoint]: result store, state selection, annual metrics

    A shallow embedding of [honeybee/radiance/analysispoint.py] and the
    properties of its readers, writers, blind-state selection and annual
    daylight metrics.

    Modelling conventions
    - Python numbers are exact rationals ([Q]); a slot that may hold [None]
      is an [option Q].  Hours of the year are integers ([Z]).
    - A Python object used as a source name, a state name or a state id is a
      [pyval]: [None], an [int] or a [str].
    - [self._sources] is a dict; it is kept as an association list in
      insertion order.  [iteritems] walks a dict in the order of the slots
      of its hash table: the order is that of CPython 2.7 built for 64 bits
      and run without hash randomisation, for keys that are [str] or [int]
      objects of the machine word.  The hash of [None] is the address of
      the object, which is not fixed by the language: the statements that
      depend on the order of a dict with several keys leave [None] out.
    - [self._values] is a list (per source) of lists (per state) of
      [defaultdict]s keyed by hour; the dicts are [gmap Z cell].
    - Methods run in a state-and-exception monad over the object: a raised
      exception keeps whatever mutation happened before it.
    - A generator is the list of items it yields together with the
      exception that ends it, if any; [tuple(..)] of it raises that
      exception.
    - [location], [direction] and the text written by [print] play no part
      in the values and are left out; the extra arguments that
      [blindsState] hands to the control rule are part of the rule. *)

From Stdlib Require Import ZArith QArith String Ascii.
From stdpp Require Import base option list gmap strings sorting.

Local Open Scope Z_scope.

(** ** Python values and exceptions *)

Inductive pyval :=
  | PNone
  | PInt (n : Z)
  | PStr (s : string).

#[global] Instance pyval_eq_dec : EqDecision pyval.
Proof. solve_decision. Defined.

(** A number or [None]. *)
Definition pynum := option Q.

(** Comparison of numbers: [a == b], [a <= b], [a < b]. *)
Definition num_eq (a b : Q) : bool := Qeq_bool a b.

Definition num_le (a b : Q) : bool := Qle_bool a b.

Definition num_lt (a b : Q) : bool := negb (Qle_bool b a).

(** The message of a [ValueError], by the place that raises it. *)
Inductive verr :=
  | InvalidSource   (* 'Invalid source input: ..' *)
  | InvalidState    (* 'Invalid state input: ..' *)
  | InvalidHoy      (* 'Invalid hoy input: ..' *)
  | InvalidInput    (* 'Invalid input: ..' *)
  | WrongInput      (* 'Wrong input: ... must be of length of 2.' *)
  | StateLength     (* 'Length of each state should be equal to number of sources' *)
  | NotInList       (* list.index(x): x not in list *)
  | EmptyMax.       (* max() arg is an empty sequence *)

Inductive exn :=
  | ValueError (m : verr)
  | KeyError
  | IndexError
  | TypeError
  | ZeroDivisionError
  | AssertionError
  | UnboundLocalError.

#[global] Instance verr_eq_dec : EqDecision verr.
Proof. solve_decision. Defined.

#[global] Instance exn_eq_dec : EqDecision exn.
Proof. solve_decision. Defined.

Inductive result (A : Type) :=
  | Ok (a : A)
  | Raise (e : exn).
Arguments Ok {A} a.
Arguments Raise {A} e.

(** ** Python sequences: indexing with negative indices *)

Definition py_index (len : nat) (i : Z) : option nat :=
  if decide (0 ≤ i < Z.of_nat len) then Some (Z.to_nat i)
  else if decide (- Z.of_nat len ≤ i < 0) then Some (Z.to_nat (Z.of_nat len + i))
  else None.

(** [l[i]]: the element, or nothing where Python raises [IndexError]. *)
Definition py_getitem {A} (l : list A) (i : Z) : option A :=
  match py_index (length l) i with
  | Some n => l !! n
  | None => None
  end.

(** [l[i] = x]. *)
Definition py_setitem {A} (l : list A) (i : Z) (x : A) : option (list A) :=
  match py_index (length l) i with
  | Some n => Some (<[n := x]> l)
  | None => None
  end.

(** [l.index(x)]. *)
Fixpoint list_index {A} `{EqDecision A} (x : A) (l : list A) : option nat :=
  match l with
  | [] => None
  | y :: r => if decide (x = y) then Some O else S <$> list_index x r
  end.

(** [str(v).isdigit()] and [int(v)] for the values it accepts. *)
Definition is_digit (c : ascii) : bool :=
  let n := nat_of_ascii c in (48 <=? n)%nat && (n <=? 57)%nat.

Fixpoint all_digits (s : string) : bool :=
  match s with
  | EmptyString => true
  | String c r => is_digit c && all_digits r
  end.

Definition str_isdigit (s : string) : bool :=
  match s with
  | EmptyString => false
  | _ => all_digits s
  end.

Fixpoint int_of_digits (acc : Z) (s : string) : Z :=
  match s with
  | EmptyString => acc
  | String c r => int_of_digits (10 * acc + (Z.of_nat (nat_of_ascii c) - 48)) r
  end.

(** [str(state).isdigit()]: a non-negative [int] prints as digits, a
    negative one starts with a minus sign, [None] prints as 'None'. *)
Definition isdigit (v : pyval) : bool :=
  match v with
  | PNone => false
  | PInt n => bool_decide (0 ≤ n)
  | PStr s => str_isdigit s
  end.

Definition int_of (v : pyval) : Z :=
  match v with
  | PNone => 0
  | PInt n => n
  | PStr s => int_of_digits 0 s
  end.

(** ** The object *)

(** One sample.  [defaultdict(double)] and [setValue] keep a two-element
    list [[total, direct]]; the coupled setters store a tuple
    [(total, direct)], which cannot be assigned by item afterwards. *)
Inductive cell :=
  | CList (t d : pynum)
  | CTuple (t d : pynum).

Definition cell_total (c : cell) : pynum :=
  match c with CList t _ | CTuple t _ => t end.

Definition cell_direct (c : cell) : pynum :=
  match c with CList _ d | CTuple _ d => d end.

(** [double()] in [_createDataStructure]. *)
Definition double : cell := CList None None.

(** The value of [self._sources[name]]: [{'id': .., 'state': [..]}]. *)
Record source_entry := mk_entry {
  src_id : nat;
  src_state : list pyval
}.

Record AnalysisPoint := mkPoint {
  _sources : list (pyval * source_entry);
  _values : list (list (gmap Z cell));
  _isDirectLoaded : bool;
  logic : Q → pynum → Z → bool
}.

(** [_logic]: the default control rule, [args[0] > 2000]. *)
Definition _logic (ill : Q) (ill_dir : pynum) (h : Z) : bool :=
  num_lt 2000 ill.

(** [__init__]. *)
Definition init : AnalysisPoint :=
  mkPoint [] [] false _logic.

Definition set_sources (d : list (pyval * source_entry)) (s : AnalysisPoint) :=
  mkPoint d (_values s) (_isDirectLoaded s) (logic s).

Definition set_values (v : list (list (gmap Z cell))) (s : AnalysisPoint) :=
  mkPoint (_sources s) v (_isDirectLoaded s) (logic s).

Definition set_isDirectLoaded (b : bool) (s : AnalysisPoint) :=
  mkPoint (_sources s) (_values s) b (logic s).

Definition set_logic (f : Q → pynum → Z → bool) (s : AnalysisPoint) :=
  mkPoint (_sources s) (_values s) (_isDirectLoaded s) f.

(** ** The method monad *)

Definition M (A : Type) : Type := AnalysisPoint → result A * AnalysisPoint.

Definition ret {A} (a : A) : M A := fun s => (Ok a, s).

Definition raise {A} (e : exn) : M A := fun s => (Raise e, s).

Definition bind {A B} (m : M A) (k : A → M B) : M B := fun s =>
  match m s with
  | (Ok a, s') => k a s'
  | (Raise e, s') => (Raise e, s')
  end.

Notation "'let*' x ':=' m 'in' k" := (bind m (fun x => k))
  (at level 10, x name, m at level 100, k at level 200).

Notation "'let*' ''' p ':=' m 'in' k" := (bind m (fun 'p => k))
  (at level 10, p strict pattern, m at level 100, k at level 200).

Notation "m1 ';;' m2" := (bind m1 (fun _ => m2))
  (at level 100, m2 at level 200, right associativity).

Definition get : M AnalysisPoint := fun s => (Ok s, s).

Definition modify (f : AnalysisPoint → AnalysisPoint) : M unit := fun s => (Ok tt, f s).

(** [try: m  except <handled>: h e]; an exception [h] does not handle goes on. *)
Definition try_except {A} (m : M A) (h : exn → option (M A)) : M A := fun s =>
  match m s with
  | (Ok a, s') => (Ok a, s')
  | (Raise e, s') =>
      match h e with
      | Some k => k s'
      | None => (Raise e, s')
      end
  end.

Definition of_option {A} (o : option A) (e : exn) : M A :=
  match o with
  | Some a => ret a
  | None => raise e
  end.

(** [for x in l: f x]. *)
Fixpoint for_each {A} (l : list A) (f : A → M unit) : M unit :=
  match l with
  | [] => ret tt
  | x :: r => f x;; for_each r f
  end.

(** [tuple(f x for x in l)]. *)
Fixpoint map_m {A B} (f : A → M B) (l : list A) : M (list B) :=
  match l with
  | [] => ret []
  | x :: r => let* y := f x in let* ys := map_m f r in ret (y :: ys)
  end.

(** ** Dictionary and table access *)

(** [self._sources[name]], raising [KeyError]. *)
Fixpoint dict_get (d : list (pyval * source_entry)) (k : pyval) : option source_entry :=
  match d with
  | [] => None
  | (k', e) :: r => if decide (k = k') then Some e else dict_get r k
  end.

(** [self._sources[name]['state'].append(state)]: the entry is changed in place. *)
Fixpoint dict_append_state (d : list (pyval * source_entry)) (k state : pyval) :=
  match d with
  | [] => []
  | (k', e) :: r =>
      if decide (k = k') then (k', mk_entry (src_id e) (src_state e ++ [state])) :: r
      else (k', e) :: dict_append_state r k state
  end.

Definition sources_getitem (source : pyval) : M source_entry :=
  let* s := get in of_option (dict_get (_sources s) source) KeyError.

(** [self._values[sid][stateid]]: the positions and the dict. *)
Definition values_series (v : list (list (gmap Z cell))) (sid stateid : Z)
  : option (nat * nat * list (gmap Z cell) * gmap Z cell) :=
  match py_index (length v) sid with
  | None => None
  | Some i =>
      match v !! i with
      | None => None
      | Some row =>
          match py_index (length row) stateid with
          | None => None
          | Some j =>
              match row !! j with
              | None => None
              | Some d => Some (i, j, row, d)
              end
          end
      end
  end.

(** [self._values[sid][stateid][hoy]] as an expression.  The dict is a
    [defaultdict(double)]: a missing hour is no [KeyError], the default
    [[None, None]] is stored under the key and returned. *)
Definition values_getitem (sid stateid hoy : Z) : M cell := fun s =>
  match values_series (_values s) sid stateid with
  | None => (Raise IndexError, s)
  | Some (i, j, row, d) =>
      match d !! hoy with
      | Some c => (Ok c, s)
      | None =>
          (Ok double,
           set_values (<[i := <[j := <[hoy := double]> d]> row]> (_values s)) s)
      end
  end.

(** [self._values[sid][stateid][hoy] = c]. *)
Definition values_setitem (sid stateid hoy : Z) (c : cell) : M unit := fun s =>
  match values_series (_values s) sid stateid with
  | None => (Raise IndexError, s)
  | Some (i, j, row, d) =>
      (Ok tt, set_values (<[i := <[j := <[hoy := c]> d]> row]> (_values s)) s)
  end.

(** [self._values[sid].append(defaultdict(double))]. *)
Definition values_append_state (sid : Z) : M unit := fun s =>
  match py_index (length (_values s)) sid with
  | None => (Raise IndexError, s)
  | Some i =>
      match _values s !! i with
      | None => (Raise IndexError, s)
      | Some row => (Ok tt, set_values (<[i := row ++ [∅]]> (_values s)) s)
      end
  end.

(** ** The iteration order of a dict *)

(** [hash(s)] for a [str]: [string_hash] of CPython 2.7 on a 64-bit [long],
    as an unsigned word. *)
Definition str_hash_word (s : string) : Z :=
  match s with
  | EmptyString => 0
  | String c _ =>
      let ords := map (fun c => Z.of_nat (nat_of_ascii c)) (list_ascii_of_string s) in
      let x := foldl (fun x c => Z.lxor ((1000003 * x) mod 2 ^ 64) c)
                 (Z.shiftl (Z.of_nat (nat_of_ascii c)) 7) ords in
      Z.lxor x (Z.of_nat (length ords))
  end.

(** A word read as a signed [long]; the hash -1 is reserved and becomes -2. *)
Definition as_hash (x : Z) : Z :=
  let y := if decide (x < 2 ^ 63) then x else x - 2 ^ 64 in
  if decide (y = -1) then -2 else y.

(** The address of the [None] object in place of its hash. *)
Definition hash_None : Z := 0.

(** [hash(k)]. *)
Definition py_hash (k : pyval) : Z :=
  match k with
  | PNone => hash_None
  | PInt n => as_hash (n mod 2 ^ 64)
  | PStr s => as_hash (str_hash_word s)
  end.

(** The keys whose hash the language implementation fixes. *)
Definition hash_known (k : pyval) : Prop :=
  match k with
  | PNone => False
  | PInt n => - 2 ^ 63 ≤ n < 2 ^ 63
  | PStr _ => True
  end.

(** The slot that [lookdict] finds for a key that is not in the table: the
    first free slot of the probe sequence [i = (i << 2) + i + perturb + 1],
    [perturb >>= 5]. *)
Fixpoint free_slot (fuel : nat) (table : list (option pyval)) (mask i perturb : Z) : nat :=
  let j := Z.to_nat (Z.land i mask) in
  match fuel with
  | O => j
  | S fuel' =>
      match table !! j with
      | Some (Some _) => free_slot fuel' table mask (5 * i + perturb + 1) (Z.shiftr perturb 5)
      | _ => j
      end
  end.

(** [insertdict_clean]: a new key goes to its free slot. *)
Definition table_add (table : list (option pyval)) (k : pyval) : list (option pyval) :=
  let mask := Z.of_nat (length table) - 1 in
  let h := py_hash k mod 2 ^ 64 in
  <[free_slot (64 + length table) table mask (Z.land h mask) h := Some k]> table.

(** The keys of a table, in the order of their slots. *)
Definition table_keys (table : list (option pyval)) : list pyval := omap id table.

(** The size [dictresize] chooses: the first power of two above [minused],
    from 8 on. *)
Fixpoint table_size (fuel size minused : nat) : nat :=
  match fuel with
  | O => size
  | S fuel' => if decide (size ≤ minused)%nat then table_size fuel' (2 * size) minused
               else size
  end.

(** [dictresize]: the keys are entered into a new table in the order of
    their slots. *)
Definition table_resize (table : list (option pyval)) : list (option pyval) :=
  let used := length (table_keys table) in
  let factor := if Z.ltb 50000%Z (Z.of_nat used) then 2%nat else 4%nat in
  let minused := (factor * used)%nat in
  foldl table_add (replicate (table_size (S minused) 8 minused) None) (table_keys table).

(** [d[k] = v] for a new key [k]: the table grows once two thirds of it are
    in use. *)
Definition table_insert (table : list (option pyval)) (k : pyval) : list (option pyval) :=
  let t := table_add table k in
  if decide (2 * length t ≤ 3 * length (table_keys t))%nat then table_resize t else t.

(** The hash table of a dict that got the keys in this order. *)
Definition table_of (keys : list pyval) : list (option pyval) :=
  foldl table_insert (replicate 8 None) keys.

(** The slot of a key. *)
Definition slot_of (table : list (option pyval)) (k : pyval) : nat :=
  default O (list_index (Some k) table).

(** The key of [x] has its slot before the slot of the key of [y]. *)
Definition slot_le (table : list (option pyval)) (x y : pyval * source_entry) : Prop :=
  (slot_of table x.1 ≤ slot_of table y.1)%nat.

#[global] Instance slot_le_dec table x y : Decision (slot_le table x y).
Proof. unfold slot_le. apply _. Defined.

(** [d.iteritems()]: the items in the order of the slots of their keys. *)
Definition iteritems (d : list (pyval * source_entry)) : list (pyval * source_entry) :=
  merge_sort (slot_le (table_of d.*1)) d.

#[global] Arguments iteritems : simpl never.

(** The dicts whose iteration order the model fixes: those with one key at
    most, and those whose keys all have a known hash. *)
Definition order_known (d : list (pyval * source_entry)) : Prop :=
  (length d ≤ 1)%nat ∨ Forall hash_known d.*1.

(** ** Properties of the object *)

Definition hasValues (s : AnalysisPoint) : bool :=
  negb (bool_decide (length (_values s) = 0%nat)).

Definition hasDirectValues (s : AnalysisPoint) : bool := _isDirectLoaded s.

(** [sorted(d.keys())]. *)
Definition sorted_keys (d : gmap Z cell) : list Z :=
  merge_sort Z.le (map_to_list d).*1.

(** [hoys]: the hours of the first state of the first source. *)
Definition hoys : M (list Z) :=
  let* s := get in
  if hasValues s then
    let* row := of_option (py_getitem (_values s) 0) IndexError in
    let* d := of_option (py_getitem row 0) IndexError in
    ret (sorted_keys d)
  else ret [].

(** [sourceId]. *)
Definition sourceId (source : pyval) : M Z :=
  try_except
    (let* e := sources_getitem source in ret (Z.of_nat (src_id e)))
    (fun e => match e with
              | KeyError => Some (raise (ValueError InvalidSource))
              | _ => None
              end).

(** [blindStateId]. *)
Definition blindStateId (source state : pyval) : M Z :=
  if isdigit state then ret (int_of state)
  else
    try_except
      (let* e := sources_getitem source in
       let* i := of_option (list_index state (src_state e)) (ValueError NotInList) in
       ret (Z.of_nat i))
      (fun e => match e with
                | ValueError _ => Some (raise (ValueError InvalidState))
                | _ => None
                end).

(** [states]. *)
Definition states (s : AnalysisPoint) : list (list pyval) :=
  map (fun kv => src_state kv.2) (iteritems (_sources s)).

(** [max(l)] for a tuple of integers. *)
Definition py_max (l : list Z) : option Z :=
  match l with
  | [] => None
  | x :: r => Some (foldl Z.max x r)
  end.

(** [range(n)]. *)
Definition py_range (n : Z) : list Z := map Z.of_nat (seq 0 (Z.to_nat n)).

(** [longestStateIds]. *)
Definition longestStateIds : M (list (list Z)) :=
  let* s := get in
  let states := map (fun kv => Z.of_nat (length (src_state kv.2)) - 1)
                  (iteritems (_sources s)) in
  let* m := of_option (py_max states) (ValueError EmptyMax) in
  ret (map (fun i => map (fun st => Z.min st i) states) (py_range (m + 1))).

(** ** Writers *)

(** [_createDataStructure]: place holders for a source and a state where
    they are new; the source id and state id. *)
Definition _createDataStructure (source state : pyval) : M (Z * Z) :=
  let* s := get in
  let currentSources := (_sources s).*1 in
  (if decide (source ∈ currentSources) then ret tt
   else
     modify (set_sources
               (_sources s ++ [(source, mk_entry (length currentSources) [])]));;
     modify (fun s => set_values (_values s ++ [[]]) s));;
  let* e := sources_getitem source in
  let sid := Z.of_nat (src_id e) in
  (if decide (state ∈ src_state e) then ret tt
   else
     modify (fun s => set_sources (dict_append_state (_sources s) source state) s);;
     values_append_state sid);;
  let* e := sources_getitem source in
  let* stateid := of_option (list_index state (src_state e)) (ValueError NotInList) in
  ret (sid, Z.of_nat stateid).

(** [cell[ind] = value]: item assignment, refused by a tuple. *)
Definition cell_setitem (c : cell) (ind : Z) (value : pynum) : result cell :=
  match c with
  | CList t d => if decide (ind = 0) then Ok (CList value d) else Ok (CList t value)
  | CTuple _ _ => Raise TypeError
  end.

(** [self._values[sid][stateid][hoy][ind] = value]. *)
Definition values_setslot (sid stateid hoy ind : Z) (value : pynum) : M unit :=
  let* c := values_getitem sid stateid hoy in
  match cell_setitem c ind value with
  | Ok c' => values_setitem sid stateid hoy c'
  | Raise e => raise e
  end.

(** [setValue]. *)
Definition setValue (value : pynum) (hoy : Z) (source state : pyval)
    (isDirect : bool) : M unit :=
  let* '(sid, stateid) := _createDataStructure source state in
  (if isDirect then modify (set_isDirectLoaded true) else ret tt);;
  let ind := if isDirect then 1 else 0 in
  values_setslot sid stateid hoy ind value.

(** The length check of the vectorised setters; [lazy] says that one of the
    two arguments is a generator, for which the check is skipped. *)
Definition assert_same_length {A B} (lazy : bool) (values : list A) (hoys : list B)
  : M unit :=
  if lazy then ret tt
  else if decide (length values = length hoys) then ret tt
  else raise AssertionError.

(** [setValues]; [izip] stops at the shorter argument. *)
Definition setValues (lazy : bool) (values : list pynum) (hoys : list Z)
    (source state : pyval) (isDirect : bool) : M unit :=
  assert_same_length lazy values hoys;;
  let* '(sid, stateid) := _createDataStructure source state in
  (if isDirect then modify (set_isDirectLoaded true) else ret tt);;
  let ind := if isDirect then 1 else 0 in
  for_each (zip hoys values)
    (fun '(hoy, value) => values_setslot sid stateid hoy ind value).

(** [value[0], value[1]] for a sequence [value]: [IndexError] when it is
    too short. *)
Definition couple (value : list pynum) : M cell :=
  match value with
  | t :: d :: _ => ret (CTuple t d)
  | _ => raise IndexError
  end.

(** The handler of the coupled setters: [TypeError] and [IndexError]
    become a [ValueError]. *)
Definition wrong_input {A} (e : exn) : option (M A) :=
  match e with
  | TypeError | IndexError => Some (raise (ValueError WrongInput))
  | _ => None
  end.

(** [setCoupledValue]. *)
Definition setCoupledValue (value : list pynum) (hoy : Z) (source state : pyval)
  : M unit :=
  let* '(sid, stateid) := _createDataStructure source state in
  try_except
    (let* c := couple value in values_setitem sid stateid hoy c)
    wrong_input;;
  modify (set_isDirectLoaded true).

(** [setCoupledValues]. *)
Definition setCoupledValues (lazy : bool) (values : list (list pynum)) (hoys : list Z)
    (source state : pyval) : M unit :=
  assert_same_length lazy values hoys;;
  let* '(sid, stateid) := _createDataStructure source state in
  for_each (zip hoys values)
    (fun '(hoy, value) =>
       try_except
         (let* c := couple value in values_setitem sid stateid hoy c)
         wrong_input);;
  modify (set_isDirectLoaded true).

(** ** Readers by name *)

(** The handler of the readers: [KeyError] becomes 'Invalid hoy input'. *)
Definition invalid_hoy {A} (e : exn) : option (M A) :=
  match e with
  | KeyError => Some (raise (ValueError InvalidHoy))
  | _ => None
  end.

(** [value]. *)
Definition value (hoy : Z) (source state : pyval) : M pynum :=
  let* sid := sourceId source in
  let* stateid := blindStateId source state in
  try_except
    (let* c := values_getitem sid stateid hoy in ret (cell_total c))
    invalid_hoy.

(** [directValue].  The [else] branch of its [try] is never run: the
    [try] body returns. *)
Definition directValue (hoy : Z) (source state : pyval) : M pynum :=
  let* sid := sourceId source in
  let* stateid := blindStateId source state in
  try_except
    (let* c := values_getitem sid stateid hoy in ret (cell_direct c))
    invalid_hoy.

(** [values]. *)
Definition values (hoys : list Z) (source state : pyval) : M (list pynum) :=
  let* sid := sourceId source in
  let* stateid := blindStateId source state in
  try_except
    (map_m (fun hoy => let* c := values_getitem sid stateid hoy in ret (cell_total c))
       hoys)
    invalid_hoy.

(** [directValues]. *)
Definition directValues (hoys : list Z) (source state : pyval) : M (list pynum) :=
  let* sid := sourceId source in
  let* stateid := blindStateId source state in
  try_except
    (map_m (fun hoy => let* c := values_getitem sid stateid hoy in ret (cell_direct c))
       hoys)
    invalid_hoy.

(** [coupledValue]. *)
Definition coupledValue (hoy : Z) (source state : pyval) : M cell :=
  let* sid := sourceId source in
  let* stateid := blindStateId source state in
  try_except (values_getitem sid stateid hoy) invalid_hoy.

(** [coupledValues]. *)
Definition coupledValues (hoys : list Z) (source state : pyval) : M (list cell) :=
  let* sid := sourceId source in
  let* stateid := blindStateId source state in
  try_except (map_m (values_getitem sid stateid) hoys) invalid_hoy.

(** ** Combined values over all sources *)

(** [x or default] for a list argument: [None] and the empty list are false. *)
Definition or_else {A} (x : option (list A)) (default : list A) : list A :=
  match x with
  | None | Some [] => default
  | Some l => l
  end.

(** What one source contributes at [hoy] under [stateid]: [(0, 0)] for
    the id [-1], else the stored sample; any failure of the look-up is
    raised again as 'Invalid input'. *)
Definition source_sample (hoy : Z) (sid : nat) (stateid : pyval) : M (pynum * pynum) :=
  if decide (stateid = PInt (-1)) then ret (Some 0%Q, Some 0%Q)
  else
    try_except
      (match stateid with
       | PInt z =>
           let* c := values_getitem (Z.of_nat sid) z hoy in
           ret (cell_total c, cell_direct c)
       | _ => raise TypeError
       end)
      (fun _ => Some (raise (ValueError InvalidInput))).

(** [try: total += t; direct += d  except TypeError: pass].  Adding [None]
    raises [TypeError]: with [t] absent nothing is added, with [direct] or
    [d] absent only [total] is. *)
Definition add_sample (acc : Q * pynum) (td : pynum * pynum) : Q * pynum :=
  let '(total, direct) := acc in
  match td.1 with
  | None => (total, direct)
  | Some t =>
      match direct, td.2 with
      | Some dsum, Some d => ((total + t)%Q, Some (dsum + d)%Q)
      | _, _ => ((total + t)%Q, direct)
      end
  end.

(** [for sid, stateid in enumerate(ids): ...]. *)
Fixpoint combine_sources (hoy : Z) (sid : nat) (ids : list pyval) (acc : Q * pynum)
  : M (Q * pynum) :=
  match ids with
  | [] => ret acc
  | stateid :: r =>
      let* td := source_sample hoy sid stateid in
      combine_sources hoy (S sid) r (add_sample acc td)
  end.

Definition initial_direct (s : AnalysisPoint) : pynum :=
  if _isDirectLoaded s then Some 0%Q else None.

(** [combinedValueById]. *)
Definition combinedValueById (hoy : Z) (blindsStateIds : option (list pyval))
  : M (Q * pynum) :=
  let* s := get in
  let ids := or_else blindsStateIds (replicate (length (_sources s)) (PInt 0)) in
  if decide (length (_sources s) = length ids)
  then combine_sources hoy 0 ids (0%Q, initial_direct s)
  else raise AssertionError.

(** A generator run to its end: the items it yields, and the exception
    that stops it if one does. *)
Definition Gen (A : Type) : Type :=
  AnalysisPoint → (list A * option exn) * AnalysisPoint.

(** [tuple(g)]. *)
Definition tuple_of {A} (g : Gen A) : M (list A) := fun s =>
  match g s with
  | ((items, None), s') => (Ok items, s')
  | ((_, Some e), s') => (Raise e, s')
  end.

(** The loop of [combinedValuesById]: the row of an hour is
    [blindsStateIds[hoy]]. *)
Fixpoint combined_rows (dirValue : pynum) (blindsStateIds : list (list pyval))
    (hoys : list Z) : Gen (Q * pynum) := fun s =>
  match hoys with
  | [] => (([], None), s)
  | hoy :: r =>
      match py_getitem blindsStateIds hoy with
      | None => (([], Some IndexError), s)
      | Some row =>
          match combine_sources hoy 0 row (0%Q, dirValue) s with
          | (Raise e, s') => (([], Some e), s')
          | (Ok p, s') =>
              let '((ps, e), s'') := combined_rows dirValue blindsStateIds r s' in
              ((p :: ps, e), s'')
          end
      end
  end.

(** [combinedValuesById]. *)
Definition combinedValuesById (hoys_arg : option (list Z))
    (blindsStateIds : option (list (list pyval))) : Gen (Q * pynum) := fun s =>
  match (match hoys_arg with
         | None | Some [] => hoys s
         | Some l => (Ok l, s)
         end) with
  | (Raise e, s') => (([], Some e), s')
  | (Ok hs, s') =>
      let ids :=
        or_else blindsStateIds
          (replicate (length hs) (replicate (length (_sources s')) (PInt 0))) in
      if decide (length hs = length ids)
      then combined_rows (initial_direct s') ids hs s'
      else (([], Some AssertionError), s')
  end.

(** ** Blind-state selection *)

(** [sources]: the names ordered by id, written over [range(len(..))]. *)
Definition sources : M (list pyval) :=
  let* s := get in
  let fix fill (items : list (pyval * source_entry)) (srcs : list pyval) :=
    match items with
    | [] => ret srcs
    | (name, d) :: r =>
        let* srcs' := of_option (py_setitem srcs (Z.of_nat (src_id d)) name) IndexError in
        fill r srcs'
    end in
  fill (iteritems (_sources s)) (map PInt (py_range (Z.of_nat (length (_sources s))))).

(** [str.split(",")] and [str.strip()]. *)
Definition is_comma (c : ascii) : bool := bool_decide (nat_of_ascii c = 44%nat).

Definition is_space (c : ascii) : bool :=
  let n := nat_of_ascii c in (n =? 32)%nat || ((9 <=? n)%nat && (n <=? 13)%nat).

Fixpoint split_comma (s : string) : list string :=
  match s with
  | EmptyString => [EmptyString]
  | String c r =>
      if is_comma c then EmptyString :: split_comma r
      else
        match split_comma r with
        | w :: ws => String c w :: ws
        | [] => [String c EmptyString]
        end
  end.

Fixpoint lstrip (s : string) : string :=
  match s with
  | EmptyString => EmptyString
  | String c r => if is_space c then lstrip r else s
  end.

Fixpoint rstrip (s : string) : string :=
  match s with
  | EmptyString => EmptyString
  | String c r =>
      match rstrip r with
      | EmptyString => if is_space c then EmptyString else String c EmptyString
      | r' => String c r'
      end
  end.

Definition strip (s : string) : string := rstrip (lstrip s).

(** [for count, source in enumerate(sources):
       combIds[c][count] = self.blindStateId(source, comb[count])]. *)
Fixpoint resolve_comb (srcs : list pyval) (count : nat) (comb : list string)
    (row : list pyval) : M (list pyval) :=
  match srcs with
  | [] => ret row
  | source :: r =>
      let* name := of_option (comb !! count) IndexError in
      let* id := blindStateId source (PStr name) in
      resolve_comb r (S count) comb (<[count := PInt id]> row)
  end.

(** The candidate combinations of [blindsState].  Given combinations are
    strings of comma separated state names or ids, one per source. *)
Definition candidates (blindsStateIds : option (list string)) : M (list (list pyval)) :=
  match blindsStateIds with
  | None | Some [] =>
      let* ids := longestStateIds in ret (map (map PInt) ids)
  | Some ccs =>
      let* srcs := sources in
      let combs := map (fun cc => map strip (split_comma cc)) ccs in
      try_except
        (map_m (fun comb => resolve_comb srcs 0 comb (map PStr comb)) combs)
        (fun e => match e with
                  | IndexError => Some (raise (ValueError StateLength))
                  | _ => None
                  end)
  end.

(** The inner loop over the candidates at hour [h]: the first candidate
    the rule rejects, if any, and the last pair [ill, ill_dir] read. *)
Fixpoint first_rejected (lg : Q → pynum → Z → bool) (h : Z) (state : nat)
    (results : list (list (Q * pynum))) (last : option (Q * pynum))
  : M (option nat * option (Q * pynum)) :=
  match results with
  | [] => ret (None, last)
  | r :: rest =>
      let* '(ill, ill_dir) := of_option (py_getitem r h) IndexError in
      if negb (lg ill ill_dir h) then ret (Some state, Some (ill, ill_dir))
      else first_rejected lg h (S state) rest (Some (ill, ill_dir))
  end.

(** The four per-hour lists the selection fills. *)
Record selection := mk_selection {
  blindsIndex : list Z;
  illValues : list pynum;
  dirValues : list pynum;
  success : list Z
}.

Definition set_at {A} (l : list A) (h : Z) (x : A) : M (list A) :=
  of_option (py_setitem l h x) IndexError.

(** The body of [for h in hoys]. *)
Definition select_hour (lg : Q → pynum → Z → bool) (results : list (list (Q * pynum)))
    (h : Z) (st : selection * option (Q * pynum))
  : M (selection * option (Q * pynum)) :=
  let '(sel, last) := st in
  let* '(found, last') := first_rejected lg h 0 results last in
  match found with
  | Some state =>
      let* '(ill, ill_dir) := of_option last' UnboundLocalError in
      let* bi := set_at (blindsIndex sel) h (Z.of_nat state) in
      let* iv := set_at (illValues sel) h (Some ill) in
      let* dv := set_at (dirValues sel) h ill_dir in
      let* su := if decide (0 < state)%nat then set_at (success sel) h 1
                 else ret (success sel) in
      ret (mk_selection bi iv dv su, last')
  | None =>
      let* su := set_at (success sel) h (-1) in
      let* '(ill, ill_dir) := of_option last' UnboundLocalError in
      let* iv := set_at (illValues sel) h (Some ill) in
      let* dv := set_at (dirValues sel) h ill_dir in
      ret (mk_selection (blindsIndex sel) iv dv su, last')
  end.

Fixpoint select_hours (lg : Q → pynum → Z → bool) (results : list (list (Q * pynum)))
    (hs : list Z) (st : selection * option (Q * pynum))
  : M (selection * option (Q * pynum)) :=
  match hs with
  | [] => ret st
  | h :: r => let* st' := select_hour lg results h st in select_hours lg results r st'
  end.

(** [blindsState]; the extra arguments of the rule are part of [logic].
    What it returns: the combination, its index, the total and the direct
    value and the success flag, each per hour. *)
Definition blindsState (hoys_arg : option (list Z)) (blindsStateIds : option (list string))
  : M (list (list pyval) * selection) :=
  let* hs := match hoys_arg with
             | None | Some [] => hoys
             | Some l => ret l
             end in
  let* combIds := candidates blindsStateIds in
  let* results :=
    map_m (fun state =>
             tuple_of (combinedValuesById (Some hs) (Some (replicate (length hs) state))))
      combIds in
  let hoursCount := length hs in
  let start :=
    mk_selection (replicate hoursCount (Z.of_nat (length combIds) - 1))
      (replicate hoursCount None) (replicate hoursCount None)
      (replicate hoursCount 0) in
  let* s := get in
  let* st := select_hours (logic s) results hs (start, None) in
  let sel := st.1 in
  let* blindsState :=
    map_m (fun ids => of_option (py_getitem combIds ids) IndexError) (blindsIndex sel) in
  ret (blindsState, sel).

(** ** Annual metrics *)

(** [x or default] for a number: [None] and zero are false. *)
Definition num_or (x : option Q) (default : Q) : Q :=
  match x with
  | None => default
  | Some q => if num_eq q 0 then default else q
  end.

(** [a / b] under true division. *)
Definition py_div (a b : Q) : M Q :=
  if num_eq b 0 then raise ZeroDivisionError else ret (a / b)%Q.

(** [v in schedule]. *)
Definition in_schedule (schedule : list Q) (v : Q) : bool :=
  existsb (num_eq v) schedule.

(** The counters of the three reducers. *)
Record da_counters := mk_da { DA : Z; CDA : Q }.

Record udi_counters := mk_udi { UDI : Z; UDI_l : Z; UDI_m : Z }.

(** [if v >= DAThreshhold: DA += 1; CDA += 1  else: CDA += v / DAThreshhold];
    the threshold is not zero, see [num_or]. *)
Definition da_step (DAThreshhold v : Q) (c : da_counters) : da_counters :=
  if num_le DAThreshhold v then mk_da (DA c + 1) (CDA c + 1)%Q
  else mk_da (DA c) (CDA c + v / DAThreshhold)%Q.

(** [if v < udiMin: UDI_l += 1  elif v > udiMax: UDI_m += 1  else: UDI += 1]. *)
Definition udi_step (udiMin udiMax v : Q) (c : udi_counters) : udi_counters :=
  if num_lt v udiMin then mk_udi (UDI c) (UDI_l c + 1) (UDI_m c)
  else if num_lt udiMax v then mk_udi (UDI c) (UDI_l c) (UDI_m c + 1)
  else mk_udi (UDI c + 1) (UDI_l c) (UDI_m c).

(** [for v in values] of [daylightAutonomy]; a value that is not in the
    schedule takes one off [totalHourCount]. *)
Fixpoint da_loop (DAThreshhold : Q) (schedule values : list Q)
    (c : da_counters) (totalHourCount : Z) : da_counters * Z :=
  match values with
  | [] => (c, totalHourCount)
  | v :: r =>
      if negb (in_schedule schedule v)
      then da_loop DAThreshhold schedule r c (totalHourCount - 1)
      else da_loop DAThreshhold schedule r (da_step DAThreshhold v c) totalHourCount
  end.

Fixpoint udi_loop (udiMin udiMax : Q) (schedule values : list Q)
    (c : udi_counters) (totalHourCount : Z) : udi_counters * Z :=
  match values with
  | [] => (c, totalHourCount)
  | v :: r =>
      if negb (in_schedule schedule v)
      then udi_loop udiMin udiMax schedule r c (totalHourCount - 1)
      else udi_loop udiMin udiMax schedule r (udi_step udiMin udiMax v c) totalHourCount
  end.

Fixpoint annual_loop (DAThreshhold udiMin udiMax : Q) (schedule values : list Q)
    (c : da_counters) (u : udi_counters) (totalHourCount : Z)
  : da_counters * udi_counters * Z :=
  match values with
  | [] => (c, u, totalHourCount)
  | v :: r =>
      if negb (in_schedule schedule v)
      then annual_loop DAThreshhold udiMin udiMax schedule r c u (totalHourCount - 1)
      else annual_loop DAThreshhold udiMin udiMax schedule r
             (da_step DAThreshhold v c) (udi_step udiMin udiMax v u) totalHourCount
  end.

(** What the reducers share: the hours, the schedule and the totals of
    [combinedValuesById(hours, blindsStateIds)]. *)
Definition metric_inputs (blindsStateIds : option (list (list pyval)))
    (occSchedule : option (list Q)) : M (list Z * list Q * list Q) :=
  let* hours := hoys in
  let schedule := or_else occSchedule (map inject_Z hours) in
  let* pairs := tuple_of (combinedValuesById (Some hours) blindsStateIds) in
  ret (hours, schedule, pairs.*1).

(** [daylightAutonomy]. *)
Definition daylightAutonomy (DAThreshhold : option Q)
    (blindsStateIds : option (list (list pyval))) (occSchedule : option (list Q))
  : M (Q * Q) :=
  let thr := num_or DAThreshhold 300 in
  let* '(hours, schedule, values) := metric_inputs blindsStateIds occSchedule in
  let '(c, totalHourCount) :=
    da_loop thr schedule values (mk_da 0 0) (Z.of_nat (length hours)) in
  let n := inject_Z totalHourCount in
  let* da := py_div (inject_Z (DA c)) n in
  let* cda := py_div (CDA c) n in
  ret (da, cda).

(** [usefulDaylightIlluminance]. *)
Definition usefulDaylightIlluminance (UDIMinMax : option (Q * Q))
    (blindsStateIds : option (list (list pyval))) (occSchedule : option (list Q))
  : M (Q * Q * Q) :=
  let '(udiMin, udiMax) := default (100%Q, 2000%Q) UDIMinMax in
  let* '(hours, schedule, values) := metric_inputs blindsStateIds occSchedule in
  let '(u, totalHourCount) :=
    udi_loop udiMin udiMax schedule values (mk_udi 0 0 0) (Z.of_nat (length hours)) in
  let n := inject_Z totalHourCount in
  let* udi := py_div (inject_Z (UDI u)) n in
  let* udi_l := py_div (inject_Z (UDI_l u)) n in
  let* udi_m := py_div (inject_Z (UDI_m u)) n in
  ret (udi, udi_l, udi_m).

(** [annualMetrics]. *)
Definition annualMetrics (DAThreshhold : option Q) (UDIMinMax : option (Q * Q))
    (blindsStateIds : option (list (list pyval))) (occSchedule : option (list Q))
  : M (Q * Q * Q * Q * Q) :=
  let thr := num_or DAThreshhold 300 in
  let '(udiMin, udiMax) := default (100%Q, 2000%Q) UDIMinMax in
  let* '(hours, schedule, values) := metric_inputs blindsStateIds occSchedule in
  let '(c, u, totalHourCount) :=
    annual_loop thr udiMin udiMax schedule values (mk_da 0 0) (mk_udi 0 0 0)
      (Z.of_nat (length hours)) in
  let n := inject_Z totalHourCount in
  let* da := py_div (inject_Z (DA c)) n in
  let* cda := py_div (CDA c) n in
  let* udi := py_div (inject_Z (UDI u)) n in
  let* udi_l := py_div (inject_Z (UDI_l u)) n in
  let* udi_m := py_div (inject_Z (UDI_m u)) n in
  ret (da, cda, udi, udi_l, udi_m).

(** ** Stores used in the examples *)

(** The state an operation leaves, and what it returns or raises. *)
Definition after {A} (m : M A) (s : AnalysisPoint) : AnalysisPoint := (m s).2.

Definition outcome {A} (m : M A) (s : AnalysisPoint) : result A := (m s).1.

(** The value in a result, if there is one. *)
Definition outcome_value {A} (r : result A) : option A :=
  match r with
  | Ok a => Some a
  | Raise _ => None
  end.

(** One total value, 5, at hour 1 of the unnamed source and state. *)
Definition one_sample : AnalysisPoint :=
  after (setValue (Some 5%Q) 1 PNone PNone false) init.

(** A one-hour series whose value is [v], at hour [h]. *)
Definition one_hour (h : Z) (v : Q) : AnalysisPoint :=
  after (setValue (Some v) h PNone PNone false) init.

(** Totals 10 and 20 at hours 0 and 1. *)
Definition two_hours : AnalysisPoint :=
  after (setValues false [Some 10%Q; Some 20%Q] [0; 1] PNone PNone false) init.

(** A total without direct part at hour 1, a direct value at hour 2. *)
Definition partial_direct : AnalysisPoint :=
  after (setValue (Some 3%Q) 2 PNone PNone true) one_sample.

(** Two sources whose series have different hours: hour 0 for the first,
    hour 1 for the second. *)
Definition uneven_hours : AnalysisPoint :=
  after (setValue (Some 7%Q) 1 (PStr "B") (PStr "b") false)
    (after (setValue (Some 0%Q) 0 (PStr "A") (PStr "a") false) init).

(** The hour keys of every series, by source and state. *)
Definition hour_keys (s : AnalysisPoint) : list (list (list Z)) :=
  map (map sorted_keys) (_values s).

(** The rule that always asks for the next state. *)
Definition always (ill : Q) (ill_dir : pynum) (h : Z) : bool := true.

(** The hour count the reducers divide by: the number of hours less the
    values that are not in the schedule. *)
Definition in_schedule_count (schedule values : list Q) (hours : list Z) : Z :=
  Z.of_nat (length hours)
  - Z.of_nat (length (filter (fun v => in_schedule schedule v = false) values)).

(** Whether the accumulation of [combine_sources] reaches [direct += d]
    with an absent [d]: some source has a total but no direct part. *)
Fixpoint absent_direct_added (hoy : Z) (sid : nat) (ids : list pyval)
    (s : AnalysisPoint) : bool :=
  match ids with
  | [] => false
  | stateid :: r =>
      match source_sample hoy sid stateid s with
      | (Ok (Some _, None), _) => true
      | (Ok _, s') => absent_direct_added hoy (S sid) r s'
      | (Raise _, _) => false
      end
  end.

(** Numbers and optional numbers that are equal as numbers. *)
Definition pynum_eq (a b : pynum) : Prop :=
  match a, b with
  | Some x, Some y => (x == y)%Q
  | None, None => True
  | _, _ => False
  end.

(** Totals 3000 at hours 0 and 1, under the rule [always]. *)
Definition bright_hours : AnalysisPoint :=
  set_logic always
    (after (setValues false [Some 3000%Q; Some 3000%Q] [0; 1] PNone PNone false) init).

(** Three sources with 2, 4 and 1 states, each written once at hour 0. *)
Definition three_sources : AnalysisPoint :=
  after
    (for_each
       [("A", "a0"); ("A", "a1");
        ("B", "b0"); ("B", "b1"); ("B", "b2"); ("B", "b3");
        ("C", "c0")]%string
       (fun '(source, state) => setValue (Some 1%Q) 0 (PStr source) (PStr state) false))
    init.

(** The highest state id of a source: [len(s[1]['state']) - 1]. *)
Definition last_state_id (kv : pyval * source_entry) : Z :=
  Z.of_nat (length (src_state kv.2)) - 1.

(** ** The invariant of the object and the coupled round trip *)

(** What the writers keep: ids are positions in the dict, there is one
    list of series per source and one series per state. *)
Record wf (s : AnalysisPoint) : Prop := mk_wf {
  wf_length : length (_values s) = length (_sources s);
  wf_entry : ∀ i name e, _sources s !! i = Some (name, e) →
    src_id e = i ∧
    ∃ row, _values s !! i = Some row ∧ length row = length (src_state e)
}.

(** [source] and [state] are known under the ids [i] and [j]. *)
Definition resolves (s : AnalysisPoint) (source state : pyval) (i j : nat) : Prop :=
  ∃ e, dict_get (_sources s) source = Some e ∧ src_id e = i ∧
       list_index state (src_state e) = Some j.

(** The series of ids [i] and [j]. *)
Definition series (s : AnalysisPoint) (i j : nat) : option (gmap Z cell) :=
  match _values s !! i with
  | Some row => row !! j
  | None => None
  end.

(** The sample stored for [hoy] in the series of ids [i] and [j]. *)
Definition stored (s : AnalysisPoint) (i j : nat) (hoy : Z) : option cell :=
  match series s i j with
  | Some d => d !! hoy
  | None => None
  end.

(** A sequence of [(hour, total, direct)] triples written one by one. *)
Definition write_coupled (l : list (Z * pynum * pynum)) (source state : pyval) : M unit :=
  for_each l
    (fun '(hoy, total, direct) => setCoupledValue [total; direct] hoy source state).

(** The pair written last for [hoy]. *)
Fixpoint last_written (l : list (Z * pynum * pynum)) (hoy : Z) : option (pynum * pynum) :=
  match l with
  | [] => None
  | (h, total, direct) :: r =>
      match last_written r hoy with
      | Some p => Some p
      | None => if decide (h = hoy) then Some (total, direct) else None
      end
  end.

(** The second half of [_createDataStructure], from the look-up of the
    source id on. *)
Definition create_state (source state : pyval) : M (Z * Z) :=
  let* e := sources_getitem source in
  let sid := Z.of_nat (src_id e) in
  (if decide (state ∈ src_state e) then ret tt
   else
     modify (fun s => set_sources (dict_append_state (_sources s) source state) s);;
     values_append_state sid);;
  let* e := sources_getitem source in
  let* stateid := of_option (list_index state (src_state e)) (ValueError NotInList) in
  ret (sid, Z.of_nat stateid).

(** The store once a new source is registered. *)
Definition with_source (source : pyval) (s : AnalysisPoint) : AnalysisPoint :=
  set_values (_values s ++ [[]])
    (set_sources (_sources s ++ [(source, mk_entry (length (_sources s).*1) [])]) s).

(** The hour and the [(total, direct)] value of a triple. *)
Definition triple_hour (x : Z * pynum * pynum) : Z := x.1.1.

Definition triple_value (x : Z * pynum * pynum) : list pynum := [x.1.2; x.2].

(** Two states written with the coupled setter: one named by the number
    5, one named by the string of digits '5'. *)
Definition numbered_state : AnalysisPoint :=
  after (setCoupledValue [Some 1%Q; Some 2%Q] 0 PNone (PInt 5)) init.

Definition digit_state : AnalysisPoint :=
  after (setCoupledValue [Some 1%Q; Some 2%Q] 0 PNone (PStr "5")) init.

(** A computation that raises nothing but [IndexError], and one that never
    raises 'Invalid hoy input'. *)
Definition only_IndexError {A} (m : M A) : Prop :=
  ∀ s e, outcome m s = Raise e → e = IndexError.

Definition never_invalid_hoy {A} (m : M A) : Prop :=
  ∀ s, outcome m s ≠ Raise (ValueError InvalidHoy).

(** ** Readers by id *)

(** [x or 0] for an id: [None] and zero are false. *)
Definition id_or_0 (x : option Z) : Z :=
  match x with
  | None => 0
  | Some z => if decide (z = 0) then 0 else z
  end.

(** The handler of the readers by id: every exception becomes
    'Invalid input'. *)
Definition invalid_input {A} (e : exn) : option (M A) :=
  Some (raise (ValueError InvalidInput)).

(** [coupledValueById]. *)
Definition coupledValueById (hoy : Z) (source_id state_id : option Z) : M cell :=
  let sid := id_or_0 source_id in
  let stateid := id_or_0 state_id in
  try_except (values_getitem sid stateid hoy) invalid_input.

(** [coupledValuesById]. *)
Definition coupledValuesById (hoys : list Z) (source_id state_id : option Z)
  : M (list cell) :=
  let sid := id_or_0 source_id in
  let stateid := id_or_0 state_id in
  try_except (map_m (values_getitem sid stateid) hoys) invalid_input.

(** ** Calls of the writers *)

(** One call of a writer, and a sequence of calls; a call that raises
    leaves the store as it was when the exception came. *)
Inductive writer :=
  | SetValue (value : pynum) (hoy : Z) (source state : pyval) (isDirect : bool)
  | SetValues (lazy : bool) (values : list pynum) (hoys : list Z)
      (source state : pyval) (isDirect : bool)
  | SetCoupledValue (value : list pynum) (hoy : Z) (source state : pyval)
  | SetCoupledValues (lazy : bool) (values : list (list pynum)) (hoys : list Z)
      (source state : pyval).

Definition call (w : writer) : M unit :=
  match w with
  | SetValue value hoy source state isDirect => setValue value hoy source state isDirect
  | SetValues lazy values hoys source state isDirect =>
      setValues lazy values hoys source state isDirect
  | SetCoupledValue value hoy source state => setCoupledValue value hoy source state
  | SetCoupledValues lazy values hoys source state =>
      setCoupledValues lazy values hoys source state
  end.

Definition run_writers (ws : list writer) (s : AnalysisPoint) : AnalysisPoint :=
  foldl (fun s w => after (call w) s) s ws.

(** ** Relations between the store before and after an operation *)

(** An operation whose final store is always related to its first. *)
Definition steps {A} (R : relation AnalysisPoint) (m : M A) : Prop :=
  ∀ s, R s (after m s).

Definition steps_gen {A} (R : relation AnalysisPoint) (g : Gen A) : Prop :=
  ∀ s, R s (g s).2.

(** A loaded direct flag stays loaded. *)
Definition flag_kept (s s' : AnalysisPoint) : Prop :=
  _isDirectLoaded s = true → _isDirectLoaded s' = true.

(** Known sources and states keep their ids. *)
Definition ids_kept (s s' : AnalysisPoint) : Prop :=
  ∀ source state i j, resolves s source state i j → resolves s' source state i j.

Definition wf_kept (s s' : AnalysisPoint) : Prop := wf s → wf s'.

(** No source is registered twice, and no state twice for a source. *)
Definition uniq (s : AnalysisPoint) : Prop :=
  NoDup (_sources s).*1 ∧
  ∀ name e, (name, e) ∈ _sources s → NoDup (src_state e).

Definition uniq_kept (s s' : AnalysisPoint) : Prop := uniq s → uniq s'.

(** Only the table of values may differ. *)
Definition values_only (s s' : AnalysisPoint) : Prop :=
  _sources s' = _sources s ∧ _isDirectLoaded s' = _isDirectLoaded s ∧ logic s' = logic s.

(** The sample a look-up finds for [hoy] in the series of ids [i] and [j]:
    the default where the hour is missing, nothing where the series is. *)
Definition view (s : AnalysisPoint) (i j : nat) (hoy : Z) : option cell :=
  match series s i j with
  | Some d => Some (default double (d !! hoy))
  | None => None
  end.

(** Two stores that answer every look-up alike: the same sources, states,
    flag and rule, as many series, and the same sample for every hour; the
    sets of hour keys may differ. *)
Definition same_reads (s s' : AnalysisPoint) : Prop :=
  values_only s s' ∧
  map length (_values s') = map length (_values s) ∧
  ∀ i j hoy, view s' i j hoy = view s i j hoy.

(** An operation that returns the same on stores that answer alike. *)
Definition reads_same {A} (m : M A) : Prop :=
  ∀ s s', same_reads s s' → outcome m s' = outcome m s.

(** A reading operation: it leaves a store that answers as before, and
    what it returns depends on the answers only. *)
Definition reader {A} (m : M A) : Prop :=
  steps same_reads m ∧ reads_same m.

(** The positions a pair of ids stands for. *)
Definition positions (v : list (list (gmap Z cell))) (sid stateid : Z)
  : option (nat * nat) :=
  match values_series v sid stateid with
  | Some (i, j, _, _) => Some (i, j)
  | None => None
  end.

(** The error of a reader by name for a state name that no look-up finds. *)
Definition name_error (s : AnalysisPoint) (source : pyval) : exn :=
  match dict_get (_sources s) source with
  | Some _ => ValueError InvalidState
  | None => ValueError InvalidSource
  end.

(** What source [sid] adds at [hoy] under [stateid], read off the store:
    [(0, 0)] under -1, the sample of the series the ids stand for (the
    default where the hour is missing), nothing where there is no such
    series. *)
Definition contribution (s : AnalysisPoint) (hoy : Z) (sid : nat) (stateid : pyval)
  : option (pynum * pynum) :=
  match stateid with
  | PInt z =>
      if decide (z = -1) then Some (Some 0%Q, Some 0%Q)
      else
        match positions (_values s) (Z.of_nat sid) z with
        | Some (i, j) =>
            match view s i j hoy with
            | Some c => Some (cell_total c, cell_direct c)
            | None => None
            end
        | None => None
        end
  | _ => None
  end.

Fixpoint contributions (s : AnalysisPoint) (hoy : Z) (sid : nat) (ids : list pyval)
  : option (list (pynum * pynum)) :=
  match ids with
  | [] => Some []
  | stateid :: r =>
      match contribution s hoy sid stateid, contributions s hoy (S sid) r with
      | Some td, Some tds => Some (td :: tds)
      | _, _ => None
      end
  end.

(** The total a sample adds, and the direct part it adds: a direct part
    counts only beside a total. *)
Definition total_part (td : pynum * pynum) : Q := default 0%Q td.1.

Definition direct_part (td : pynum * pynum) : Q :=
  match td with
  | (Some _, Some d) => d
  | _ => 0%Q
  end.

Definition Qsum (l : list Q) : Q := foldr Qplus 0%Q l.

(** The pair [combine_sources] leaves for given samples. *)
Definition combined (s : AnalysisPoint) (tds : list (pynum * pynum)) : Q * pynum :=
  foldl add_sample (0%Q, initial_direct s) tds.

(** The rule rejects a pair at hour [h]: the search stops there. *)
Definition rejected (lg : Q → pynum → Z → bool) (h : Z) (p : Q * pynum) : Prop :=
  lg p.1 p.2 h = false.

#[global] Instance rejected_dec lg h p : Decision (rejected lg h p).
Proof. unfold rejected. apply _. Defined.

(** What the selection records at position [p] for the pairs [col] that
    the candidates give at an hour: the first pair the rule rejects with
    its index, and the flag 1 if that index is not 0; the last pair and the
    flag -1 if the rule rejects none. *)
Definition record_choice (lg : Q → pynum → Z → bool) (h : Z) (p : nat)
    (col : list (Q * pynum)) (sel : selection) : option selection :=
  match list_find (rejected lg h) col with
  | Some (k, q) =>
      Some (mk_selection (<[p := Z.of_nat k]> (blindsIndex sel))
              (<[p := Some q.1]> (illValues sel))
              (<[p := q.2]> (dirValues sel))
              (if decide (0 < k)%nat then <[p := 1]> (success sel) else success sel))
  | None =>
      match last col with
      | Some q =>
          Some (mk_selection (blindsIndex sel)
                  (<[p := Some q.1]> (illValues sel))
                  (<[p := q.2]> (dirValues sel))
                  (<[p := -1]> (success sel)))
      | None => None
      end
  end.

(** The pair a candidate combination gives at [hoy], read off the store. *)
Definition candidate_value (s : AnalysisPoint) (hoy : Z) (comb : list pyval)
  : option (Q * pynum) :=
  combined s <$> contributions s hoy 0 comb.

(** The four lists of a selection have [n] entries. *)
Definition sel_lengths (sel : selection) (n : nat) : Prop :=
  length (blindsIndex sel) = n ∧ length (illValues sel) = n ∧
  length (dirValues sel) = n ∧ length (success sel) = n.

(** Two selections agree at position [k]. *)
Definition same_at (k : nat) (sel sel' : selection) : Prop :=
  blindsIndex sel' !! k = blindsIndex sel !! k ∧
  illValues sel' !! k = illValues sel !! k ∧
  dirValues sel' !! k = dirValues sel !! k ∧
  success sel' !! k = success sel !! k.

(** What a selection holds at position [k] for the pairs [col] of the
    candidates at hour [k]: index and pair of the first candidate the rule
    rejects, with the flag 1 unless it is candidate 0 (flag 0); where the
    rule rejects none, the index [fallback], the pair of the last candidate
    and the flag -1. *)
Definition chosen (lg : Q → pynum → Z → bool) (k : nat) (col : list (Q * pynum))
    (fallback : Z) (sel : selection) : Prop :=
  match list_find (rejected lg (Z.of_nat k)) col with
  | Some (i, q) =>
      blindsIndex sel !! k = Some (Z.of_nat i) ∧
      illValues sel !! k = Some (Some q.1) ∧
      dirValues sel !! k = Some q.2 ∧
      success sel !! k = Some (if decide (0 < i)%nat then 1 else 0)
  | None =>
      blindsIndex sel !! k = Some fallback ∧
      (∃ q, last col = Some q ∧
            illValues sel !! k = Some (Some q.1) ∧ dirValues sel !! k = Some q.2) ∧
      success sel !! k = Some (-1)
  end.

(** A window with two blind states: 3000 and 100 at the hours 0 and 1 in
    the first, 500 and 50 in the second. *)
Definition two_states : AnalysisPoint :=
  run_writers
    [SetValues false [Some 3000%Q; Some 100%Q] [0; 1] (PStr "A") (PStr "a0") false;
     SetValues false [Some 500%Q; Some 50%Q] [0; 1] (PStr "A") (PStr "a1") false]
    init.

(** A value that has the two entries a coupled setter reads. *)
Definition is_pair (hv : Z * list pynum) : bool :=
  match hv.2 with
  | _ :: _ :: _ => true
  | _ => false
  end.

(** The two ways the look-up of a combination can fail. *)
Definition bad_combination (e : exn) : Prop :=
  e = IndexError ∨ e = ValueError InvalidState.

(** The dict of sources yields the sources in the order of their ids, as
    far as the order is fixed: it has one source at most, or keys with a
    known hash that sit in their slots in the order in which they were
    entered. *)
Definition ids_in_dict_order (s : AnalysisPoint) : Prop :=
  order_known (_sources s) ∧ iteritems (_sources s) = _sources s.

(** A window with two blind states, 3000 and 100 at the hours 0 and 1 in
    the first, 500 and 50 in the second, and a window with one state, 200
    and 20. *)
Definition two_windows : AnalysisPoint :=
  run_writers
    [SetValues false [Some 3000%Q; Some 100%Q] [0; 1] (PStr "A") (PStr "a0") false;
     SetValues false [Some 500%Q; Some 50%Q] [0; 1] (PStr "A") (PStr "a1") false;
     SetValues false [Some 200%Q; Some 20%Q] [0; 1] (PStr "B") (PStr "b0") false]
    init.

(** The numbers that the accumulation of [combinedValueById] adds to the
    total, in the order of the sources: the totals that are not [None]. *)
Definition totals_added (tds : list (pynum * pynum)) : list Q := omap fst tds.

(** The numbers it adds to a direct sum: the direct parts that are not
    [None] and stand beside a total. *)
Definition directs_added (tds : list (pynum * pynum)) : list Q :=
  omap (fun td => match td with (Some _, Some d) => Some d | _ => None end) tds.

(** Two stores that differ in the series of source [k] at most. *)
Definition same_but_source (k : nat) (s s' : AnalysisPoint) : Prop :=
  length (_sources s') = length (_sources s) ∧
  _isDirectLoaded s' = _isDirectLoaded s ∧
  length (_values s') = length (_values s) ∧
  ∀ i, i ≠ k → _values s' !! i = _values s !! i.

(** Three windows at hour 0: 10 with the direct part 4, then 20 without a
    direct part, then 7 with the direct part 9. *)
Definition mixed_direct : AnalysisPoint :=
  run_writers
    [SetCoupledValue [Some 10%Q; Some 4%Q] 0 (PStr "A") (PStr "a");
     SetValue (Some 20%Q) 0 (PStr "B") (PStr "b") false;
     SetCoupledValue [Some 7%Q; Some 9%Q] 0 (PStr "C") (PStr "c")]
    init.


(** The dict of sources that [_createDataStructure] leaves. *)
Definition sources_after_create (source state : pyval)
    (d : list (pyval * source_entry)) : list (pyval * source_entry) :=
  let d1 := if decide (source ∈ d.*1) then d
            else d ++ [(source, mk_entry (length d.*1) [])] in
  match dict_get d1 source with
  | Some e => if decide (state ∈ src_state e) then d1
              else dict_append_state d1 source state
  | None => d1
  end.

(** * Properties *)

(** Closed statements about example stores are settled by running the
    methods. *)
Ltac by_evaluation := repeat split; vm_compute; reflexivity.

(** The count of a reducer loop, by induction on the values. *)
Ltac loop_count schedule values IH :=
  induction values as [|v r IH]; intros; simpl; [lia|];
  rewrite filter_cons; destruct (in_schedule schedule v); simpl;
  [apply IH | rewrite IH; lia].

(** ** Reading an hour that was never written *)

(** The look-up in a series raises [IndexError] or nothing. *)
Lemma values_getitem_raises sid stateid hoy s e :
  outcome (values_getitem sid stateid hoy) s = Raise e → e = IndexError.
Proof.
  unfold outcome, values_getitem.
  destruct (values_series _ _ _) as [[[[i j] row] d]|]; simpl.
  - destruct (d !! hoy); simpl; discriminate.
  - congruence.
Qed.

(** Where the series exists, a missing hour reads as the default sample
    and is stored under the hour. *)
Lemma values_getitem_absent sid stateid hoy s i j row d :
  values_series (_values s) sid stateid = Some (i, j, row, d) →
  d !! hoy = None →
  values_getitem sid stateid hoy s =
    (Ok double, set_values (<[i := <[j := <[hoy := double]> d]> row]> (_values s)) s).
Proof. intros Hs Hd. unfold values_getitem. by rewrite Hs, Hd. Qed.

(** A stored hour reads as it is, and nothing changes. *)
Lemma values_getitem_present sid stateid hoy s i j row d c :
  values_series (_values s) sid stateid = Some (i, j, row, d) →
  d !! hoy = Some c →
  values_getitem sid stateid hoy s = (Ok c, s).
Proof. intros Hs Hd. unfold values_getitem. by rewrite Hs, Hd. Qed.

Lemma only_IndexError_ret {A} (a : A) : only_IndexError (ret a).
Proof. intros s e. unfold outcome, ret. simpl. discriminate. Qed.

Lemma only_IndexError_bind {A B} (m : M A) (k : A → M B) :
  only_IndexError m → (∀ a, only_IndexError (k a)) → only_IndexError (bind m k).
Proof.
  intros Hm Hk s e. unfold outcome, bind.
  destruct (m s) as [[a|e'] s1] eqn:E; simpl.
  - apply Hk.
  - intros [= <-]. apply (Hm s). unfold outcome. by rewrite E.
Qed.

Lemma only_IndexError_map_m {A B} (f : A → M B) l :
  (∀ x, only_IndexError (f x)) → only_IndexError (map_m f l).
Proof.
  intros Hf. induction l as [|x r IH]; simpl.
  - apply only_IndexError_ret.
  - apply only_IndexError_bind; [apply Hf|]. intros y.
    apply only_IndexError_bind; [apply IH|]. intros ys. apply only_IndexError_ret.
Qed.

Lemma only_IndexError_values_getitem sid stateid hoy :
  only_IndexError (values_getitem sid stateid hoy).
Proof. intros s e. apply values_getitem_raises. Qed.

(** The handler of the readers has nothing to handle. *)
Lemma never_invalid_hoy_try {A} (m : M A) :
  only_IndexError m → never_invalid_hoy (try_except m invalid_hoy).
Proof.
  intros Hm s. unfold outcome, try_except.
  destruct (m s) as [[a|e] s1] eqn:E; simpl; [discriminate|].
  assert (e = IndexError) as ->. { apply (Hm s). unfold outcome. by rewrite E. }
  simpl. discriminate.
Qed.

Lemma never_invalid_hoy_bind {A B} (m : M A) (k : A → M B) :
  never_invalid_hoy m → (∀ a, never_invalid_hoy (k a)) → never_invalid_hoy (bind m k).
Proof.
  intros Hm Hk s. unfold outcome, bind.
  destruct (m s) as [[a|e] s1] eqn:E; simpl.
  - apply Hk.
  - intros [= ->]. apply (Hm s). unfold outcome. by rewrite E.
Qed.

Lemma never_invalid_hoy_sourceId source : never_invalid_hoy (sourceId source).
Proof.
  intros s. unfold outcome, sourceId, try_except, bind, sources_getitem, bind. simpl.
  destruct (dict_get (_sources s) source); simpl; discriminate.
Qed.

Lemma never_invalid_hoy_blindStateId source state :
  never_invalid_hoy (blindStateId source state).
Proof.
  intros s. unfold outcome, blindStateId.
  destruct (isdigit state); [simpl; discriminate|].
  unfold try_except, bind, sources_getitem, bind. simpl.
  destruct (dict_get (_sources s) source) as [e|]; simpl; [|discriminate].
  destruct (list_index state (src_state e)); simpl; discriminate.
Qed.

(** A reader: the two ids resolved, then a guarded look-up. *)
Lemma never_invalid_hoy_reader {A} source state (m : Z → Z → M A) :
  (∀ sid stateid, only_IndexError (m sid stateid)) →
  never_invalid_hoy
    (let* sid := sourceId source in
     let* stateid := blindStateId source state in
     try_except (m sid stateid) invalid_hoy).
Proof.
  intros Hm.
  apply never_invalid_hoy_bind; [apply never_invalid_hoy_sourceId|]. intros sid.
  apply never_invalid_hoy_bind; [apply never_invalid_hoy_blindStateId|]. intros stateid.
  apply never_invalid_hoy_try, Hm.
Qed.

(** C1 (the code departs from the claim).  Hour 99 was never written to
    the series of [one_sample]; each of the six readers returns the default
    [None] (or the default pair) for it.  On no store and for no hour does
    any of the readers raise 'Invalid hoy input': a series is a
    [defaultdict], and its look-up raises no [KeyError]. *)
Theorem C1_absent_hour_reads_default :
  (outcome (value 99 PNone PNone) one_sample = Ok None ∧
   outcome (directValue 99 PNone PNone) one_sample = Ok None ∧
   outcome (values [1; 99] PNone PNone) one_sample = Ok [Some 5%Q; None] ∧
   outcome (directValues [1; 99] PNone PNone) one_sample = Ok [None; None] ∧
   outcome (coupledValue 99 PNone PNone) one_sample = Ok (CList None None) ∧
   outcome (coupledValues [99] PNone PNone) one_sample = Ok [CList None None]) ∧
  (∀ hoy hs source state,
     never_invalid_hoy (value hoy source state) ∧
     never_invalid_hoy (directValue hoy source state) ∧
     never_invalid_hoy (values hs source state) ∧
     never_invalid_hoy (directValues hs source state) ∧
     never_invalid_hoy (coupledValue hoy source state) ∧
     never_invalid_hoy (coupledValues hs source state)).
Proof.
  split; [by_evaluation|].
  intros hoy hs source state.
  repeat split.
  - apply (never_invalid_hoy_reader source state
             (fun sid stateid =>
                let* c := values_getitem sid stateid hoy in ret (cell_total c))).
    intros sid stateid. apply only_IndexError_bind;
      [apply only_IndexError_values_getitem|intros c; apply only_IndexError_ret].
  - apply (never_invalid_hoy_reader source state
             (fun sid stateid =>
                let* c := values_getitem sid stateid hoy in ret (cell_direct c))).
    intros sid stateid. apply only_IndexError_bind;
      [apply only_IndexError_values_getitem|intros c; apply only_IndexError_ret].
  - apply (never_invalid_hoy_reader source state
             (fun sid stateid =>
                map_m (fun hoy =>
                         let* c := values_getitem sid stateid hoy in ret (cell_total c))
                  hs)).
    intros sid stateid. apply only_IndexError_map_m. intros h.
    apply only_IndexError_bind;
      [apply only_IndexError_values_getitem|intros c; apply only_IndexError_ret].
  - apply (never_invalid_hoy_reader source state
             (fun sid stateid =>
                map_m (fun hoy =>
                         let* c := values_getitem sid stateid hoy in ret (cell_direct c))
                  hs)).
    intros sid stateid. apply only_IndexError_map_m. intros h.
    apply only_IndexError_bind;
      [apply only_IndexError_values_getitem|intros c; apply only_IndexError_ret].
  - apply (never_invalid_hoy_reader source state
             (fun sid stateid => values_getitem sid stateid hoy)).
    intros sid stateid. apply only_IndexError_values_getitem.
  - apply (never_invalid_hoy_reader source state
             (fun sid stateid => map_m (values_getitem sid stateid) hs)).
    intros sid stateid. apply only_IndexError_map_m. intros h.
    apply only_IndexError_values_getitem.
Qed.

(** ** Readers and the store *)

(** The store of a one-hour series. *)
Lemma one_hour_eq h v :
  one_hour h v =
    mkPoint [(PNone, mk_entry 0 [PNone])] [[ {[h := CList (Some v) None]} ]] false _logic.
Proof.
  unfold one_hour, after, setValue, bind. simpl.
  unfold values_setslot, bind, values_getitem. simpl.
  rewrite lookup_empty. simpl.
  unfold values_setitem. simpl. unfold set_values. simpl.
  by rewrite insert_insert_eq, insert_empty.
Qed.

Lemma hoys_one_hour h v : hoys (one_hour h v) = (Ok [h], one_hour h v).
Proof.
  rewrite one_hour_eq. unfold hoys, bind. simpl.
  unfold sorted_keys. by rewrite map_to_list_singleton.
Qed.

(** C4 (the code departs from the claim).  Reading hour 99 of
    [one_sample] changes the store: the hour becomes a key of the series,
    and [hoys] is [[1; 99]] afterwards where it was [[1]]; so for [value],
    [directValue], [values], [coupledValue] and [combinedValueById].  On
    [uneven_hours] the second series has no hour 0; [daylightAutonomy],
    [usefulDaylightIlluminance] and [blindsState] return a result and leave
    hour 0 as a new key of that series.  On a one-hour series, reading any
    other hour with [value] stores the default sample under that hour. *)
Theorem C4_reader_adds_hour_key :
  (hour_keys one_sample = [[[1]]] ∧
   outcome hoys one_sample = Ok [1] ∧
   outcome hoys (after (value 99 PNone PNone) one_sample) = Ok [1; 99] ∧
   hour_keys (after (value 99 PNone PNone) one_sample) = [[[1; 99]]] ∧
   hour_keys (after (directValue 99 PNone PNone) one_sample) = [[[1; 99]]] ∧
   hour_keys (after (values [99] PNone PNone) one_sample) = [[[1; 99]]] ∧
   hour_keys (after (coupledValue 99 PNone PNone) one_sample) = [[[1; 99]]] ∧
   hour_keys (after (combinedValueById 99 None) one_sample) = [[[1; 99]]]) ∧
  (hour_keys uneven_hours = [[[0]]; [[1]]] ∧
   outcome (daylightAutonomy None None None) uneven_hours = Ok (0%Q, (0 # 300)%Q) ∧
   hour_keys (after (daylightAutonomy None None None) uneven_hours) = [[[0]]; [[0; 1]]] ∧
   hour_keys (after (usefulDaylightIlluminance None None None) uneven_hours)
     = [[[0]]; [[0; 1]]] ∧
   outcome (blindsState None None) uneven_hours
     = Ok ([[PInt 0; PInt 0]], mk_selection [0] [Some 0%Q] [None] [0]) ∧
   hour_keys (after (blindsState None None) uneven_hours) = [[[0]]; [[0; 1]]]) ∧
  (∀ h v h', h' = h ∨
     (stored (one_hour h v) 0 0 h' = None ∧
      outcome (value h' PNone PNone) (one_hour h v) = Ok None ∧
      stored (after (value h' PNone PNone) (one_hour h v)) 0 0 h' = Some double)).
Proof.
  split; [by_evaluation|]. split; [by_evaluation|].
  intros h v h'. destruct (decide (h' = h)) as [->|Hne]; [by left|right].
  rewrite one_hour_eq.
  assert (Hs : stored (mkPoint [(PNone, mk_entry 0 [PNone])]
                         [[ {[h := CList (Some v) None]} ]] false _logic) 0 0 h' = None).
  { unfold stored, series. simpl. by apply lookup_singleton_ne. }
  split; [done|].
  unfold stored, series in Hs. simpl in Hs.
  unfold outcome, after, stored, series, value, bind, try_except, bind, values_getitem.
  simpl. rewrite Hs. simpl. split; [done|]. by rewrite lookup_insert_eq.
Qed.

(** ** The occupancy schedule and the hour count *)

Lemma num_eq_plus_0 v q : num_eq (0 + v) q = num_eq v q.
Proof.
  unfold num_eq. destruct (Qeq_bool v q) eqn:E.
  - apply Qeq_bool_iff. rewrite Qplus_0_l. by apply Qeq_bool_iff.
  - apply not_true_is_false. intros H. apply Qeq_bool_iff in H.
    rewrite Qplus_0_l in H. apply Qeq_bool_iff in H. congruence.
Qed.

(** What the reducers read on a one-hour series at hour 0. *)
Lemma metric_inputs_one_hour v :
  metric_inputs None None (one_hour 0 v)
  = (Ok ([0], [0%Q], [(0 + v)%Q]), one_hour 0 v).
Proof.
  unfold metric_inputs, bind. rewrite hoys_one_hour.
  rewrite one_hour_eq. reflexivity.
Qed.

(** C2 (the code departs from the claim).  [one_hour 0 300] has the single
    hour 0, with total 300, and no schedule is given.  The default schedule
    is the set of hours [{0}] and the loop looks the value 300 up in it: the
    hour is dropped, the in-schedule count ends at 0 where the store has 1
    hour, and each of the three reducers stops on the division.  So it is
    for every value of hour 0 that is not the number 0 itself. *)
Theorem C2_default_schedule_filters_values :
  (outcome (metric_inputs None None) (one_hour 0 300) = Ok ([0], [0%Q], [300%Q]) ∧
   da_loop 300 [0%Q] [300%Q] (mk_da 0 0) 1 = (mk_da 0 0, 0) ∧
   udi_loop 100 2000 [0%Q] [300%Q] (mk_udi 0 0 0) 1 = (mk_udi 0 0 0, 0) ∧
   annual_loop 300 100 2000 [0%Q] [300%Q] (mk_da 0 0) (mk_udi 0 0 0) 1
     = (mk_da 0 0, mk_udi 0 0 0, 0) ∧
   outcome (daylightAutonomy None None None) (one_hour 0 300) = Raise ZeroDivisionError ∧
   outcome (usefulDaylightIlluminance None None None) (one_hour 0 300)
     = Raise ZeroDivisionError ∧
   outcome (annualMetrics None None None None) (one_hour 0 300)
     = Raise ZeroDivisionError) ∧
  (∀ v, num_eq v 0 = true ∨
     (in_schedule_count [0%Q] [(0 + v)%Q] [0] = 0 ∧
      outcome (daylightAutonomy None None None) (one_hour 0 v) = Raise ZeroDivisionError ∧
      outcome (usefulDaylightIlluminance None None None) (one_hour 0 v)
        = Raise ZeroDivisionError ∧
      outcome (annualMetrics None None None None) (one_hour 0 v)
        = Raise ZeroDivisionError)).
Proof.
  split; [by_evaluation|].
  intros v. destruct (num_eq v 0) eqn:Hv; [by left|right].
  assert (Hin : in_schedule [0%Q] (0 + v)%Q = false).
  { unfold in_schedule. simpl. by rewrite num_eq_plus_0, Hv. }
  repeat split.
  - unfold in_schedule_count. rewrite filter_cons, decide_True by done. reflexivity.
  - unfold outcome, daylightAutonomy, bind. rewrite metric_inputs_one_hour.
    cbn -[in_schedule Qplus]. rewrite Hin. reflexivity.
  - unfold outcome, usefulDaylightIlluminance, bind. simpl.
    rewrite metric_inputs_one_hour. cbn -[in_schedule Qplus]. rewrite Hin. reflexivity.
  - unfold outcome, annualMetrics, bind. simpl.
    rewrite metric_inputs_one_hour. cbn -[in_schedule Qplus]. rewrite Hin. reflexivity.
Qed.

(** ** Daylight autonomy at the threshold *)

(** An in-schedule value at or above the threshold adds one to both
    counters. *)
Lemma da_step_reached thr v c :
  num_le thr v = true → da_step thr v c = mk_da (DA c + 1) (CDA c + 1)%Q.
Proof. intros H. unfold da_step. by rewrite H. Qed.

(** C3 (the code departs from the claim).  On a one-hour series whose
    value is 300, [daylightAutonomy(threshold=300)] returns nothing,
    whatever the hour is: at hour 0 the value 300 is not in the default
    schedule [{0}] and the division by the empty hour count raises; the
    same at hour -1; at any other hour the row of the hour is looked up at
    index [hoy] of a one-row matrix.  With the schedule [{300}] given, the
    result at hour 0 is [(1, 1)]. *)
Theorem C3_threshold_example_raises :
  (∀ h, ∃ e, outcome (daylightAutonomy (Some 300%Q) None None) (one_hour h 300) = Raise e) ∧
  outcome (daylightAutonomy (Some 300%Q) None None) (one_hour 0 300)
    = Raise ZeroDivisionError ∧
  outcome (daylightAutonomy (Some 300%Q) None None) (one_hour 7 300) = Raise IndexError ∧
  outcome (daylightAutonomy (Some 300%Q) None (Some [300%Q])) (one_hour 0 300)
    = Ok (1%Q, 1%Q).
Proof.
  split; [|by_evaluation].
  intros h.
  destruct (decide (h = 0)) as [->|H0]; [eexists; vm_compute; reflexivity|].
  destruct (decide (h = -1)) as [->|H1]; [eexists; vm_compute; reflexivity|].
  exists IndexError.
  unfold outcome, daylightAutonomy, metric_inputs, bind.
  rewrite hoys_one_hour.
  unfold tuple_of, combinedValuesById. simpl.
  unfold py_getitem, py_index. simpl.
  rewrite !decide_False by lia. reflexivity.
Qed.

(** ** Division by an empty hour count *)

Lemma da_loop_count thr schedule values c n :
  (da_loop thr schedule values c n).2
  = n - Z.of_nat (length (filter (fun v => in_schedule schedule v = false) values)).
Proof. revert c n. loop_count schedule values IH. Qed.

Lemma udi_loop_count lo hi schedule values c n :
  (udi_loop lo hi schedule values c n).2
  = n - Z.of_nat (length (filter (fun v => in_schedule schedule v = false) values)).
Proof. revert c n. loop_count schedule values IH. Qed.

Lemma annual_loop_count thr lo hi schedule values c u n :
  (annual_loop thr lo hi schedule values c u n).2
  = n - Z.of_nat (length (filter (fun v => in_schedule schedule v = false) values)).
Proof. revert c u n. loop_count schedule values IH. Qed.

(** C9 (counterexample).  The empty store has no hour, the in-schedule
    count is 0, and [daylightAutonomy] and [usefulDaylightIlluminance]
    raise [ZeroDivisionError], which is no [ValueError]. *)
Lemma C9_counterexample :
  outcome (metric_inputs None None) init = Ok ([], [], []) ∧
  in_schedule_count [] [] [] = 0 ∧
  outcome (daylightAutonomy None None None) init = Raise ZeroDivisionError ∧
  outcome (usefulDaylightIlluminance None None None) init = Raise ZeroDivisionError ∧
  outcome (annualMetrics None None None None) init = Raise ZeroDivisionError ∧
  ¬ (∃ m, outcome (daylightAutonomy None None None) init = Raise (ValueError m)).
Proof.
  repeat split; try (vm_compute; reflexivity).
  intros [m Hm]. vm_compute in Hm. discriminate.
Qed.

(** C9 (amended).  When the hours, schedule and values are read without
    error and the in-schedule hour count is zero, each of the three ratio
    metrics raises [ZeroDivisionError], the failure of its first division,
    and leaves the store as the reading left it. *)
Theorem C9_zero_count_raises_division_error
    (thr : option Q) (bounds : option (Q * Q))
    (ids : option (list (list pyval))) (occ : option (list Q))
    (s s' : AnalysisPoint) (hours : list Z) (schedule values : list Q) :
  metric_inputs ids occ s = (Ok (hours, schedule, values), s') →
  in_schedule_count schedule values hours = 0 →
  daylightAutonomy thr ids occ s = (Raise ZeroDivisionError, s') ∧
  usefulDaylightIlluminance bounds ids occ s = (Raise ZeroDivisionError, s') ∧
  annualMetrics thr bounds ids occ s = (Raise ZeroDivisionError, s').
Proof.
  intros Hin Hz. unfold in_schedule_count in Hz.
  repeat split.
  - unfold daylightAutonomy, bind. rewrite Hin.
    destruct (da_loop _ _ _ _ _) as [c n] eqn:E.
    pose proof (da_loop_count (num_or thr 300) schedule values (mk_da 0 0)
                  (Z.of_nat (length hours))) as Hc.
    rewrite E in Hc. simpl in Hc. rewrite Hz in Hc. subst n. reflexivity.
  - unfold usefulDaylightIlluminance. destruct (default _ bounds) as [lo hi].
    unfold bind. rewrite Hin.
    destruct (udi_loop _ _ _ _ _ _) as [c n] eqn:E.
    pose proof (udi_loop_count lo hi schedule values (mk_udi 0 0 0)
                  (Z.of_nat (length hours))) as Hc.
    rewrite E in Hc. simpl in Hc. rewrite Hz in Hc. subst n. reflexivity.
  - unfold annualMetrics. destruct (default _ bounds) as [lo hi].
    unfold bind. rewrite Hin.
    destruct (annual_loop _ _ _ _ _ _ _ _) as [[c u] n] eqn:E.
    pose proof (annual_loop_count (num_or thr 300) lo hi schedule values (mk_da 0 0)
                  (mk_udi 0 0 0) (Z.of_nat (length hours))) as Hc.
    rewrite E in Hc. simpl in Hc. rewrite Hz in Hc. subst n. reflexivity.
Qed.

(** The amended C9 on [one_hour 0 300], whose only value is outside the
    default schedule. *)
Lemma C9_zero_count_witness :
  daylightAutonomy None None None (one_hour 0 300)
    = (Raise ZeroDivisionError, one_hour 0 300) ∧
  usefulDaylightIlluminance None None None (one_hour 0 300)
    = (Raise ZeroDivisionError, one_hour 0 300) ∧
  annualMetrics None None None None (one_hour 0 300)
    = (Raise ZeroDivisionError, one_hour 0 300).
Proof.
  apply (C9_zero_count_raises_division_error None None None None
           (one_hour 0 300) (one_hour 0 300) [0] [0%Q] [300%Q]).
  - vm_compute. reflexivity.
  - vm_compute. reflexivity.
Defined.

(** ** Rows and hours of the combined values *)

(** C6 (the code departs from the claim).  With hours [[1; 0]] and the
    matrix [[[0]; [-1]]] on [two_hours], the first pair the generator yields
    is built from row 1 (the source removed) and the second from row 0: the
    row is taken at index [hoy], not at the position of the hour.  Row 0 at
    hour 1 gives [(20, None)] and row 1 at hour 0 gives [(0, None)], which
    is what the claim expects in that order.  With a single hour other
    than 0 and -1 (5, say) and a one-row matrix nothing is yielded and
    [IndexError] is raised. *)
Theorem C6_row_is_taken_at_hour_index :
  (combinedValuesById (Some [1; 0]) (Some [[PInt 0]; [PInt (-1)]]) two_hours).1
    = ([(0%Q, None); (10%Q, None)], None) ∧
  outcome (combinedValueById 1 (Some [PInt 0])) two_hours = Ok (20%Q, None) ∧
  outcome (combinedValueById 0 (Some [PInt (-1)])) two_hours = Ok (0%Q, None) ∧
  (combinedValuesById (Some [5]) (Some [[PInt 0]]) (one_hour 5 10)).1
    = ([], Some IndexError) ∧
  (∀ h v, h = 0 ∨ h = -1 ∨
     (combinedValuesById (Some [h]) (Some [[PInt 0]]) (one_hour h v)).1
       = ([], Some IndexError)).
Proof.
  split; [by_evaluation|]. split; [by_evaluation|]. split; [by_evaluation|].
  split; [by_evaluation|].
  intros h v.
  destruct (decide (h = 0)) as [->|H0]; [by left|].
  destruct (decide (h = -1)) as [->|H1]; [by right; left|].
  right; right.
  unfold combinedValuesById. simpl.
  unfold py_getitem, py_index. simpl.
  rewrite !decide_False by lia. reflexivity.
Qed.

(** ** The fall-back of the selection *)

Lemma longestStateIds_one_hour h v lg :
  longestStateIds (set_logic lg (one_hour h v)) = (Ok [[0]], set_logic lg (one_hour h v)).
Proof. rewrite one_hour_eq. reflexivity. Qed.

Lemma hoys_one_hour_logic h v lg :
  hoys (set_logic lg (one_hour h v)) = (Ok [h], set_logic lg (one_hour h v)).
Proof.
  rewrite one_hour_eq. unfold hoys, bind. simpl.
  unfold sorted_keys. by rewrite map_to_list_singleton.
Qed.

(** C5 (the code departs from the claim).  Under a rule that is true for
    every candidate, [blindsState] on a store whose only hour is [h] raises
    [IndexError] unless [h] is 0 or -1: the per-hour lists are indexed by
    the hour itself.  On [bright_hours], whose hours are 0 and 1, it does
    report the flag -1 with the last candidate for both hours. *)
Theorem C5_fallback_raises_off_position :
  (∀ h v, h = 0 ∨ h = -1 ∨
     outcome (blindsState None None) (set_logic always (one_hour h v)) = Raise IndexError) ∧
  outcome (blindsState None None) (set_logic always (one_hour 5 3000)) = Raise IndexError ∧
  outcome (blindsState None None) (one_hour 5 3000) = Raise IndexError ∧
  outcome (blindsState None None) bright_hours
    = Ok ([[PInt 0]; [PInt 0]],
          mk_selection [0; 0] [Some 3000%Q; Some 3000%Q] [None; None] [-1; -1]).
Proof.
  split; [|by_evaluation].
  intros h v.
  destruct (decide (h = 0)) as [->|H0]; [by left|].
  destruct (decide (h = -1)) as [->|H1]; [by right; left|].
  right; right.
  unfold outcome, blindsState, bind.
  rewrite hoys_one_hour_logic.
  unfold candidates, bind. rewrite longestStateIds_one_hour. simpl.
  unfold tuple_of, combinedValuesById. simpl.
  unfold py_getitem, py_index. simpl.
  rewrite !decide_False by lia. reflexivity.
Qed.

(** ** The direct part of a combined value *)

(** The direct part keeps its kind through the accumulation. *)
Lemma combine_sources_direct hoy sid ids acc s total direct :
  outcome (combine_sources hoy sid ids acc) s = Ok (total, direct) →
  direct = None ↔ acc.2 = None.
Proof.
  unfold outcome. revert sid acc s.
  induction ids as [|stateid r IH]; intros sid acc s; simpl.
  - unfold ret. simpl. intros [= ->]. reflexivity.
  - unfold bind. destruct (source_sample hoy sid stateid s) as [[td|e] s1]; [|discriminate].
    intros H. apply IH in H. rewrite H.
    unfold add_sample.
    destruct acc as [a [b|]], td as [[t|] [d|]]; simpl; intuition congruence.
Qed.

(** C7 (counterexample).  In [partial_direct] direct values are loaded and
    the sample of hour 1 has a total but no direct part: the accumulation
    of [combinedValueById] does attempt to add the absent value, and the
    direct part it reports is the number 0, not [None]. *)
Lemma C7_counterexample :
  _isDirectLoaded partial_direct = true ∧
  absent_direct_added 1 0 [PInt 0] partial_direct = true ∧
  outcome (combinedValueById 1 (Some [PInt 0])) partial_direct = Ok (5%Q, Some 0%Q) ∧
  ¬ (∀ total direct,
       outcome (combinedValueById 1 (Some [PInt 0])) partial_direct = Ok (total, direct) →
       direct = None ↔
         (_isDirectLoaded partial_direct = false ∨
          absent_direct_added 1 0 [PInt 0] partial_direct = true)).
Proof.
  repeat split; try (vm_compute; reflexivity).
  intros H. specialize (H 5%Q (Some 0%Q)).
  destruct H as [_ H]; [vm_compute; reflexivity|].
  discriminate H. right. vm_compute. reflexivity.
Qed.

(** ** The longest combination of states *)

Lemma foldl_max_bounds (r : list Z) (x : Z) :
  x ≤ foldl Z.max x r ∧ (∀ y, y ∈ r → y ≤ foldl Z.max x r) ∧
  (foldl Z.max x r = x ∨ foldl Z.max x r ∈ r).
Proof.
  revert x. induction r as [|y r IH]; intros x; simpl.
  - split; [lia|]. split; [|by left]. intros y Hy. by apply elem_of_nil in Hy.
  - destruct (IH (Z.max x y)) as (Hx & Hr & Hm). split; [lia|]. split.
    + intros z Hz. apply elem_of_cons in Hz as [->|Hz]; [lia|by apply Hr].
    + destruct Hm as [Hm|Hm].
      * rewrite Hm. destruct (Z.max_spec x y) as [[_ ->]|[_ ->]].
        -- right. apply elem_of_cons. by left.
        -- by left.
      * right. apply elem_of_cons. by right.
Qed.

Lemma py_max_spec (l : list Z) :
  l ≠ [] →
  ∃ m, py_max l = Some m ∧ (∀ y, y ∈ l → y ≤ m) ∧ m ∈ l.
Proof.
  destruct l as [|x r]; [done|]. intros _. exists (foldl Z.max x r).
  destruct (foldl_max_bounds r x) as (Hx & Hr & Hm).
  split; [reflexivity|]. split.
  - intros y Hy. apply elem_of_cons in Hy as [->|Hy]; [done|by apply Hr].
  - apply elem_of_cons. destruct Hm as [->|Hm]; [by left|by right].
Qed.

Lemma py_range_length n : 0 ≤ n → Z.of_nat (length (py_range n)) = n.
Proof. intros Hn. unfold py_range. rewrite length_map, length_seq. lia. Qed.

Lemma py_range_lookup n (i : nat) :
  (i < length (py_range n))%nat → py_range n !! i = Some (Z.of_nat i).
Proof.
  unfold py_range. rewrite length_map, length_seq. intros Hi.
  rewrite list_lookup_fmap, lookup_seq_lt by done. reflexivity.
Qed.

Lemma iteritems_Permutation d : iteritems d ≡ₚ d.
Proof. unfold iteritems. apply merge_sort_Permutation. Qed.

Lemma iteritems_elem_of d kv : kv ∈ iteritems d ↔ kv ∈ d.
Proof. by rewrite iteritems_Permutation. Qed.

Lemma iteritems_nil_inv d : iteritems d = [] → d = [].
Proof.
  intros H. apply Permutation_nil_r. rewrite <- H. symmetry. apply iteritems_Permutation.
Qed.

(** C8.  The vectors of [longestStateIds] follow the iteration order of the
    dict of sources, not the ids of the sources.  On every store with a
    source the sequence has the length of the highest state id plus one,
    and the vector at index [i] holds [min(i, stateCount - 1)] for the
    sources in one order for all vectors, which is the order in which
    [iteritems] yields them wherever the hashes of the keys are known;
    without a source [max] raises.  For the sources 'A', 'B', 'C', first written in this
    order with 2, 4 and 1 states, the dict yields 'A', 'C', 'B': the
    sequence has length 4 but ends with [(1, 0, 3)], not [(1, 3, 0)], so that
    the position of 'C' (id 2) holds the state of 'B' (id 1).  Taken by
    position, as [combinedValueById] does, that vector asks for the fourth
    state of 'C', and [combinedValueById] and [blindsState] raise
    'Invalid input'. *)
Theorem C8_vectors_follow_dict_order :
  (∀ s : AnalysisPoint,
     match _sources s with
     | [] => longestStateIds s = (Raise (ValueError EmptyMax), s)
     | _ :: _ =>
         ∃ combs m items,
           longestStateIds s = (Ok combs, s) ∧
           items ≡ₚ _sources s ∧
           (order_known (_sources s) → items = iteritems (_sources s)) ∧
           (∀ kv, kv ∈ _sources s → last_state_id kv ≤ m) ∧
           (∃ kv, kv ∈ _sources s ∧ last_state_id kv = m) ∧
           Z.of_nat (length combs) = m + 1 ∧
           ∀ i : nat, (i < length combs)%nat →
             combs !! i
             = Some (map (fun kv => Z.min (Z.of_nat i) (last_state_id kv)) items)
     end) ∧
  Forall hash_known (_sources three_sources).*1 ∧
  (_sources three_sources).*1 = [PStr "A"; PStr "B"; PStr "C"] ∧
  map (fun kv => src_id kv.2) (_sources three_sources) = [0; 1; 2]%nat ∧
  map last_state_id (_sources three_sources) = [1; 3; 0] ∧
  (iteritems (_sources three_sources)).*1 = [PStr "A"; PStr "C"; PStr "B"] ∧
  map (fun kv => src_id kv.2) (iteritems (_sources three_sources)) = [0; 2; 1]%nat ∧
  outcome longestStateIds three_sources = Ok [[0; 0; 0]; [1; 0; 1]; [1; 0; 2]; [1; 0; 3]] ∧
  (outcome_value (outcome longestStateIds three_sources) ≫= last) = Some [1; 0; 3] ∧
  (outcome_value (outcome longestStateIds three_sources) ≫= last) ≠ Some [1; 3; 0] ∧
  outcome (combinedValueById 0 (Some (map PInt [1; 0; 3]))) three_sources
    = Raise (ValueError InvalidInput) ∧
  outcome (combinedValueById 0 (Some (map PInt [1; 3; 0]))) three_sources
    = Ok (3%Q, None) ∧
  outcome (blindsState None None) three_sources = Raise (ValueError InvalidInput).
Proof.
  split.
  - intros s. destruct (_sources s) as [|kv0 d] eqn:Hs.
    + unfold longestStateIds, bind, get. simpl. rewrite Hs. reflexivity.
    + rewrite <- Hs.
      set (sts := map last_state_id (iteritems (_sources s))).
      destruct (py_max_spec sts) as (m & Hm & Hle & Hin).
      { subst sts. intros H. apply fmap_nil_inv, iteritems_nil_inv in H. congruence. }
      assert (Hm0 : -1 ≤ m).
      { subst sts. apply list_elem_of_fmap in Hin as (kv & -> & _).
        unfold last_state_id. lia. }
      exists (map (fun i => map (fun st => Z.min st i) sts) (py_range (m + 1))), m,
        (iteritems (_sources s)).
      split; [|split; [apply iteritems_Permutation|split; [done|split; [|split; [|split]]]]].
      * unfold longestStateIds, bind, get. cbn [fst snd].
        subst sts. unfold last_state_id in Hm.
        change (py_max (map (fun kv => Z.of_nat (length (src_state kv.2)) - 1)
                          (iteritems (_sources s))) = Some m) in Hm.
        unfold of_option. rewrite Hm. reflexivity.
      * intros kv Hkv. apply Hle. subst sts. apply list_elem_of_fmap.
        exists kv. split; [done|]. by apply iteritems_elem_of.
      * subst sts. apply list_elem_of_fmap in Hin as (kv & -> & Hkv).
        exists kv. split; [by apply iteritems_elem_of|done].
      * rewrite length_map. apply py_range_length. lia.
      * intros i Hi. rewrite length_map in Hi.
        rewrite list_lookup_fmap, (py_range_lookup _ _ Hi). simpl.
        subst sts. rewrite <- list_fmap_compose. f_equal.
        apply list_fmap_ext. intros ? kv _. simpl. lia.
  - assert (Hkeys : (_sources three_sources).*1 = [PStr "A"; PStr "B"; PStr "C"])
      by (vm_compute; reflexivity).
    split; [rewrite Hkeys; repeat constructor|].
    do 10 (split; [vm_compute; first [reflexivity|discriminate]|]).
    vm_compute. reflexivity.
Qed.

(** ** Sources, states and their ids *)

Lemma py_index_nat (n i : nat) : (i < n)%nat → py_index n (Z.of_nat i) = Some i.
Proof.
  intros Hi. unfold py_index. rewrite decide_True by lia. by rewrite Nat2Z.id.
Qed.

Lemma values_series_nat v (i j : nat) row d :
  v !! i = Some row → row !! j = Some d →
  values_series v (Z.of_nat i) (Z.of_nat j) = Some (i, j, row, d).
Proof.
  intros Hi Hj. unfold values_series.
  rewrite py_index_nat by (by eapply lookup_lt_Some).
  rewrite Hi. rewrite py_index_nat by (by eapply lookup_lt_Some).
  by rewrite Hj.
Qed.

Lemma dict_get_elem d k e : dict_get d k = Some e → k ∈ d.*1.
Proof.
  induction d as [|[k' e'] d IH]; simpl; [done|].
  destruct (decide (k = k')) as [->|Hne]; intros H.
  - apply elem_of_cons. by left.
  - apply elem_of_cons. right. by apply IH.
Qed.

Lemma dict_get_is_Some d k : k ∈ d.*1 → is_Some (dict_get d k).
Proof.
  induction d as [|[k' e'] d IH]; simpl; intros Hk.
  - by apply elem_of_nil in Hk.
  - destruct (decide (k = k')) as [->|Hne]; [eauto|].
    apply elem_of_cons in Hk as [?|Hk]; [done|by apply IH].
Qed.

Lemma dict_get_app_new d k e : k ∉ d.*1 → dict_get (d ++ [(k, e)]) k = Some e.
Proof.
  induction d as [|[k' e'] d IH]; simpl; intros Hk.
  - by rewrite decide_True.
  - apply not_elem_of_cons in Hk as [Hne Hk].
    rewrite decide_False by done. by apply IH.
Qed.

(** A key is found at the first position that holds it, and appending a
    state changes the entry at that position only. *)
Lemma dict_get_position d k e :
  dict_get d k = Some e →
  ∃ p, d !! p = Some (k, e) ∧
       ∀ state, dict_append_state d k state
               = <[p := (k, mk_entry (src_id e) (src_state e ++ [state]))]> d.
Proof.
  induction d as [|[k' e'] d IH]; simpl; [done|].
  destruct (decide (k = k')) as [->|Hne]; intros H.
  - injection H as ->. by exists 0%nat.
  - destruct (IH H) as (p & Hp & Happ). exists (S p). split; [done|].
    intros state. simpl. by rewrite Happ.
Qed.

Lemma dict_get_append_state d k e state :
  dict_get d k = Some e →
  dict_get (dict_append_state d k state) k
  = Some (mk_entry (src_id e) (src_state e ++ [state])).
Proof.
  induction d as [|[k' e'] d IH]; simpl; [done|].
  destruct (decide (k = k')) as [->|Hne]; intros H; simpl.
  - injection H as ->. by rewrite decide_True.
  - rewrite decide_False by done. by apply IH.
Qed.

Lemma list_index_lt {A} `{EqDecision A} (x : A) l j :
  list_index x l = Some j → (j < length l)%nat ∧ x ∈ l.
Proof.
  revert j. induction l as [|y l IH]; intros j; simpl; [done|].
  destruct (decide (x = y)) as [->|Hne].
  - intros [= <-]. split; [lia|]. apply elem_of_cons. by left.
  - destruct (list_index x l) as [j'|]; simpl; [|done].
    intros [= <-]. destruct (IH j' eq_refl) as [Hlt Hin].
    split; [lia|]. apply elem_of_cons. by right.
Qed.

Lemma list_index_is_Some {A} `{EqDecision A} (x : A) l :
  x ∈ l → is_Some (list_index x l).
Proof.
  induction l as [|y l IH]; simpl; intros Hx.
  - by apply elem_of_nil in Hx.
  - destruct (decide (x = y)) as [->|Hne]; [eauto|].
    apply elem_of_cons in Hx as [?|Hx]; [done|].
    destruct (IH Hx) as [j ->]. simpl. eauto.
Qed.

Lemma list_index_app_new {A} `{EqDecision A} (x : A) l :
  x ∉ l → list_index x (l ++ [x]) = Some (length l).
Proof.
  induction l as [|y l IH]; simpl; intros Hx.
  - by rewrite decide_True.
  - apply not_elem_of_cons in Hx as [Hne Hx].
    rewrite decide_False by done. by rewrite IH.
Qed.

(** ** [_createDataStructure] keeps the invariant *)

Lemma wf_init : wf init.
Proof. split; [reflexivity|]. intros i name e H. by destruct i. Qed.

Lemma create_known_source source state s :
  source ∈ (_sources s).*1 →
  _createDataStructure source state s = create_state source state s.
Proof.
  intros Hin. unfold _createDataStructure, create_state, bind at 1 2. simpl.
  by rewrite decide_True.
Qed.

Lemma create_new_source source state s :
  source ∉ (_sources s).*1 →
  _createDataStructure source state s = create_state source state (with_source source s).
Proof.
  intros Hin. unfold _createDataStructure, create_state, bind at 1 2. simpl.
  by rewrite decide_False.
Qed.

Lemma wf_with_source source s : wf s → wf (with_source source s).
Proof.
  intros [Hlen Hent]. split; simpl.
  - rewrite !length_app, Hlen. reflexivity.
  - intros i name e Hi.
    destruct (decide (i < length (_sources s))%nat) as [Hlt|Hge].
    + rewrite lookup_app_l in Hi by done.
      destruct (Hent i name e Hi) as (Hid & row & Hrow & Hrl).
      split; [done|]. exists row. split; [|done].
      rewrite lookup_app_l by lia. done.
    + rewrite lookup_app_r in Hi by lia.
      destruct (i - length (_sources s))%nat as [|k] eqn:Hk; simpl in Hi; [|by destruct k].
      injection Hi as <- <-. simpl. rewrite length_fmap.
      assert (i = length (_sources s)) as -> by lia.
      split; [done|]. exists []. split; [|done].
      rewrite lookup_app_r by lia. rewrite Hlen, Nat.sub_diag. done.
Qed.

(** On a store that knows the source, the state is found or appended, and
    the ids returned are those of a series that exists. *)
Lemma create_state_spec source state s e :
  wf s → dict_get (_sources s) source = Some e →
  ∃ s1 i j dd,
    create_state source state s = (Ok (Z.of_nat i, Z.of_nat j), s1) ∧
    wf s1 ∧ resolves s1 source state i j ∧ series s1 i j = Some dd ∧
    _isDirectLoaded s1 = _isDirectLoaded s.
Proof.
  intros [Hlen Hent] Hget.
  destruct (dict_get_position _ _ _ Hget) as (p & Hp & Happ).
  destruct (Hent p source e Hp) as (Hid & row & Hrow & Hrl).
  unfold create_state, bind at 1, sources_getitem, bind at 1. simpl.
  rewrite Hget. simpl.
  destruct (decide (state ∈ src_state e)) as [Hin|Hnin].
  - destruct (list_index_is_Some _ _ Hin) as [j Hj].
    destruct (list_index_lt _ _ _ Hj) as [Hlt _].
    destruct (lookup_lt_is_Some_2 row j) as [dd Hdd]; [lia|].
    exists s, p, j, dd.
    unfold bind. simpl. rewrite Hget. simpl. rewrite Hj. simpl. rewrite Hid.
    split; [done|]. split; [by split|]. split; [by exists e|].
    split; [|done]. unfold series. by rewrite Hrow.
  - set (e' := mk_entry (src_id e) (src_state e ++ [state])).
    set (s1 := set_values (<[p := row ++ [∅]]> (_values s))
                 (set_sources (dict_append_state (_sources s) source state) s)).
    exists s1, p, (length (src_state e)), ∅.
    assert (Hget1 : dict_get (dict_append_state (_sources s) source state) source
                    = Some e').
    { by apply dict_get_append_state. }
    split.
    { unfold bind at 1 2, modify. simpl.
      unfold values_append_state. simpl. rewrite Hid.
      rewrite py_index_nat by (by eapply lookup_lt_Some). rewrite Hrow.
      fold s1. unfold bind. simpl. rewrite Hget1. simpl.
      rewrite list_index_app_new by done. done. }
    split; [|split; [|split]].
    + split; subst s1; simpl.
      * rewrite length_insert, Happ, length_insert. done.
      * rewrite Happ. intros i name e0 Hi.
        destruct (decide (i = p)) as [->|Hne].
        -- rewrite list_lookup_insert_eq in Hi by (by eapply lookup_lt_Some).
           injection Hi as <- <-. simpl. split; [done|].
           exists (row ++ [∅]). split.
           ++ rewrite list_lookup_insert_eq; [done|by eapply lookup_lt_Some].
           ++ rewrite !length_app, Hrl. done.
        -- rewrite list_lookup_insert_ne in Hi by done.
           destruct (Hent i name e0 Hi) as (Hid0 & row0 & Hrow0 & Hrl0).
           split; [done|]. exists row0. split; [|done].
           by rewrite list_lookup_insert_ne.
    + exists e'. split; [done|]. split; [done|].
      simpl. by apply list_index_app_new.
    + unfold series. subst s1. simpl.
      rewrite list_lookup_insert_eq by (by eapply lookup_lt_Some).
      rewrite lookup_app_r by lia. rewrite Hrl, Nat.sub_diag. done.
    + done.
Qed.

(** [_createDataStructure] on a store that satisfies the invariant. *)
Lemma create_spec source state s :
  wf s →
  ∃ s1 i j dd,
    _createDataStructure source state s = (Ok (Z.of_nat i, Z.of_nat j), s1) ∧
    wf s1 ∧ resolves s1 source state i j ∧ series s1 i j = Some dd ∧
    _isDirectLoaded s1 = _isDirectLoaded s.
Proof.
  intros Hwf. destruct (decide (source ∈ (_sources s).*1)) as [Hin|Hnin].
  - rewrite create_known_source by done.
    destruct (dict_get_is_Some _ _ Hin) as [e He]. by eapply create_state_spec.
  - rewrite create_new_source by done.
    eapply (create_state_spec source state (with_source source s)).
    + by apply wf_with_source.
    + simpl. by apply dict_get_app_new.
Qed.

(** A source and state that are known are created again as they are. *)
Lemma create_existing source state s i j :
  resolves s source state i j →
  _createDataStructure source state s = (Ok (Z.of_nat i, Z.of_nat j), s).
Proof.
  intros (e & Hget & Hid & Hj).
  rewrite create_known_source by (by eapply dict_get_elem).
  unfold create_state, bind at 1, sources_getitem, bind at 1. simpl.
  rewrite Hget. simpl.
  destruct (list_index_lt _ _ _ Hj) as [_ Hin].
  rewrite decide_True by done.
  unfold bind. simpl. rewrite Hget. simpl. rewrite Hj. simpl. by rewrite Hid.
Qed.

(** ** Writing and reading coupled values *)

Lemma resolves_ext s s' source state i j :
  _sources s' = _sources s → resolves s source state i j → resolves s' source state i j.
Proof. intros Heq. unfold resolves. by rewrite Heq. Qed.

Lemma wf_ext s s' :
  _sources s' = _sources s → _values s' = _values s → wf s → wf s'.
Proof.
  intros Hs Hv [Hlen Hent]. split.
  - by rewrite Hs, Hv.
  - rewrite Hs, Hv. apply Hent.
Qed.

Lemma series_Some s i j dd :
  series s i j = Some dd → ∃ row, _values s !! i = Some row ∧ row !! j = Some dd.
Proof. unfold series. destruct (_values s !! i) as [row|]; [eauto|done]. Qed.

(** Replacing a series by one of the same place keeps the invariant. *)
Lemma wf_set_series s i j row (d' : gmap Z cell) :
  _values s !! i = Some row → wf s →
  wf (set_values (<[i := <[j := d']> row]> (_values s)) s).
Proof.
  intros Hrow [Hlen Hent]. split; simpl.
  - by rewrite length_insert.
  - intros k name e Hk. destruct (Hent k name e Hk) as (Hid & row0 & Hrow0 & Hrl0).
    split; [done|]. destruct (decide (k = i)) as [->|Hne].
    + exists (<[j := d']> row). split.
      * rewrite list_lookup_insert_eq; [done|by eapply lookup_lt_Some].
      * rewrite length_insert. congruence.
    + exists row0. split; [|done]. by rewrite list_lookup_insert_ne.
Qed.

(** [self._values[i][j][hoy] = c] on a series that exists. *)
Lemma values_setitem_ok s i j dd hoy c :
  series s i j = Some dd →
  ∃ s', values_setitem (Z.of_nat i) (Z.of_nat j) hoy c s = (Ok tt, s') ∧
        _sources s' = _sources s ∧
        _isDirectLoaded s' = _isDirectLoaded s ∧
        series s' i j = Some (<[hoy := c]> dd) ∧
        (wf s → wf s').
Proof.
  intros Hser. destruct (series_Some _ _ _ _ Hser) as (row & Hrow & Hdd).
  eexists. split.
  { unfold values_setitem. rewrite (values_series_nat _ _ _ _ _ Hrow Hdd). reflexivity. }
  split; [done|]. split; [done|]. split.
  - unfold series. simpl.
    rewrite list_lookup_insert_eq by (by eapply lookup_lt_Some).
    rewrite list_lookup_insert_eq by (by eapply lookup_lt_Some). done.
  - by apply wf_set_series.
Qed.

(** One coupled write, once the ids of the series are known. *)
Lemma setCoupledValue_after_create source state s s1 i j dd hoy total direct :
  _createDataStructure source state s = (Ok (Z.of_nat i, Z.of_nat j), s1) →
  series s1 i j = Some dd →
  ∃ s', setCoupledValue [total; direct] hoy source state s = (Ok tt, s') ∧
        _sources s' = _sources s1 ∧
        _isDirectLoaded s' = true ∧
        series s' i j = Some (<[hoy := CTuple total direct]> dd) ∧
        (wf s1 → wf s').
Proof.
  intros Hc Hser.
  destruct (values_setitem_ok s1 i j dd hoy (CTuple total direct) Hser)
    as (s2 & Hset & Hsrc & _ & Hser2 & Hwf).
  exists (set_isDirectLoaded true s2). split.
  { unfold setCoupledValue, bind at 1. rewrite Hc. simpl.
    unfold bind at 1, try_except, bind. simpl. rewrite Hset. reflexivity. }
  split; [done|]. split; [done|]. split; [done|].
  intros H. apply (wf_ext s2); [done|done|by apply Hwf].
Qed.

Section CoupledSeries.

(** A source and a state, and the ids of their series. *)
Variables (source state : pyval) (i j : nat).

(** The triples written one by one to a series that exists. *)
Lemma write_coupled_known l :
  ∀ s dd,
    resolves s source state i j → series s i j = Some dd →
    ∃ s' dd',
      write_coupled l source state s = (Ok tt, s') ∧
      resolves s' source state i j ∧ series s' i j = Some dd' ∧
      ∀ hoy, dd' !! hoy = match last_written l hoy with
                          | Some (t, d) => Some (CTuple t d)
                          | None => dd !! hoy
                          end.
Proof.
  induction l as [|[[h t] d] r IH]; intros s dd Hres Hser.
  - exists s, dd. by repeat split.
  - destruct (setCoupledValue_after_create source state s s i j dd h t d)
      as (s1 & Hw & Hsrc & _ & Hser1 & _); [by apply create_existing|done|].
    destruct (IH s1 _ (resolves_ext _ _ _ _ _ _ Hsrc Hres) Hser1)
      as (s' & dd' & Hrest & Hres' & Hser' & Hcont).
    exists s', dd'. split.
    { unfold write_coupled in *. simpl. unfold bind. by rewrite Hw. }
    split; [done|]. split; [done|].
    intros hoy. rewrite Hcont. simpl.
    destruct (last_written r hoy) as [[t' d']|]; [done|].
    destruct (decide (h = hoy)) as [->|Hne].
    + by rewrite lookup_insert_eq.
    + by rewrite lookup_insert_ne.
Qed.

(** The loop of [setCoupledValues] on a series that exists. *)
Lemma coupled_loop_known l :
  ∀ s dd,
    series s i j = Some dd →
    ∃ s' dd',
      for_each (zip (map triple_hour l) (map triple_value l))
        (fun '(hoy, value) =>
           try_except
             (let* c := couple value in
              values_setitem (Z.of_nat i) (Z.of_nat j) hoy c)
             wrong_input) s
      = (Ok tt, s') ∧
      _sources s' = _sources s ∧ series s' i j = Some dd' ∧
      ∀ hoy, dd' !! hoy = match last_written l hoy with
                          | Some (t, d) => Some (CTuple t d)
                          | None => dd !! hoy
                          end.
Proof.
  induction l as [|[[h t] d] r IH]; intros s dd Hser.
  - exists s, dd. by repeat split.
  - destruct (values_setitem_ok s i j dd h (CTuple t d) Hser)
      as (s1 & Hset & Hsrc & _ & Hser1 & _).
    destruct (IH s1 _ Hser1) as (s' & dd' & Hrest & Hsrc' & Hser' & Hcont).
    exists s', dd'. split.
    { simpl. change (triple_value (h, t, d)) with [t; d].
      change (triple_hour (h, t, d)) with h.
      unfold bind at 1, try_except, bind at 1. simpl. rewrite Hset. exact Hrest. }
    split; [congruence|]. split; [done|].
    intros hoy. rewrite Hcont. simpl.
    destruct (last_written r hoy) as [[t' d']|]; [done|].
    destruct (decide (h = hoy)) as [->|Hne].
    + by rewrite lookup_insert_eq.
    + by rewrite lookup_insert_ne.
Qed.

(** Reading a stored hour of a series known by a name that is no number. *)
Lemma coupledValue_stored s dd hoy c :
  resolves s source state i j → isdigit state = false →
  series s i j = Some dd → dd !! hoy = Some c →
  coupledValue hoy source state s = (Ok c, s).
Proof.
  intros (e & Hget & Hid & Hj) Hdig Hser Hc.
  destruct (series_Some _ _ _ _ Hser) as (row & Hrow & Hdd).
  unfold coupledValue, bind at 1, sourceId, try_except, bind at 1, sources_getitem,
    bind at 1. simpl. rewrite Hget. simpl.
  unfold bind at 1, blindStateId. rewrite Hdig.
  unfold try_except, bind at 1, sources_getitem, bind at 1. simpl. rewrite Hget. simpl.
  rewrite Hj. simpl. rewrite Hid.
  by rewrite (values_getitem_present _ _ _ _ _ _ _ _ _ (values_series_nat _ _ _ _ _ Hrow Hdd) Hc).
Qed.

End CoupledSeries.

Lemma last_written_NoDup l hoy total direct :
  NoDup (map triple_hour l) →
  (hoy, total, direct) ∈ l → last_written l hoy = Some (total, direct).
Proof.
  induction l as [|[[h t] d] r IH]; simpl; intros Hnd Hin.
  - by apply elem_of_nil in Hin.
  - apply NoDup_cons in Hnd as [Hh Hnd].
    apply elem_of_cons in Hin as [[= -> -> ->]|Hin].
    + destruct (last_written r h) as [p|] eqn:E.
      * exfalso. apply Hh. clear -E.
        induction r as [|[[h' t'] d'] r IH]; simpl in *; [done|].
        destruct (last_written r h); [apply elem_of_cons; right; by apply IH|].
        destruct (decide (h' = h)) as [->|]; [apply elem_of_cons; by left|done].
      * by rewrite decide_True.
    + by rewrite (IH Hnd Hin).
Qed.

(** The writers keep the invariant, so every store built from [init] by
    writes has it. *)
Lemma setCoupledValue_wf value hoy source state s :
  wf s → wf (after (setCoupledValue value hoy source state) s).
Proof.
  intros Hwf. destruct (create_spec source state s Hwf)
    as (s1 & i & j & dd & Hc & Hwf1 & _ & Hser & _).
  unfold after, setCoupledValue, bind at 1. rewrite Hc. simpl.
  unfold bind at 1, try_except, bind at 1, couple.
  destruct value as [|t [|d rest]]; simpl; try done.
  destruct (values_setitem_ok s1 i j dd hoy (CTuple t d) Hser)
    as (s2 & Hset & _ & _ & _ & Hwf2).
  rewrite Hset. simpl. apply (wf_ext s2); [done|done|by apply Hwf2].
Qed.

Lemma setValue_wf value hoy source state isDirect s :
  wf s → wf (after (setValue value hoy source state isDirect) s).
Proof.
  intros Hwf. destruct (create_spec source state s Hwf)
    as (s1 & i & j & dd & Hc & Hwf1 & _ & Hser & _).
  unfold after, setValue, bind at 1. rewrite Hc. simpl.
  set (s2 := (if isDirect then set_isDirectLoaded true s1 else s1)).
  assert (Hwf2 : wf s2).
  { subst s2. destruct isDirect; [|done]. by apply (wf_ext s1). }
  assert (Hser2 : series s2 i j = Some dd).
  { subst s2. by destruct isDirect. }
  assert (Hstep : ((if isDirect then modify (set_isDirectLoaded true) else ret tt) s1)
                  = (Ok tt, s2)).
  { subst s2. by destruct isDirect. }
  unfold bind at 1. rewrite Hstep.
  destruct (series_Some _ _ _ _ Hser2) as (row & Hrow & Hdd).
  unfold values_setslot, bind, values_getitem.
  rewrite (values_series_nat _ _ _ _ _ Hrow Hdd).
  destruct (dd !! hoy) as [c|] eqn:Hh.
  - destruct (cell_setitem c _ value) as [c'|err]; [|done].
    destruct (values_setitem_ok s2 i j dd hoy c' Hser2) as (s3 & Hset & _ & _ & _ & Hwf3).
    rewrite Hset. by apply Hwf3.
  - set (s3 := set_values _ s2).
    assert (Hwf3 : wf s3) by (by apply wf_set_series).
    assert (Hser3 : series s3 i j = Some (<[hoy := double]> dd)).
    { unfold series. subst s3. simpl.
      rewrite list_lookup_insert_eq by (by eapply lookup_lt_Some).
      rewrite list_lookup_insert_eq by (by eapply lookup_lt_Some). done. }
    destruct (cell_setitem double _ value) as [c'|err]; [|done].
    destruct (values_setitem_ok s3 i j _ hoy c' Hser3) as (s4 & Hset & _ & _ & _ & Hwf4).
    rewrite Hset. by apply Hwf4.
Qed.

(** C10 (counterexample).  A state named by the number 5, or by the
    string '5', is created with the id 0; [coupledValue] takes the name for
    the id 5 and raises [IndexError] where the pair [(1, 2)] was written. *)
Lemma C10_counterexample :
  outcome (setCoupledValue [Some 1%Q; Some 2%Q] 0 PNone (PInt 5)) init = Ok tt ∧
  outcome (coupledValue 0 PNone (PInt 5)) numbered_state = Raise IndexError ∧
  outcome (setCoupledValue [Some 1%Q; Some 2%Q] 0 PNone (PStr "5")) init = Ok tt ∧
  outcome (coupledValue 0 PNone (PStr "5")) digit_state = Raise IndexError ∧
  outcome (coupledValue 0 PNone (PInt 5)) numbered_state
    ≠ Ok (CTuple (Some 1%Q) (Some 2%Q)).
Proof.
  repeat split; try (vm_compute; reflexivity).
  intros H. vm_compute in H. discriminate.
Qed.

(** C10 (amended).  On a store that satisfies the invariant of the
    writers, and for a state whose name is not a non-negative integer or a
    string of digits: writing a sequence of [(hour, total, direct)] triples
    with [setCoupledValue] one by one, or at once with [setCoupledValues],
    succeeds, and [coupledValue] then returns for every written hour the
    pair written last for it, without changing the store; where no hour is
    written twice this is the pair of each triple. *)
Theorem C10_coupled_round_trip
    (s : AnalysisPoint) (source state : pyval) (l : list (Z * pynum * pynum)) :
  wf s → isdigit state = false →
  (∃ s', write_coupled l source state s = (Ok tt, s') ∧
     (∀ hoy total direct,
        last_written l hoy = Some (total, direct) →
        coupledValue hoy source state s' = (Ok (CTuple total direct), s')) ∧
     (NoDup (map triple_hour l) →
      ∀ hoy total direct,
        (hoy, total, direct) ∈ l →
        coupledValue hoy source state s' = (Ok (CTuple total direct), s'))) ∧
  (∃ s', setCoupledValues false (map triple_value l) (map triple_hour l) source state s
         = (Ok tt, s') ∧
     (∀ hoy total direct,
        last_written l hoy = Some (total, direct) →
        coupledValue hoy source state s' = (Ok (CTuple total direct), s')) ∧
     (NoDup (map triple_hour l) →
      ∀ hoy total direct,
        (hoy, total, direct) ∈ l →
        coupledValue hoy source state s' = (Ok (CTuple total direct), s'))).
Proof.
  intros Hwf Hdig.
  assert (Hdup : ∀ s' : AnalysisPoint,
    (∀ hoy total direct,
        last_written l hoy = Some (total, direct) →
        coupledValue hoy source state s' = (Ok (CTuple total direct), s')) →
    NoDup (map triple_hour l) →
    ∀ hoy total direct,
        (hoy, total, direct) ∈ l →
        coupledValue hoy source state s' = (Ok (CTuple total direct), s')).
  { intros s' Hread Hnd hoy total direct Hin. apply Hread.
    by apply last_written_NoDup. }
  split.
  - destruct l as [|[[h t] d] r].
    + exists s. split; [done|]. split; [intros ??? [=]|by apply Hdup; intros ??? [=]].
    + destruct (create_spec source state s Hwf)
        as (s1 & i & j & dd & Hc & _ & Hres & Hser & _).
      destruct (setCoupledValue_after_create source state s s1 i j dd h t d Hc Hser)
        as (s2 & Hw & Hsrc & _ & Hser2 & _).
      destruct (write_coupled_known source state i j r s2 _
                  (resolves_ext _ _ _ _ _ _ Hsrc Hres) Hser2)
        as (s' & dd' & Hrest & Hres' & Hser' & Hcont).
      assert (Hread : ∀ hoy total direct,
        last_written ((h, t, d) :: r) hoy = Some (total, direct) →
        coupledValue hoy source state s' = (Ok (CTuple total direct), s')).
      { intros hoy total direct Hlast.
        apply (coupledValue_stored source state i j s' dd'); try done.
        rewrite Hcont. simpl in Hlast.
        destruct (last_written r hoy) as [[t' d']|]; [by injection Hlast as -> ->|].
        destruct (decide (h = hoy)) as [->|Hne]; [|done].
        injection Hlast as -> ->. by rewrite lookup_insert_eq. }
      exists s'. split.
      { unfold write_coupled in *. simpl. unfold bind. by rewrite Hw. }
      split; [done|by apply Hdup].
  - destruct (create_spec source state s Hwf)
      as (s1 & i & j & dd & Hc & _ & Hres & Hser & _).
    destruct (coupled_loop_known i j l s1 dd Hser)
      as (s2 & dd' & Hloop & Hsrc & Hser2 & Hcont).
    assert (Hread : ∀ hoy total direct,
      last_written l hoy = Some (total, direct) →
      coupledValue hoy source state (set_isDirectLoaded true s2)
      = (Ok (CTuple total direct), set_isDirectLoaded true s2)).
    { intros hoy total direct Hlast.
      apply (coupledValue_stored source state i j _ dd'); try done.
      - by apply (resolves_ext s1).
      - by rewrite Hcont, Hlast. }
    exists (set_isDirectLoaded true s2). split.
    { unfold setCoupledValues, bind at 1, assert_same_length.
      rewrite decide_True by (by rewrite !length_map). simpl.
      unfold bind at 1. rewrite Hc. simpl.
      unfold bind at 1. rewrite Hloop. reflexivity. }
    split; [done|by apply Hdup].
Qed.

(** The amended C10 for three triples, hour 3 written twice, on a store
    that already holds another series. *)
Lemma C10_coupled_round_trip_witness :
  (∃ s', write_coupled [(3, Some 7%Q, Some 2%Q); (4, Some 9%Q, None); (3, Some 8%Q, Some 1%Q)]
           (PStr "south") (PStr "open") one_sample = (Ok tt, s') ∧
     (∀ hoy total direct,
        last_written [(3, Some 7%Q, Some 2%Q); (4, Some 9%Q, None); (3, Some 8%Q, Some 1%Q)]
          hoy = Some (total, direct) →
        coupledValue hoy (PStr "south") (PStr "open") s' = (Ok (CTuple total direct), s')) ∧
     (NoDup (map triple_hour
               [(3, Some 7%Q, Some 2%Q); (4, Some 9%Q, None); (3, Some 8%Q, Some 1%Q)]) →
      ∀ hoy total direct,
        (hoy, total, direct)
          ∈ [(3, Some 7%Q, Some 2%Q); (4, Some 9%Q, None); (3, Some 8%Q, Some 1%Q)] →
        coupledValue hoy (PStr "south") (PStr "open") s' = (Ok (CTuple total direct), s'))) ∧
  (∃ s', setCoupledValues false
           (map triple_value
              [(3, Some 7%Q, Some 2%Q); (4, Some 9%Q, None); (3, Some 8%Q, Some 1%Q)])
           (map triple_hour
              [(3, Some 7%Q, Some 2%Q); (4, Some 9%Q, None); (3, Some 8%Q, Some 1%Q)])
           (PStr "south") (PStr "open") one_sample = (Ok tt, s') ∧
     (∀ hoy total direct,
        last_written [(3, Some 7%Q, Some 2%Q); (4, Some 9%Q, None); (3, Some 8%Q, Some 1%Q)]
          hoy = Some (total, direct) →
        coupledValue hoy (PStr "south") (PStr "open") s' = (Ok (CTuple total direct), s')) ∧
     (NoDup (map triple_hour
               [(3, Some 7%Q, Some 2%Q); (4, Some 9%Q, None); (3, Some 8%Q, Some 1%Q)]) →
      ∀ hoy total direct,
        (hoy, total, direct)
          ∈ [(3, Some 7%Q, Some 2%Q); (4, Some 9%Q, None); (3, Some 8%Q, Some 1%Q)] →
        coupledValue hoy (PStr "south") (PStr "open") s' = (Ok (CTuple total direct), s'))).
Proof.
  apply (C10_coupled_round_trip one_sample (PStr "south") (PStr "open")
           [(3, Some 7%Q, Some 2%Q); (4, Some 9%Q, None); (3, Some 8%Q, Some 1%Q)]).
  - apply setValue_wf, wf_init.
  - reflexivity.
Defined.


(** * Further properties of the store *)

(** ** Operations and relations on stores *)

Section Steps.

Context (R : relation AnalysisPoint) `{!PreOrder R}.

Lemma steps_ret {A} (a : A) : steps R (ret a).
Proof. intros s. reflexivity. Qed.

Lemma steps_raise {A} (e : exn) : steps R (@raise A e).
Proof. intros s. reflexivity. Qed.

Lemma steps_get : steps R get.
Proof. intros s. reflexivity. Qed.

Lemma steps_of_option {A} (o : option A) (e : exn) : steps R (of_option o e).
Proof. intros s. destruct o; reflexivity. Qed.

Lemma steps_bind {A B} (m : M A) (k : A → M B) :
  steps R m → (∀ a, steps R (k a)) → steps R (bind m k).
Proof.
  intros Hm Hk s. specialize (Hm s). unfold after, bind in *.
  destruct (m s) as [[a|e] s1]; simpl in *; [|done].
  etrans; [exact Hm|]. apply Hk.
Qed.

Lemma steps_try_except {A} (m : M A) (h : exn → option (M A)) :
  steps R m → (∀ e k, h e = Some k → steps R k) → steps R (try_except m h).
Proof.
  intros Hm Hh s. specialize (Hm s). unfold after, try_except in *.
  destruct (m s) as [[a|e] s1]; simpl in *; [done|].
  destruct (h e) as [k|] eqn:E; [|done].
  etrans; [exact Hm|]. by apply (Hh e k).
Qed.

Lemma steps_for_each {A} (l : list A) (f : A → M unit) :
  (∀ x, steps R (f x)) → steps R (for_each l f).
Proof.
  intros Hf. induction l as [|x r IH]; simpl.
  - apply steps_ret.
  - apply steps_bind; [apply Hf|]. intros _. apply IH.
Qed.

Lemma steps_map_m {A B} (f : A → M B) (l : list A) :
  (∀ x, steps R (f x)) → steps R (map_m f l).
Proof.
  intros Hf. induction l as [|x r IH]; simpl.
  - apply steps_ret.
  - apply steps_bind; [apply Hf|]. intros y.
    apply steps_bind; [apply IH|]. intros ys. apply steps_ret.
Qed.

Lemma steps_tuple_of {A} (g : Gen A) : steps_gen R g → steps R (tuple_of g).
Proof.
  intros Hg s. specialize (Hg s). unfold after, tuple_of.
  destruct (g s) as [[items [e|]] s1]; simpl in *; done.
Qed.

Lemma steps_run_writers (ws : list writer) :
  (∀ w, steps R (call w)) → ∀ s, R s (run_writers ws s).
Proof.
  intros Hw. induction ws as [|w ws IH]; intros s; simpl.
  - reflexivity.
  - etrans; [apply (Hw w)|]. apply IH.
Qed.

End Steps.

#[global] Instance flag_kept_preorder : PreOrder flag_kept.
Proof. split; unfold flag_kept; [intros s; tauto|intros s1 s2 s3; tauto]. Qed.

#[global] Instance ids_kept_preorder : PreOrder ids_kept.
Proof.
  split; unfold ids_kept; [intros s; tauto|].
  intros s1 s2 s3 H12 H23 source state i j H. by apply H23, H12.
Qed.

#[global] Instance wf_kept_preorder : PreOrder wf_kept.
Proof. split; unfold wf_kept; [intros s; tauto|intros s1 s2 s3; tauto]. Qed.

#[global] Instance uniq_kept_preorder : PreOrder uniq_kept.
Proof. split; unfold uniq_kept; [intros s; tauto|intros s1 s2 s3; tauto]. Qed.

(** ** What [_createDataStructure] changes *)

(** Whether it returns or raises, [_createDataStructure] leaves the dict
    of sources grown by the source and the state, and the flag and the rule
    as they were. *)
Lemma create_effect source state s :
  _sources (after (_createDataStructure source state) s)
    = sources_after_create source state (_sources s) ∧
  _isDirectLoaded (after (_createDataStructure source state) s) = _isDirectLoaded s ∧
  logic (after (_createDataStructure source state) s) = logic s.
Proof.
  unfold after, _createDataStructure, sources_after_create, bind, get, modify,
    sources_getitem, bind, get, of_option, ret, raise, values_append_state.
  simpl.
  destruct (decide (source ∈ (_sources s).*1)) as [Hin|Hnin]; simpl.
  - destruct (dict_get (_sources s) source) as [e|] eqn:Hget; simpl; [|done].
    destruct (decide (state ∈ src_state e)); simpl.
    + rewrite Hget. simpl. by destruct (list_index state (src_state e)).
    + destruct (py_index _ _) as [i|]; simpl; [|done].
      destruct (_values s !! i) as [row|]; simpl; [|done].
      destruct (dict_get (dict_append_state _ _ _) source) as [e'|]; simpl; [|done].
      by destruct (list_index state (src_state e')).
  - destruct (dict_get (_sources s ++ _) source) as [e|] eqn:Hget; simpl; [|done].
    destruct (decide (state ∈ src_state e)); simpl.
    + rewrite Hget. simpl. by destruct (list_index state (src_state e)).
    + destruct (py_index _ _) as [i|]; simpl; [|done].
      destruct ((_values s ++ [[]]) !! i) as [row|]; simpl; [|done].
      destruct (dict_get (dict_append_state _ _ _) source) as [e'|]; simpl; [|done].
      by destruct (list_index state (src_state e')).
Qed.

#[global] Instance values_only_preorder : PreOrder values_only.
Proof.
  split; unfold values_only; [intros s; tauto|].
  intros s1 s2 s3 (? & ? & ?) (? & ? & ?). repeat split; congruence.
Qed.

Lemma steps_weaken {A} (R R' : relation AnalysisPoint) (m : M A) :
  (∀ s s', R s s' → R' s s') → steps R m → steps R' m.
Proof. intros Hsub Hm s. apply Hsub, Hm. Qed.

Lemma values_only_getitem sid stateid hoy : steps values_only (values_getitem sid stateid hoy).
Proof.
  intros s. unfold after, values_getitem.
  destruct (values_series _ _ _) as [[[[i j] row] d]|]; simpl; [|done].
  destruct (d !! hoy); done.
Qed.

Lemma values_only_setitem sid stateid hoy c : steps values_only (values_setitem sid stateid hoy c).
Proof.
  intros s. unfold after, values_setitem.
  destruct (values_series _ _ _) as [[[[i j] row] d]|]; done.
Qed.

Lemma values_only_flag s s' : values_only s s' → flag_kept s s'.
Proof. intros (_ & Hf & _) H. congruence. Qed.

Lemma values_only_ids s s' : values_only s s' → ids_kept s s'.
Proof. intros (Hs & _ & _) source state i j. by apply resolves_ext. Qed.

Lemma values_only_uniq s s' : values_only s s' → uniq_kept s s'.
Proof. intros (Hs & _ & _). unfold uniq_kept, uniq. by rewrite Hs. Qed.

(** ** The dict of sources only grows *)

Lemma dict_get_app_old d k e x : dict_get d k = Some e → dict_get (d ++ x) k = Some e.
Proof.
  induction d as [|[k' e'] d IH]; simpl; [done|].
  destruct (decide (k = k')); [done|apply IH].
Qed.

Lemma dict_get_append_state_other d k k' state :
  k ≠ k' → dict_get (dict_append_state d k' state) k = dict_get d k.
Proof.
  intros Hne. induction d as [|[k0 e0] d IH]; simpl; [done|].
  destruct (decide (k' = k0)) as [->|Hne0]; simpl.
  - destruct (decide (k = k0)); [done|reflexivity].
  - destruct (decide (k = k0)); [done|apply IH].
Qed.

Lemma list_index_app_old {A} `{EqDecision A} (x : A) l y j :
  list_index x l = Some j → list_index x (l ++ y) = Some j.
Proof.
  revert j. induction l as [|z l IH]; intros j; simpl; [done|].
  destruct (decide (x = z)); [done|].
  destruct (list_index x l) as [j'|]; simpl; [|done].
  intros [= <-]. by rewrite (IH j').
Qed.

Lemma dict_append_state_keys d k state : (dict_append_state d k state).*1 = d.*1.
Proof.
  induction d as [|[k' e'] d IH]; csimpl; [done|].
  destruct (decide (k = k')); csimpl; [done|by rewrite IH].
Qed.

Lemma elem_of_dict_append_state d k state name e :
  (name, e) ∈ dict_append_state d k state →
  (name, e) ∈ d ∨
  ∃ e0, dict_get d k = Some e0 ∧ e = mk_entry (src_id e0) (src_state e0 ++ [state]).
Proof.
  induction d as [|[k' e'] d IH]; simpl; [by left|].
  destruct (decide (k = k')) as [->|Hne]; intros Hin.
  - apply elem_of_cons in Hin as [[= -> ->]|Hin].
    + right. by exists e'.
    + left. apply elem_of_cons. by right.
  - apply elem_of_cons in Hin as [[= -> ->]|Hin].
    + left. apply elem_of_cons. by left.
    + destruct (IH Hin) as [H|H]; [|by right].
      left. apply elem_of_cons. by right.
Qed.

Lemma dict_get_elem_of d k e : dict_get d k = Some e → (k, e) ∈ d.
Proof.
  induction d as [|[k' e'] d IH]; simpl; [done|].
  destruct (decide (k = k')) as [->|Hne]; intros H.
  - injection H as ->. apply elem_of_cons. by left.
  - apply elem_of_cons. right. by apply IH.
Qed.

(** A known source and state keep their ids when another is created. *)
Lemma resolves_after_create source' state' d source state e j :
  dict_get d source = Some e → list_index state (src_state e) = Some j →
  ∃ e', dict_get (sources_after_create source' state' d) source = Some e' ∧
        src_id e' = src_id e ∧ list_index state (src_state e') = Some j.
Proof.
  intros Hget Hj. unfold sources_after_create.
  set (d1 := if decide (source' ∈ d.*1) then d else d ++ _).
  assert (Hget1 : dict_get d1 source = Some e).
  { subst d1. destruct (decide _); [done|by apply dict_get_app_old]. }
  destruct (dict_get d1 source') as [e1|] eqn:H1; [|by exists e].
  destruct (decide (state' ∈ src_state e1)); [by exists e|].
  destruct (decide (source = source')) as [->|Hne].
  - assert (e1 = e) as -> by congruence.
    exists (mk_entry (src_id e) (src_state e ++ [state'])). split.
    + by apply dict_get_append_state.
    + split; [done|]. simpl. by apply list_index_app_old.
  - exists e. by rewrite dict_get_append_state_other.
Qed.

(** Names stay unique when a source and a state are created. *)
Lemma uniq_after_create source state d :
  NoDup d.*1 → (∀ name e, (name, e) ∈ d → NoDup (src_state e)) →
  NoDup (sources_after_create source state d).*1 ∧
  ∀ name e, (name, e) ∈ sources_after_create source state d → NoDup (src_state e).
Proof.
  intros Hk Hst. unfold sources_after_create.
  set (d1 := if decide (source ∈ d.*1) then d else d ++ _).
  assert (Hk1 : NoDup d1.*1).
  { subst d1. destruct (decide _) as [|Hnin]; [done|].
    rewrite fmap_app. apply NoDup_app. split; [done|]. split.
    - intros x Hx Hx'. apply list_elem_of_singleton in Hx'. simpl in Hx'. by subst x.
    - apply NoDup_singleton. }
  assert (Hst1 : ∀ name e, (name, e) ∈ d1 → NoDup (src_state e)).
  { subst d1. destruct (decide _) as [|Hnin]; [done|].
    intros name e Hin. apply elem_of_app in Hin as [Hin|Hin]; [by eapply Hst|].
    apply list_elem_of_singleton in Hin. injection Hin as -> ->. apply NoDup_nil_2. }
  destruct (dict_get d1 source) as [e1|] eqn:H1; [|done].
  destruct (decide (state ∈ src_state e1)) as [|Hnin]; [done|].
  split; [by rewrite dict_append_state_keys|].
  intros name e Hin. apply elem_of_dict_append_state in Hin as [Hin|(e0 & H0 & ->)].
  - by eapply Hst1.
  - assert (e0 = e1) as -> by congruence. simpl.
    apply NoDup_app. split; [eapply Hst1, dict_get_elem_of, H1|]. split.
    + intros x Hx Hx'. apply list_elem_of_singleton in Hx'. by subst x.
    + apply NoDup_singleton.
Qed.

(** ** The writers, step by step *)

Section WriterSteps.

Context (R : relation AnalysisPoint) `{!PreOrder R}.

(** What the writers are made of. *)
Hypothesis create_steps : ∀ source state, steps R (_createDataStructure source state).
Hypothesis flag_steps : steps R (modify (set_isDirectLoaded true)).
Hypothesis getitem_steps : ∀ sid stateid hoy, steps R (values_getitem sid stateid hoy).
Hypothesis setitem_steps : ∀ sid stateid hoy c, steps R (values_setitem sid stateid hoy c).

Lemma steps_setslot sid stateid hoy ind value :
  steps R (values_setslot sid stateid hoy ind value).
Proof.
  apply steps_bind; [done|apply getitem_steps|]. intros c.
  destruct (cell_setitem c ind value); [apply setitem_steps|by apply steps_raise].
Qed.

Lemma steps_assert_same_length {A B} lazy (values : list A) (hoys : list B) :
  steps R (assert_same_length lazy values hoys).
Proof.
  unfold assert_same_length. destruct lazy; [by apply steps_ret|].
  destruct (decide _); [by apply steps_ret|by apply steps_raise].
Qed.

Lemma steps_mark isDirect :
  steps R (if isDirect : bool then modify (set_isDirectLoaded true) else ret tt).
Proof. destruct isDirect; [apply flag_steps|by apply steps_ret]. Qed.

Lemma steps_coupled_write sid stateid hoy value :
  steps R (try_except
             (let* c := couple value in values_setitem sid stateid hoy c)
             wrong_input).
Proof.
  apply steps_try_except; [done| |].
  - apply steps_bind; [done| |intros c; apply setitem_steps].
    unfold couple. destruct value as [|t [|d r]]; by (apply steps_ret || apply steps_raise).
  - intros e k Hk. destruct e; simpl in Hk; try done;
      injection Hk as <-; by apply steps_raise.
Qed.

Lemma steps_call w : steps R (call w).
Proof.
  destruct w as [value hoy source state isDirect
                |lazy values hoys source state isDirect
                |value hoy source state
                |lazy values hoys source state]; simpl.
  - apply steps_bind; [done|apply create_steps|]. intros [sid stateid].
    apply steps_bind; [done|apply steps_mark|]. intros _. apply steps_setslot.
  - apply steps_bind; [done|apply steps_assert_same_length|]. intros _.
    apply steps_bind; [done|apply create_steps|]. intros [sid stateid].
    apply steps_bind; [done|apply steps_mark|]. intros _.
    apply steps_for_each; [done|]. intros [h v]. apply steps_setslot.
  - apply steps_bind; [done|apply create_steps|]. intros [sid stateid].
    apply steps_bind; [done|apply steps_coupled_write|]. intros _. apply flag_steps.
  - apply steps_bind; [done|apply steps_assert_same_length|]. intros _.
    apply steps_bind; [done|apply create_steps|]. intros [sid stateid].
    apply steps_bind; [done| |intros _; apply flag_steps].
    apply steps_for_each; [done|]. intros [h v]. apply steps_coupled_write.
Qed.

End WriterSteps.

Lemma call_flag_kept w : steps flag_kept (call w).
Proof.
  apply steps_call; [apply _| | | |].
  - intros source state s H.
    destruct (create_effect source state s) as (_ & Hf & _). congruence.
  - intros s _. reflexivity.
  - intros sid stateid hoy. eapply steps_weaken; [apply values_only_flag|].
    apply values_only_getitem.
  - intros sid stateid hoy c. eapply steps_weaken; [apply values_only_flag|].
    apply values_only_setitem.
Qed.

Lemma call_ids_kept w : steps ids_kept (call w).
Proof.
  apply steps_call; [apply _| | | |].
  - intros source' state' s source state i j (e & Hget & Hid & Hj).
    destruct (create_effect source' state' s) as (Hs & _ & _).
    destruct (resolves_after_create source' state' _ _ _ _ _ Hget Hj)
      as (e' & Hget' & Hid' & Hj').
    exists e'. rewrite Hs. split; [done|]. split; [congruence|done].
  - intros s source state i j H. exact H.
  - intros sid stateid hoy. eapply steps_weaken; [apply values_only_ids|].
    apply values_only_getitem.
  - intros sid stateid hoy c. eapply steps_weaken; [apply values_only_ids|].
    apply values_only_setitem.
Qed.

Lemma call_uniq_kept w : steps uniq_kept (call w).
Proof.
  apply steps_call; [apply _| | | |].
  - intros source state s [Hk Hst].
    destruct (create_effect source state s) as (Hs & _ & _).
    unfold uniq. rewrite Hs. by apply uniq_after_create.
  - intros s H. exact H.
  - intros sid stateid hoy. eapply steps_weaken; [apply values_only_uniq|].
    apply values_only_getitem.
  - intros sid stateid hoy c. eapply steps_weaken; [apply values_only_uniq|].
    apply values_only_setitem.
Qed.

Lemma wf_kept_getitem sid stateid hoy : steps wf_kept (values_getitem sid stateid hoy).
Proof.
  intros s Hwf. unfold after, values_getitem.
  destruct (values_series _ _ _) as [[[[i j] row] d]|] eqn:E; simpl; [|done].
  destruct (d !! hoy); simpl; [done|].
  apply wf_set_series; [|done].
  unfold values_series in E.
  destruct (py_index _ sid) as [i'|]; [|done].
  destruct (_values s !! i') as [row'|] eqn:Hrow; [|done].
  destruct (py_index _ stateid) as [j'|]; [|done].
  destruct (row' !! j'); [|done]. by injection E as -> -> -> ->.
Qed.

Lemma wf_kept_setitem sid stateid hoy c : steps wf_kept (values_setitem sid stateid hoy c).
Proof.
  intros s Hwf. unfold after, values_setitem.
  destruct (values_series _ _ _) as [[[[i j] row] d]|] eqn:E; simpl; [|done].
  apply wf_set_series; [|done].
  unfold values_series in E.
  destruct (py_index _ sid) as [i'|]; [|done].
  destruct (_values s !! i') as [row'|] eqn:Hrow; [|done].
  destruct (py_index _ stateid) as [j'|]; [|done].
  destruct (row' !! j'); [|done]. by injection E as -> -> -> ->.
Qed.

Lemma call_wf_kept w : steps wf_kept (call w).
Proof.
  apply steps_call; [apply _| | | |].
  - intros source state s Hwf.
    destruct (create_spec source state s Hwf) as (s1 & i & j & dd & Hc & Hwf1 & _).
    unfold after. by rewrite Hc.
  - intros s Hwf. by apply (wf_ext s).
  - apply wf_kept_getitem.
  - apply wf_kept_setitem.
Qed.

Lemma uniq_init : uniq init.
Proof.
  split; simpl; [apply NoDup_nil_2|]. intros name e H. by apply elem_of_nil in H.
Qed.

(** ** Every store the writers build *)

(** X1.  Whatever sequence of writer calls is made on a new point, returning
    or raising, the store keeps the invariant of the writers: the id of a
    source is its position in first-write order, the table has one list of
    series per source and one series per state, no source is registered
    twice and no state twice for a source. *)
Theorem writers_keep_dense_ids (ws : list writer) :
  wf (run_writers ws init) ∧ uniq (run_writers ws init).
Proof.
  split.
  - apply (steps_run_writers wf_kept ws call_wf_kept init), wf_init.
  - apply (steps_run_writers uniq_kept ws call_uniq_kept init), uniq_init.
Qed.

(** X2.  Once direct values are loaded they stay loaded: no sequence of
    writer calls, total-only or failing ones included, turns the flag
    off. *)
Theorem direct_flag_never_reverts (ws : list writer) (s : AnalysisPoint) :
  _isDirectLoaded s = true → _isDirectLoaded (run_writers ws s) = true.
Proof. apply (steps_run_writers flag_kept ws call_flag_kept s). Qed.

Lemma direct_flag_never_reverts_witness :
  _isDirectLoaded
    (run_writers
       [SetValue (Some 1%Q) 7 PNone PNone false;
        SetValues false [Some 2%Q] [8; 9] (PStr "w") PNone false;
        SetCoupledValue [Some 4%Q] 7 PNone PNone]
       partial_direct) = true.
Proof. apply direct_flag_never_reverts. vm_compute. reflexivity. Defined.

(** X3.  A source and a state that are known under the ids [i] and [j]
    keep these ids through every sequence of writer calls: ids are never
    reassigned. *)
Theorem ids_never_change (ws : list writer) (s : AnalysisPoint)
    (source state : pyval) (i j : nat) :
  resolves s source state i j → resolves (run_writers ws s) source state i j.
Proof. intros H. by apply (steps_run_writers ids_kept ws call_ids_kept s). Qed.

Lemma ids_never_change_witness :
  resolves
    (run_writers
       [SetCoupledValue [Some 1%Q; Some 2%Q] 3 (PStr "B") (PStr "b");
        SetValue (Some 1%Q) 7 PNone (PStr "x") false;
        SetValue (Some 1%Q) 7 (PStr "A") PNone true]
       one_sample)
    PNone PNone 0 0.
Proof.
  apply ids_never_change.
  exists (mk_entry 0 [PNone]). vm_compute. repeat split; reflexivity.
Defined.

(** ** Names and ids *)

Lemma three_sources_invariant : wf three_sources ∧ uniq three_sources.
Proof.
  unfold three_sources. split.
  - apply (steps_for_each wf_kept); [|apply wf_init].
    intros [source state]. apply (call_wf_kept (SetValue _ _ _ _ _)).
  - apply (steps_for_each uniq_kept); [|apply uniq_init].
    intros [source state]. apply (call_uniq_kept (SetValue _ _ _ _ _)).
Qed.

Lemma dict_get_NoDup d k name e :
  NoDup d.*1 → d !! k = Some (name, e) → dict_get d name = Some e.
Proof.
  revert k. induction d as [|[k' e'] d IH]; intros k; csimpl; [done|].
  intros Hnd Hk. apply NoDup_cons in Hnd as [Hnin Hnd].
  destruct k as [|k]; simpl in Hk.
  - injection Hk as -> ->. by rewrite decide_True.
  - rewrite decide_False; [by eapply IH|].
    intros ->. apply Hnin. apply list_elem_of_fmap. exists (k', e).
    split; [done|]. by eapply list_elem_of_lookup_2.
Qed.

Lemma list_index_NoDup {A} `{EqDecision A} (l : list A) j x :
  NoDup l → l !! j = Some x → list_index x l = Some j.
Proof.
  revert j. induction l as [|y l IH]; intros j; simpl; [done|].
  intros Hnd Hj. apply NoDup_cons in Hnd as [Hnin Hnd].
  destruct j as [|j]; simpl in Hj.
  - injection Hj as ->. by rewrite decide_True.
  - rewrite decide_False; [by rewrite (IH j)|].
    intros ->. apply Hnin. by eapply list_elem_of_lookup_2.
Qed.

(** The list that the loop of [sources] fills, each name at the id of its
    source: a position holds the name [x] once an item with that id was
    seen, if every item with that id has the name [x]. *)
Lemma fill_lookup (i : nat) (x : pyval) items :
  (∀ name e, (name, e) ∈ items → src_id e = i → name = x) →
  ∀ acc : list pyval,
    (i < length acc)%nat →
    acc !! i = Some x ∨ (∃ name e, (name, e) ∈ items ∧ src_id e = i) →
    (foldl (fun a kv => <[src_id kv.2 := kv.1]> a) acc items) !! i = Some x.
Proof.
  induction items as [|[name e] items IH]; intros Hx acc Hi Hcase; simpl.
  - destruct Hcase as [H|(name & e & Hin & _)]; [done|by apply elem_of_nil in Hin].
  - apply IH.
    + intros name' e' Hin. apply Hx, elem_of_cons. by right.
    + by rewrite length_insert.
    + destruct (decide (src_id e = i)) as [Heq|Hne].
      * left. rewrite Heq, list_lookup_insert_eq by done. f_equal.
        apply (Hx name e); [apply elem_of_cons; by left|done].
      * rewrite list_lookup_insert_ne by done.
        destruct Hcase as [H|(name' & e' & Hin & Hid)]; [by left|right].
        apply elem_of_cons in Hin as [[= -> ->]|Hin]; [done|by exists name', e'].
Qed.

(** Where the ids are the positions, [sources] returns the names in the
    order of their ids, in whatever order the dict yields them. *)
Lemma sources_returns (s : AnalysisPoint) :
  wf s → sources s = (Ok (_sources s).*1, s).
Proof.
  intros [Hlen Hent].
  assert (Hid : ∀ name e, (name, e) ∈ iteritems (_sources s) →
                  _sources s !! src_id e = Some (name, e)).
  { intros name e Hin. apply (proj1 (iteritems_elem_of _ _)) in Hin.
    apply list_elem_of_lookup in Hin as [q Hq].
    by destruct (Hent q name e Hq) as [-> _]. }
  assert (Hrun : ∀ items acc,
            (∀ name e, (name, e) ∈ items → (src_id e < length acc)%nat) →
            (fix fill (items : list (pyval * source_entry)) (srcs : list pyval) :=
               match items with
               | [] => ret srcs
               | (name, d) :: r =>
                   let* srcs' := of_option (py_setitem srcs (Z.of_nat (src_id d)) name)
                                   IndexError in
                   fill r srcs'
               end) items acc s
            = (Ok (foldl (fun a kv => <[src_id kv.2 := kv.1]> a) acc items), s)).
  { induction items as [|[name e] items IH]; intros acc Hlt; [done|].
    unfold bind, py_setitem.
    rewrite py_index_nat by (apply (Hlt name e), elem_of_cons; by left).
    cbn [of_option ret foldl fst snd]. apply IH.
    intros name' e' Hin. rewrite length_insert. apply (Hlt name' e'), elem_of_cons.
    by right. }
  set (init0 := map PInt (py_range (Z.of_nat (length (_sources s))))).
  assert (Hinit : length init0 = length (_sources s)).
  { unfold init0, py_range. rewrite !length_map, length_seq. lia. }
  unfold sources, bind, get. cbn [fst snd]. fold init0. rewrite Hrun.
  2: { intros name e Hin. rewrite Hinit. eapply lookup_lt_Some, (Hid name e Hin). }
  f_equal. f_equal. apply list_eq. intros i.
  destruct (_sources s !! i) as [[name e]|] eqn:Hi.
  - rewrite list_lookup_fmap, Hi. simpl.
    apply fill_lookup.
    + intros name' e' Hin Heq. apply Hid in Hin. rewrite Heq in Hin. congruence.
    + rewrite Hinit. by eapply lookup_lt_Some.
    + right. exists name, e. split; [|by destruct (Hent i name e Hi)].
      apply iteritems_elem_of. by eapply list_elem_of_lookup_2.
  - rewrite list_lookup_fmap, Hi. simpl. apply lookup_ge_None_2.
    apply lookup_ge_None_1 in Hi.
    assert (Hl : ∀ items acc,
              length (foldl (fun a (kv : pyval * source_entry) =>
                               <[src_id kv.2 := kv.1]> a) acc items) = length acc).
    { induction items as [|kv items IH]; intros acc; simpl; [done|].
      by rewrite IH, length_insert. }
    rewrite Hl, Hinit. done.
Qed.

(** X4.  On a store the writers built, [sources] returns the source names
    in the order of their ids, which is the order of their first write,
    and [sourceId] maps the name at position [k] back to [k]; neither
    changes the store. *)
Theorem sources_lists_names_by_id (s : AnalysisPoint) :
  wf s → uniq s →
  sources s = (Ok (_sources s).*1, s) ∧
  ∀ (k : nat) name, (_sources s).*1 !! k = Some name →
    sourceId name s = (Ok (Z.of_nat k), s).
Proof.
  intros Hwf [Hk _]. split; [by apply sources_returns|].
  destruct Hwf as [Hlen Hent].
  intros k name Hname.
  apply list_lookup_fmap_Some in Hname as ([name' e] & -> & Hq). simpl.
  destruct (Hent k name' e Hq) as [Hid _].
  unfold sourceId, try_except, bind, sources_getitem, bind. simpl.
  rewrite (dict_get_NoDup _ _ _ _ Hk Hq). simpl. by rewrite Hid.
Qed.

Lemma sources_lists_names_by_id_witness :
  sources three_sources = (Ok (_sources three_sources).*1, three_sources) ∧
  ∀ (k : nat) name, (_sources three_sources).*1 !! k = Some name →
    sourceId name three_sources = (Ok (Z.of_nat k), three_sources).
Proof.
  apply sources_lists_names_by_id; apply three_sources_invariant.
Defined.

(** X5.  On a store whose names are unique, [blindStateId] maps the name
    that stands at position [j] of a source's state list to [j], unless the
    name prints as digits: then the number it spells is returned as it is,
    for any source, known or not, and whatever states exist. *)
Theorem blindStateId_inverts_state_list (s : AnalysisPoint)
    (source state : pyval) (e : source_entry) (j : nat) :
  uniq s → dict_get (_sources s) source = Some e → src_state e !! j = Some state →
  blindStateId source state s
  = (Ok (if isdigit state then int_of state else Z.of_nat j), s).
Proof.
  intros [_ Hst] Hget Hj. unfold blindStateId.
  destruct (isdigit state); [reflexivity|].
  unfold try_except, bind, sources_getitem, bind. simpl. rewrite Hget. simpl.
  rewrite (list_index_NoDup _ j state); [done| |done].
  eapply Hst, dict_get_elem_of, Hget.
Qed.

Lemma blindStateId_inverts_state_list_witness :
  blindStateId (PStr "B") (PStr "b2") three_sources
  = (Ok (if isdigit (PStr "b2") then int_of (PStr "b2") else Z.of_nat 2), three_sources).
Proof.
  apply (blindStateId_inverts_state_list three_sources (PStr "B") (PStr "b2")
           (mk_entry 1 [PStr "b0"; PStr "b1"; PStr "b2"; PStr "b3"]) 2).
  - apply three_sources_invariant.
  - vm_compute. reflexivity.
  - reflexivity.
Defined.

(** ** Names the readers do not know *)

Lemma list_index_None {A} `{EqDecision A} (x : A) l : x ∉ l → list_index x l = None.
Proof.
  induction l as [|y l IH]; simpl; [done|]. intros Hx.
  apply not_elem_of_cons in Hx as [Hne Hx].
  rewrite decide_False by done. by rewrite IH.
Qed.

(** The two look-ups every reader by name starts with. *)
Lemma reader_unknown_name {A} (m : Z → Z → M A) s source state :
  dict_get (_sources s) source = None ∨ isdigit state = false →
  (∀ e, dict_get (_sources s) source = Some e → state ∉ src_state e) →
  (let* sid := sourceId source in
   let* stateid := blindStateId source state in
   m sid stateid) s
  = (Raise (name_error s source), s).
Proof.
  intros Hdig Hst. unfold name_error, bind at 1, sourceId, try_except, bind at 1,
    sources_getitem, bind at 1. simpl.
  destruct (dict_get (_sources s) source) as [e|] eqn:Hget; simpl; [|done].
  destruct Hdig as [?|Hdig]; [done|].
  unfold bind at 1, blindStateId. rewrite Hdig.
  unfold try_except, bind at 1, sources_getitem, bind at 1. simpl. rewrite Hget. simpl.
  by rewrite (list_index_None _ _ (Hst e eq_refl)).
Qed.

(** X6.  A reader by name that is given an unknown source raises 'Invalid
    source input', whatever the state is, a number or a string of digits
    included; given a known source and a state name that is not among its
    states and does not print as digits it raises 'Invalid state input'.
    In both cases the store is left as it is. *)
Theorem readers_reject_unknown_names (s : AnalysisPoint) (source state : pyval)
    (hoy : Z) (hs : list Z) :
  dict_get (_sources s) source = None ∨ isdigit state = false →
  (∀ e, dict_get (_sources s) source = Some e → state ∉ src_state e) →
  value hoy source state s = (Raise (name_error s source), s) ∧
  directValue hoy source state s = (Raise (name_error s source), s) ∧
  values hs source state s = (Raise (name_error s source), s) ∧
  directValues hs source state s = (Raise (name_error s source), s) ∧
  coupledValue hoy source state s = (Raise (name_error s source), s) ∧
  coupledValues hs source state s = (Raise (name_error s source), s).
Proof.
  intros Hdig Hst. repeat split.
  - apply (reader_unknown_name
             (fun sid stateid =>
                try_except
                  (let* c := values_getitem sid stateid hoy in ret (cell_total c))
                  invalid_hoy)); done.
  - apply (reader_unknown_name
             (fun sid stateid =>
                try_except
                  (let* c := values_getitem sid stateid hoy in ret (cell_direct c))
                  invalid_hoy)); done.
  - apply (reader_unknown_name
             (fun sid stateid =>
                try_except
                  (map_m (fun hoy =>
                            let* c := values_getitem sid stateid hoy in ret (cell_total c))
                     hs)
                  invalid_hoy)); done.
  - apply (reader_unknown_name
             (fun sid stateid =>
                try_except
                  (map_m (fun hoy =>
                            let* c := values_getitem sid stateid hoy in ret (cell_direct c))
                     hs)
                  invalid_hoy)); done.
  - apply (reader_unknown_name
             (fun sid stateid => try_except (values_getitem sid stateid hoy) invalid_hoy));
      done.
  - apply (reader_unknown_name
             (fun sid stateid =>
                try_except (map_m (values_getitem sid stateid) hs) invalid_hoy)); done.
Qed.

Lemma readers_reject_unknown_names_witness :
  (value 0 (PStr "B") (PStr "shut") three_sources
     = (Raise (ValueError InvalidState), three_sources) ∧
   directValue 0 (PStr "B") (PStr "shut") three_sources
     = (Raise (ValueError InvalidState), three_sources) ∧
   values [0; 1] (PStr "B") (PStr "shut") three_sources
     = (Raise (ValueError InvalidState), three_sources) ∧
   directValues [0; 1] (PStr "B") (PStr "shut") three_sources
     = (Raise (ValueError InvalidState), three_sources) ∧
   coupledValue 0 (PStr "B") (PStr "shut") three_sources
     = (Raise (ValueError InvalidState), three_sources) ∧
   coupledValues [0; 1] (PStr "B") (PStr "shut") three_sources
     = (Raise (ValueError InvalidState), three_sources)) ∧
  (value 0 (PStr "D") (PStr "3") three_sources
     = (Raise (ValueError InvalidSource), three_sources) ∧
   directValue 0 (PStr "D") (PStr "3") three_sources
     = (Raise (ValueError InvalidSource), three_sources) ∧
   values [0; 1] (PStr "D") (PStr "3") three_sources
     = (Raise (ValueError InvalidSource), three_sources) ∧
   directValues [0; 1] (PStr "D") (PStr "3") three_sources
     = (Raise (ValueError InvalidSource), three_sources) ∧
   coupledValue 0 (PStr "D") (PStr "3") three_sources
     = (Raise (ValueError InvalidSource), three_sources) ∧
   coupledValues [0; 1] (PStr "D") (PStr "3") three_sources
     = (Raise (ValueError InvalidSource), three_sources)).
Proof.
  split.
  - apply (readers_reject_unknown_names three_sources (PStr "B") (PStr "shut") 0 [0; 1]).
    + right. reflexivity.
    + intros e He. vm_compute in He. injection He as <-. simpl.
      rewrite !not_elem_of_cons. repeat split; try discriminate. apply not_elem_of_nil.
  - apply (readers_reject_unknown_names three_sources (PStr "D") (PStr "3") 0 [0; 1]).
    + left. vm_compute. reflexivity.
    + intros e He. vm_compute in He. discriminate.
Defined.

(** ** Stores that answer alike *)

#[global] Instance same_reads_equivalence : Equivalence same_reads.
Proof.
  split.
  - intros s. split; [reflexivity|]. by split.
  - intros s s' ((Hs & Hf & Hl) & Hlen & Hv). by repeat split.
  - intros s1 s2 s3 (H12 & Hlen12 & Hv12) (H23 & Hlen23 & Hv23). split; [by etrans|].
    split; [congruence|]. intros i j h. by rewrite Hv23.
Qed.

Lemma py_index_lt len z n : py_index len z = Some n → (n < len)%nat.
Proof.
  unfold py_index. repeat case_decide; intros [= <-]; lia.
Qed.

Lemma values_series_inv v sid stateid i j row d :
  values_series v sid stateid = Some (i, j, row, d) →
  v !! i = Some row ∧ row !! j = Some d.
Proof.
  unfold values_series.
  destruct (py_index _ sid) as [i'|]; [|done].
  destruct (v !! i') as [row'|] eqn:Hrow; [|done].
  destruct (py_index _ stateid) as [j'|]; [|done].
  destruct (row' !! j') eqn:Hd; [|done]. by intros [= <- <- <- <-].
Qed.

(** The positions of a pair of ids depend on the lengths in the table
    only. *)
Lemma positions_by_shape v sid stateid :
  positions v sid stateid
  = match py_index (length v) sid with
    | Some i =>
        match map length v !! i with
        | Some len =>
            match py_index len stateid with
            | Some j => Some (i, j)
            | None => None
            end
        | None => None
        end
    | None => None
    end.
Proof.
  unfold positions, values_series.
  destruct (py_index _ sid) as [i|]; [|done].
  rewrite list_lookup_fmap. destruct (v !! i) as [row|]; simpl; [|done].
  destruct (py_index _ stateid) as [j|] eqn:Hj; [|done].
  destruct (lookup_lt_is_Some_2 row j (py_index_lt _ _ _ Hj)) as [d ->]. done.
Qed.

Lemma positions_same_reads s s' sid stateid :
  same_reads s s' → positions (_values s') sid stateid = positions (_values s) sid stateid.
Proof.
  intros (_ & Hlen & _). rewrite !positions_by_shape, Hlen.
  by rewrite <- (length_map length (_values s')), Hlen, length_map.
Qed.

Lemma positions_series s sid stateid i j :
  positions (_values s) sid stateid = Some (i, j) → is_Some (series s i j).
Proof.
  unfold positions.
  destruct (values_series _ _ _) as [[[[i' j'] row] d]|] eqn:E; [|done].
  intros [= <- <-]. destruct (values_series_inv _ _ _ _ _ _ _ E) as [Hrow Hd].
  unfold series. rewrite Hrow. eauto.
Qed.

(** What a look-up returns, by the view of the store. *)
Lemma values_getitem_outcome s sid stateid hoy :
  outcome (values_getitem sid stateid hoy) s
  = match positions (_values s) sid stateid with
    | Some (i, j) =>
        match view s i j hoy with
        | Some c => Ok c
        | None => Raise IndexError
        end
    | None => Raise IndexError
    end.
Proof.
  unfold outcome, values_getitem, positions, view, series.
  destruct (values_series _ _ _) as [[[[i j] row] d]|] eqn:E; [|done].
  destruct (values_series_inv _ _ _ _ _ _ _ E) as [-> ->].
  by destruct (d !! hoy).
Qed.

Lemma reads_same_getitem sid stateid hoy : reads_same (values_getitem sid stateid hoy).
Proof.
  intros s s' H. rewrite !values_getitem_outcome, (positions_same_reads s s') by done.
  destruct (positions _ _ _) as [[i j]|]; [|done].
  destruct H as (_ & _ & Hv). by rewrite Hv.
Qed.

(** A look-up leaves a store that answers as before. *)
Lemma same_reads_getitem sid stateid hoy : steps same_reads (values_getitem sid stateid hoy).
Proof.
  intros s. unfold after, values_getitem.
  destruct (values_series _ _ _) as [[[[i j] row] d]|] eqn:E; simpl; [|reflexivity].
  destruct (d !! hoy) as [c|] eqn:Hh; simpl; [reflexivity|].
  destruct (values_series_inv _ _ _ _ _ _ _ E) as [Hrow Hd].
  split; [done|]. split; simpl.
  - rewrite list_fmap_insert, length_insert.
    apply list_insert_id. by rewrite list_lookup_fmap, Hrow.
  - intros i' j' h'. unfold view, series. simpl.
    destruct (decide (i' = i)) as [->|Hi].
    + rewrite list_lookup_insert_eq by (by eapply lookup_lt_Some). rewrite Hrow.
      destruct (decide (j' = j)) as [->|Hj].
      * rewrite list_lookup_insert_eq by (by eapply lookup_lt_Some). rewrite Hd.
        f_equal. destruct (decide (h' = hoy)) as [->|Hne].
        -- by rewrite lookup_insert_eq, Hh.
        -- by rewrite lookup_insert_ne.
      * by rewrite list_lookup_insert_ne.
    + by rewrite list_lookup_insert_ne.
Qed.

(** ** Reading operations *)

Lemma reader_ret {A} (a : A) : reader (ret a).
Proof. split; [apply (steps_ret same_reads)|by intros s s' _]. Qed.

Lemma reader_raise {A} (e : exn) : reader (@raise A e).
Proof. split; [apply (steps_raise same_reads)|by intros s s' _]. Qed.

Lemma reader_of_option {A} (o : option A) (e : exn) : reader (of_option o e).
Proof. destruct o; [apply reader_ret|apply reader_raise]. Qed.

Lemma reader_bind {A B} (m : M A) (k : A → M B) :
  reader m → (∀ a, reader (k a)) → reader (bind m k).
Proof.
  intros [Hm Hm'] Hk. split.
  - apply (steps_bind same_reads); [done|]. intros a. apply Hk.
  - intros s s' Hss. specialize (Hm' s s' Hss).
    pose proof (Hm s) as H1. pose proof (Hm s') as H2.
    unfold outcome, after, bind in *.
    destruct (m s) as [[a|e] s1], (m s') as [[a'|e'] s1']; simpl in *; try congruence.
    injection Hm' as ->. apply (Hk a).
    etrans; [symmetry; exact H1|]. etrans; [exact Hss|exact H2].
Qed.

Lemma reader_try_except {A} (m : M A) (h : exn → option (M A)) :
  reader m → (∀ e k, h e = Some k → reader k) → reader (try_except m h).
Proof.
  intros [Hm Hm'] Hh. split.
  - apply (steps_try_except same_reads); [done|]. intros e k Hk. by apply (Hh e k).
  - intros s s' Hss. specialize (Hm' s s' Hss).
    pose proof (Hm s) as H1. pose proof (Hm s') as H2.
    unfold outcome, after, try_except in *.
    destruct (m s) as [[a|e] s1], (m s') as [[a'|e'] s1']; simpl in *; try congruence.
    injection Hm' as ->. destruct (h e) as [k|] eqn:E; [|done].
    apply (Hh e k E). etrans; [symmetry; exact H1|]. etrans; [exact Hss|exact H2].
Qed.

Lemma reader_map_m {A B} (f : A → M B) (l : list A) :
  (∀ x, reader (f x)) → reader (map_m f l).
Proof.
  intros Hf. induction l as [|x r IH]; simpl.
  - apply reader_ret.
  - apply reader_bind; [apply Hf|]. intros y.
    apply reader_bind; [apply IH|]. intros ys. apply reader_ret.
Qed.

(** An operation that starts from the store itself reads, if what it
    takes from the store is the same on stores that answer alike. *)
Lemma reader_get_bind {A} (k : AnalysisPoint → M A) :
  (∀ s0, reader (k s0)) → (∀ s s', same_reads s s' → k s' = k s) →
  reader (bind get k).
Proof.
  intros Hk Heq. split.
  - apply (steps_bind same_reads); [apply (steps_get same_reads)|]. intros s0. apply Hk.
  - intros s s' Hss. unfold outcome, bind, get. simpl.
    rewrite (Heq s s' Hss). by apply (Hk s).
Qed.

Lemma reader_getitem sid stateid hoy : reader (values_getitem sid stateid hoy).
Proof. split; [apply same_reads_getitem|apply reads_same_getitem]. Qed.

Lemma reader_sources_getitem source : reader (sources_getitem source).
Proof.
  apply reader_get_bind; [intros s0; apply reader_of_option|].
  intros s s' ((Hs & _) & _). by rewrite Hs.
Qed.

Lemma reader_sourceId source : reader (sourceId source).
Proof.
  apply reader_try_except.
  - apply reader_bind; [apply reader_sources_getitem|]. intros e. apply reader_ret.
  - intros e k Hk. destruct e; simpl in Hk; try done. injection Hk as <-.
    apply reader_raise.
Qed.

Lemma reader_blindStateId source state : reader (blindStateId source state).
Proof.
  unfold blindStateId. destruct (isdigit state); [apply reader_ret|].
  apply reader_try_except.
  - apply reader_bind; [apply reader_sources_getitem|]. intros e.
    apply reader_bind; [apply reader_of_option|]. intros i. apply reader_ret.
  - intros e k Hk. destruct e; simpl in Hk; try done. injection Hk as <-.
    apply reader_raise.
Qed.

Lemma reader_invalid_hoy {A} (m : M A) : reader m → reader (try_except m invalid_hoy).
Proof.
  intros Hm. apply reader_try_except; [done|].
  intros e k Hk. destruct e; simpl in Hk; try done. injection Hk as <-.
  apply reader_raise.
Qed.

Lemma reader_invalid_input {A} (m : M A) : reader m → reader (try_except m invalid_input).
Proof.
  intros Hm. apply reader_try_except; [done|].
  intros e k [= <-]. apply reader_raise.
Qed.

(** A reader by name. *)
Lemma reader_by_name {A} source state (m : Z → Z → M A) :
  (∀ sid stateid, reader (m sid stateid)) →
  reader (let* sid := sourceId source in
          let* stateid := blindStateId source state in
          try_except (m sid stateid) invalid_hoy).
Proof.
  intros Hm.
  apply reader_bind; [apply reader_sourceId|]. intros sid.
  apply reader_bind; [apply reader_blindStateId|]. intros stateid.
  apply reader_invalid_hoy, Hm.
Qed.

Lemma reader_total sid stateid hoy :
  reader (let* c := values_getitem sid stateid hoy in ret (cell_total c)).
Proof. apply reader_bind; [apply reader_getitem|]. intros c. apply reader_ret. Qed.

Lemma reader_direct sid stateid hoy :
  reader (let* c := values_getitem sid stateid hoy in ret (cell_direct c)).
Proof. apply reader_bind; [apply reader_getitem|]. intros c. apply reader_ret. Qed.

Lemma reader_source_sample hoy sid stateid : reader (source_sample hoy sid stateid).
Proof.
  unfold source_sample. destruct (decide _); [apply reader_ret|].
  apply reader_try_except.
  - destruct stateid as [|z|str]; try apply reader_raise.
    apply reader_bind; [apply reader_getitem|]. intros c. apply reader_ret.
  - intros e k [= <-]. apply reader_raise.
Qed.

Lemma reader_combine_sources hoy ids : ∀ sid acc, reader (combine_sources hoy sid ids acc).
Proof.
  induction ids as [|stateid r IH]; intros sid acc; simpl.
  - apply reader_ret.
  - apply reader_bind; [apply reader_source_sample|]. intros td. apply IH.
Qed.

Lemma reader_combinedValueById hoy blindsStateIds :
  reader (combinedValueById hoy blindsStateIds).
Proof.
  apply reader_get_bind.
  - intros s0. simpl. destruct (decide _); [apply reader_combine_sources|apply reader_raise].
  - intros s s' ((Hs & Hf & _) & _). unfold initial_direct. by rewrite Hs, Hf.
Qed.

Lemma same_reads_hoys : steps same_reads hoys.
Proof.
  apply (steps_bind same_reads); [apply (steps_get same_reads)|]. intros s0.
  destruct (hasValues s0); [|apply (steps_ret same_reads)].
  apply (steps_bind same_reads); [apply (steps_of_option same_reads)|]. intros row.
  apply (steps_bind same_reads); [apply (steps_of_option same_reads)|]. intros d.
  apply (steps_ret same_reads).
Qed.

Lemma same_reads_longestStateIds : steps same_reads longestStateIds.
Proof.
  apply (steps_bind same_reads); [apply (steps_get same_reads)|]. intros s0. simpl.
  apply (steps_bind same_reads); [apply (steps_of_option same_reads)|]. intros m.
  apply (steps_ret same_reads).
Qed.

Lemma same_reads_sources : steps same_reads sources.
Proof.
  apply (steps_bind same_reads); [apply (steps_get same_reads)|]. intros s0.
  generalize (map PInt (py_range (Z.of_nat (length (_sources s0))))).
  induction (iteritems (_sources s0)) as [|[name d] items IH]; intros srcs.
  - apply (steps_ret same_reads).
  - apply (steps_bind same_reads); [apply (steps_of_option same_reads)|]. intros srcs'.
    apply IH.
Qed.

Lemma same_reads_combined_rows dirValue ids hs :
  steps_gen same_reads (combined_rows dirValue ids hs).
Proof.
  induction hs as [|hoy r IH]; intros s; simpl; [reflexivity|].
  destruct (py_getitem ids hoy) as [row|]; simpl; [|reflexivity].
  pose proof (proj1 (reader_combine_sources hoy row 0%nat (0%Q, dirValue)) s) as H1.
  unfold after in H1.
  destruct (combine_sources hoy 0 row (0%Q, dirValue) s) as [[p|e] s1]; simpl in *; [|done].
  specialize (IH s1). destruct (combined_rows dirValue ids r s1) as [[ps e] s2].
  simpl in *. by etrans.
Qed.

Lemma same_reads_combinedValuesById hoys_arg blindsStateIds :
  steps_gen same_reads (combinedValuesById hoys_arg blindsStateIds).
Proof.
  intros s. unfold combinedValuesById.
  assert (Hh : ∀ l : list Z, same_reads s
            (let '(r, s') := ((Ok l, s) : result (list Z) * AnalysisPoint) in
             match r with
             | Raise e => (([] : list (Q * pynum), Some e), s')
             | Ok hs =>
                 let ids := or_else blindsStateIds
                              (replicate (length hs)
                                 (replicate (length (_sources s')) (PInt 0))) in
                 if decide (length hs = length ids)
                 then combined_rows (initial_direct s') ids hs s'
                 else (([], Some AssertionError), s')
             end).2).
  { intros l. simpl. destruct (decide _); [apply same_reads_combined_rows|reflexivity]. }
  assert (Hn : same_reads s
            (let '(r, s') := hoys s in
             match r with
             | Raise e => (([] : list (Q * pynum), Some e), s')
             | Ok hs =>
                 let ids := or_else blindsStateIds
                              (replicate (length hs)
                                 (replicate (length (_sources s')) (PInt 0))) in
                 if decide (length hs = length ids)
                 then combined_rows (initial_direct s') ids hs s'
                 else (([], Some AssertionError), s')
             end).2).
  { pose proof (same_reads_hoys s) as H1. unfold after in H1.
    destruct (hoys s) as [[hs|e] s1]; simpl in *; [|done].
    destruct (decide _); [|done]. etrans; [exact H1|]. apply same_reads_combined_rows. }
  destruct hoys_arg as [[|h l]|]; [exact Hn|apply Hh|exact Hn].
Qed.

Lemma same_reads_resolve_comb srcs comb :
  ∀ count row, steps same_reads (resolve_comb srcs count comb row).
Proof.
  induction srcs as [|source r IH]; intros count row; simpl.
  - apply (steps_ret same_reads).
  - apply (steps_bind same_reads); [apply (steps_of_option same_reads)|]. intros name.
    apply (steps_bind same_reads); [apply reader_blindStateId|]. intros id. apply IH.
Qed.

Lemma same_reads_candidates blindsStateIds : steps same_reads (candidates blindsStateIds).
Proof.
  assert (Hl : steps same_reads (let* ids := longestStateIds in ret (map (map PInt) ids))).
  { apply (steps_bind same_reads); [apply same_reads_longestStateIds|]. intros ids.
    apply (steps_ret same_reads). }
  destruct blindsStateIds as [[|cc ccs]|]; unfold candidates; cbv beta iota;
    try exact Hl.
  apply (steps_bind same_reads); [apply same_reads_sources|]. intros srcs.
  apply (steps_try_except same_reads).
  - apply (steps_map_m same_reads). intros comb. apply same_reads_resolve_comb.
  - intros e k Hk. destruct e; simpl in Hk; try done. injection Hk as <-.
    apply (steps_raise same_reads).
Qed.

Lemma same_reads_first_rejected lg h results :
  ∀ state last, steps same_reads (first_rejected lg h state results last).
Proof.
  induction results as [|r rest IH]; intros state last; simpl.
  - apply (steps_ret same_reads).
  - apply (steps_bind same_reads); [apply (steps_of_option same_reads)|].
    intros [ill ill_dir]. destruct (negb _); [apply (steps_ret same_reads)|apply IH].
Qed.

Lemma same_reads_set_at {A} (l : list A) h x : steps same_reads (set_at l h x).
Proof. apply (steps_of_option same_reads). Qed.

Lemma same_reads_select_hour lg results h st : steps same_reads (select_hour lg results h st).
Proof.
  unfold select_hour. destruct st as [sel last].
  apply (steps_bind same_reads); [apply same_reads_first_rejected|].
  intros [found last']. destruct found as [state|].
  - apply (steps_bind same_reads); [apply (steps_of_option same_reads)|]. intros [ill ill_dir].
    apply (steps_bind same_reads); [apply same_reads_set_at|]. intros bi.
    apply (steps_bind same_reads); [apply same_reads_set_at|]. intros iv.
    apply (steps_bind same_reads); [apply same_reads_set_at|]. intros dv.
    apply (steps_bind same_reads).
    + destruct (decide _); [apply same_reads_set_at|apply (steps_ret same_reads)].
    + intros su. apply (steps_ret same_reads).
  - apply (steps_bind same_reads); [apply same_reads_set_at|]. intros su.
    apply (steps_bind same_reads); [apply (steps_of_option same_reads)|]. intros [ill ill_dir].
    apply (steps_bind same_reads); [apply same_reads_set_at|]. intros iv.
    apply (steps_bind same_reads); [apply same_reads_set_at|]. intros dv.
    apply (steps_ret same_reads).
Qed.

Lemma same_reads_select_hours lg results hs :
  ∀ st, steps same_reads (select_hours lg results hs st).
Proof.
  induction hs as [|h r IH]; intros st; simpl.
  - apply (steps_ret same_reads).
  - apply (steps_bind same_reads); [apply same_reads_select_hour|]. intros st'. apply IH.
Qed.

Lemma same_reads_blindsState hoys_arg blindsStateIds :
  steps same_reads (blindsState hoys_arg blindsStateIds).
Proof.
  unfold blindsState.
  apply (steps_bind same_reads).
  { destruct hoys_arg as [[|h l]|]; try apply same_reads_hoys. apply (steps_ret same_reads). }
  intros hs.
  apply (steps_bind same_reads); [apply same_reads_candidates|]. intros combIds.
  apply (steps_bind same_reads).
  { apply (steps_map_m same_reads). intros state.
    apply (steps_tuple_of same_reads), same_reads_combinedValuesById. }
  intros results. simpl.
  apply (steps_bind same_reads); [apply (steps_get same_reads)|]. intros s0.
  apply (steps_bind same_reads); [apply same_reads_select_hours|]. intros st. simpl.
  apply (steps_bind same_reads).
  { apply (steps_map_m same_reads). intros ids. apply (steps_of_option same_reads). }
  intros bs. apply (steps_ret same_reads).
Qed.

Lemma same_reads_py_div a b : steps same_reads (py_div a b).
Proof.
  unfold py_div. destruct (num_eq b 0);
    [apply (steps_raise same_reads)|apply (steps_ret same_reads)].
Qed.

Lemma same_reads_metric_inputs blindsStateIds occSchedule :
  steps same_reads (metric_inputs blindsStateIds occSchedule).
Proof.
  apply (steps_bind same_reads); [apply same_reads_hoys|]. intros hours. simpl.
  apply (steps_bind same_reads).
  { apply (steps_tuple_of same_reads), same_reads_combinedValuesById. }
  intros pairs. apply (steps_ret same_reads).
Qed.

Lemma same_reads_daylightAutonomy thr ids occ :
  steps same_reads (daylightAutonomy thr ids occ).
Proof.
  unfold daylightAutonomy. simpl.
  apply (steps_bind same_reads); [apply same_reads_metric_inputs|].
  intros [[hours schedule] values].
  destruct (da_loop _ _ _ _ _) as [c n]. simpl.
  apply (steps_bind same_reads); [apply same_reads_py_div|]. intros da.
  apply (steps_bind same_reads); [apply same_reads_py_div|]. intros cda.
  apply (steps_ret same_reads).
Qed.

Lemma same_reads_usefulDaylightIlluminance bounds ids occ :
  steps same_reads (usefulDaylightIlluminance bounds ids occ).
Proof.
  unfold usefulDaylightIlluminance. destruct (default _ bounds) as [lo hi].
  apply (steps_bind same_reads); [apply same_reads_metric_inputs|].
  intros [[hours schedule] values].
  destruct (udi_loop _ _ _ _ _ _) as [u n]. simpl.
  apply (steps_bind same_reads); [apply same_reads_py_div|]. intros x1.
  apply (steps_bind same_reads); [apply same_reads_py_div|]. intros x2.
  apply (steps_bind same_reads); [apply same_reads_py_div|]. intros x3.
  apply (steps_ret same_reads).
Qed.

Lemma same_reads_annualMetrics thr bounds ids occ :
  steps same_reads (annualMetrics thr bounds ids occ).
Proof.
  unfold annualMetrics. simpl. destruct (default _ bounds) as [lo hi].
  apply (steps_bind same_reads); [apply same_reads_metric_inputs|].
  intros [[hours schedule] values].
  destruct (annual_loop _ _ _ _ _ _ _ _) as [[c u] n]. simpl.
  apply (steps_bind same_reads); [apply same_reads_py_div|]. intros x1.
  apply (steps_bind same_reads); [apply same_reads_py_div|]. intros x2.
  apply (steps_bind same_reads); [apply same_reads_py_div|]. intros x3.
  apply (steps_bind same_reads); [apply same_reads_py_div|]. intros x4.
  apply (steps_bind same_reads); [apply same_reads_py_div|]. intros x5.
  apply (steps_ret same_reads).
Qed.

(** ** What reading leaves and what it returns *)

(** X7.  No reading operation changes an answer of the store: after a
    scalar or batch reader by name or by id, a combined value, the
    generator of combined values, [hoys], [sources], [longestStateIds],
    [blindsState] or an annual metric, returned or raised, the sources,
    their states and ids, the direct flag and the rule are as before, the
    table has the same series, and every series holds the same sample for
    every hour, a missing hour counting as the default [[None, None]].
    What may change is the set of hour keys alone. *)
Theorem reading_keeps_every_answer (s : AnalysisPoint) (hoy : Z) (hs : list Z)
    (source state : pyval) (source_id state_id : option Z)
    (ids : option (list pyval)) (hoys_arg : option (list Z))
    (matrix : option (list (list pyval))) (names : option (list string))
    (thr : option Q) (bounds : option (Q * Q)) (occ : option (list Q)) :
  same_reads s (after hoys s) ∧
  same_reads s (after sources s) ∧
  same_reads s (after longestStateIds s) ∧
  same_reads s (after (sourceId source) s) ∧
  same_reads s (after (blindStateId source state) s) ∧
  same_reads s (after (value hoy source state) s) ∧
  same_reads s (after (directValue hoy source state) s) ∧
  same_reads s (after (values hs source state) s) ∧
  same_reads s (after (directValues hs source state) s) ∧
  same_reads s (after (coupledValue hoy source state) s) ∧
  same_reads s (after (coupledValues hs source state) s) ∧
  same_reads s (after (coupledValueById hoy source_id state_id) s) ∧
  same_reads s (after (coupledValuesById hs source_id state_id) s) ∧
  same_reads s (after (combinedValueById hoy ids) s) ∧
  same_reads s (combinedValuesById hoys_arg matrix s).2 ∧
  same_reads s (after (blindsState hoys_arg names) s) ∧
  same_reads s (after (daylightAutonomy thr matrix occ) s) ∧
  same_reads s (after (usefulDaylightIlluminance bounds matrix occ) s) ∧
  same_reads s (after (annualMetrics thr bounds matrix occ) s).
Proof.
  split_and!.
  - apply same_reads_hoys.
  - apply same_reads_sources.
  - apply same_reads_longestStateIds.
  - apply reader_sourceId.
  - apply reader_blindStateId.
  - apply (reader_by_name source state (fun sid stateid =>
             let* c := values_getitem sid stateid hoy in ret (cell_total c))).
    intros sid stateid. apply reader_total.
  - apply (reader_by_name source state (fun sid stateid =>
             let* c := values_getitem sid stateid hoy in ret (cell_direct c))).
    intros sid stateid. apply reader_direct.
  - apply (reader_by_name source state (fun sid stateid =>
             map_m (fun hoy => let* c := values_getitem sid stateid hoy in
                               ret (cell_total c)) hs)).
    intros sid stateid. apply reader_map_m. intros h. apply reader_total.
  - apply (reader_by_name source state (fun sid stateid =>
             map_m (fun hoy => let* c := values_getitem sid stateid hoy in
                               ret (cell_direct c)) hs)).
    intros sid stateid. apply reader_map_m. intros h. apply reader_direct.
  - apply (reader_by_name source state (fun sid stateid =>
             values_getitem sid stateid hoy)).
    intros sid stateid. apply reader_getitem.
  - apply (reader_by_name source state (fun sid stateid =>
             map_m (values_getitem sid stateid) hs)).
    intros sid stateid. apply reader_map_m. intros h. apply reader_getitem.
  - apply (reader_invalid_input (values_getitem _ _ hoy)), reader_getitem.
  - apply (reader_invalid_input (map_m (values_getitem _ _) hs)), reader_map_m.
    intros h. apply reader_getitem.
  - apply reader_combinedValueById.
  - apply same_reads_combinedValuesById.
  - apply same_reads_blindsState.
  - apply same_reads_daylightAutonomy.
  - apply same_reads_usefulDaylightIlluminance.
  - apply same_reads_annualMetrics.
Qed.

(** X8.  What the readers of samples return is decided by the answers of
    the store: on two stores that answer alike (such as a store before and
    after any reading operation) the scalar and batch readers by name and by
    id and [combinedValueById] return the same value or raise the same
    exception. *)
Theorem answers_decide_what_is_read (s s' : AnalysisPoint) (hoy : Z) (hs : list Z)
    (source state : pyval) (source_id state_id : option Z)
    (ids : option (list pyval)) :
  same_reads s s' →
  outcome (value hoy source state) s' = outcome (value hoy source state) s ∧
  outcome (directValue hoy source state) s' = outcome (directValue hoy source state) s ∧
  outcome (values hs source state) s' = outcome (values hs source state) s ∧
  outcome (directValues hs source state) s' = outcome (directValues hs source state) s ∧
  outcome (coupledValue hoy source state) s' = outcome (coupledValue hoy source state) s ∧
  outcome (coupledValues hs source state) s' = outcome (coupledValues hs source state) s ∧
  outcome (coupledValueById hoy source_id state_id) s'
    = outcome (coupledValueById hoy source_id state_id) s ∧
  outcome (coupledValuesById hs source_id state_id) s'
    = outcome (coupledValuesById hs source_id state_id) s ∧
  outcome (combinedValueById hoy ids) s' = outcome (combinedValueById hoy ids) s.
Proof.
  intros H. split_and!.
  - apply (reader_by_name source state (fun sid stateid =>
             let* c := values_getitem sid stateid hoy in ret (cell_total c)));
      [|done]. intros sid stateid. apply reader_total.
  - apply (reader_by_name source state (fun sid stateid =>
             let* c := values_getitem sid stateid hoy in ret (cell_direct c)));
      [|done]. intros sid stateid. apply reader_direct.
  - apply (reader_by_name source state (fun sid stateid =>
             map_m (fun hoy => let* c := values_getitem sid stateid hoy in
                               ret (cell_total c)) hs)); [|done].
    intros sid stateid. apply reader_map_m. intros h. apply reader_total.
  - apply (reader_by_name source state (fun sid stateid =>
             map_m (fun hoy => let* c := values_getitem sid stateid hoy in
                               ret (cell_direct c)) hs)); [|done].
    intros sid stateid. apply reader_map_m. intros h. apply reader_direct.
  - apply (reader_by_name source state (fun sid stateid =>
             values_getitem sid stateid hoy)); [|done].
    intros sid stateid. apply reader_getitem.
  - apply (reader_by_name source state (fun sid stateid =>
             map_m (values_getitem sid stateid) hs)); [|done].
    intros sid stateid. apply reader_map_m. intros h. apply reader_getitem.
  - apply (reader_invalid_input (values_getitem _ _ hoy)); [apply reader_getitem|done].
  - apply (reader_invalid_input (map_m (values_getitem _ _) hs)); [|done].
    apply reader_map_m. intros h. apply reader_getitem.
  - by apply reader_combinedValueById.
Qed.

(** The store after a look-up of the missing hour 99 holds that hour as a
    key; the readers return on it what they return on the store before. *)
Lemma answers_decide_what_is_read_witness :
  hour_keys one_sample = [[[1]]] ∧
  hour_keys (after (value 99 PNone PNone) one_sample) = [[[1; 99]]] ∧
  same_reads one_sample (after (value 99 PNone PNone) one_sample) ∧
  (outcome (value 99 PNone PNone) (after (value 99 PNone PNone) one_sample)
     = outcome (value 99 PNone PNone) one_sample ∧
   outcome (directValue 99 PNone PNone) (after (value 99 PNone PNone) one_sample)
     = outcome (directValue 99 PNone PNone) one_sample ∧
   outcome (values [1; 99; 5] PNone PNone) (after (value 99 PNone PNone) one_sample)
     = outcome (values [1; 99; 5] PNone PNone) one_sample ∧
   outcome (directValues [1; 99; 5] PNone PNone) (after (value 99 PNone PNone) one_sample)
     = outcome (directValues [1; 99; 5] PNone PNone) one_sample ∧
   outcome (coupledValue 99 PNone PNone) (after (value 99 PNone PNone) one_sample)
     = outcome (coupledValue 99 PNone PNone) one_sample ∧
   outcome (coupledValues [1; 99; 5] PNone PNone) (after (value 99 PNone PNone) one_sample)
     = outcome (coupledValues [1; 99; 5] PNone PNone) one_sample ∧
   outcome (coupledValueById 99 None None) (after (value 99 PNone PNone) one_sample)
     = outcome (coupledValueById 99 None None) one_sample ∧
   outcome (coupledValuesById [1; 99; 5] None None)
       (after (value 99 PNone PNone) one_sample)
     = outcome (coupledValuesById [1; 99; 5] None None) one_sample ∧
   outcome (combinedValueById 99 None) (after (value 99 PNone PNone) one_sample)
     = outcome (combinedValueById 99 None) one_sample).
Proof.
  assert (Hs : same_reads one_sample (after (value 99 PNone PNone) one_sample)).
  { apply (proj1 (reader_by_name PNone PNone
                    (fun sid stateid =>
                       let* c := values_getitem sid stateid 99 in ret (cell_total c))
                    (fun sid stateid => reader_total sid stateid 99)) one_sample). }
  split; [vm_compute; reflexivity|]. split; [vm_compute; reflexivity|].
  split; [exact Hs|].
  apply (answers_decide_what_is_read one_sample (after (value 99 PNone PNone) one_sample)
           99 [1; 99; 5] PNone PNone None None None).
  exact Hs.
Defined.

(** ** The hours of the year *)

(** X9.  Where [hoys] returns, it returns the hours that are keys of the
    first state of the first source, each once and in increasing order (no
    hour for a point without values), and it leaves the store as it is. *)
Theorem hoys_are_the_sorted_keys (s : AnalysisPoint) (l : list Z) :
  outcome hoys s = Ok l →
  hoys s = (Ok l, s) ∧
  StronglySorted Z.le l ∧ NoDup l ∧
  ∀ h, h ∈ l ↔ is_Some (stored s 0 0 h).
Proof.
  unfold outcome, hoys, bind, get, stored, series. simpl.
  destruct (hasValues s) eqn:Hv.
  - unfold py_getitem.
    destruct (_values s) as [|row rows] eqn:Hvals; [done|]. simpl.
    destruct row as [|d ds]; simpl; [done|].
    intros [= <-]. split; [done|]. split; [|split].
    + apply StronglySorted_merge_sort; apply _.
    + unfold sorted_keys. rewrite merge_sort_Permutation. apply NoDup_fst_map_to_list.
    + intros h. unfold sorted_keys. rewrite merge_sort_Permutation.
      rewrite list_elem_of_fmap. split.
      * intros ([h' c] & -> & Hin). apply elem_of_map_to_list in Hin. by exists c.
      * intros [c Hc]. exists (h, c). split; [done|]. by apply elem_of_map_to_list.
  - intros [= <-]. split; [done|]. split; [constructor|]. split; [constructor|].
    intros h. unfold hasValues in Hv. apply negb_false_iff, bool_decide_eq_true in Hv.
    destruct (_values s); [|done]. simpl. split; [by intros ?%elem_of_nil|by intros [? ?]].
Qed.

Lemma hoys_are_the_sorted_keys_witness :
  hoys two_hours = (Ok [0; 1], two_hours) ∧
  StronglySorted Z.le [0; 1] ∧ NoDup [0; 1] ∧
  ∀ h, h ∈ [0; 1] ↔ is_Some (stored two_hours 0 0 h).
Proof. apply hoys_are_the_sorted_keys. vm_compute. reflexivity. Defined.

(** ** Reading by id and by name *)

Lemma id_or_0_nat (n : nat) : id_or_0 (Some (Z.of_nat n)) = Z.of_nat n.
Proof. unfold id_or_0. by destruct (decide _) as [->|]. Qed.

Lemma try_except_ok {A} (m : M A) (h : exn → option (M A)) s a :
  outcome m s = Ok a → try_except m h s = m s.
Proof. unfold outcome, try_except. destruct (m s) as [[a'|e] s1]; simpl; [done|discriminate]. Qed.

(** On a store with the invariant, known names have a series. *)
Lemma resolves_series s source state i j :
  wf s → resolves s source state i j → is_Some (series s i j).
Proof.
  intros [_ Hent] (e & Hget & Hid & Hj).
  destruct (dict_get_position _ _ _ Hget) as (p & Hp & _).
  destruct (Hent p source e Hp) as (Hid' & row & Hrow & Hrl).
  assert (p = i) as -> by congruence.
  destruct (list_index_lt _ _ _ Hj) as [Hlt _].
  unfold series. rewrite Hrow. apply lookup_lt_is_Some_2. lia.
Qed.

(** The look-up in a series that exists returns, and the series stays. *)
Lemma getitem_returns s i j hoy :
  is_Some (series s i j) →
  (∃ c, outcome (values_getitem (Z.of_nat i) (Z.of_nat j) hoy) s = Ok c) ∧
  is_Some (series (after (values_getitem (Z.of_nat i) (Z.of_nat j) hoy) s) i j).
Proof.
  intros [d Hd]. destruct (series_Some _ _ _ _ Hd) as (row & Hrow & Hdd).
  unfold outcome, after, values_getitem.
  rewrite (values_series_nat _ _ _ _ _ Hrow Hdd).
  destruct (d !! hoy) as [c|]; simpl; [by eauto|]. split; [by eauto|].
  unfold series. simpl.
  rewrite list_lookup_insert_eq by (by eapply lookup_lt_Some).
  rewrite list_lookup_insert_eq by (by eapply lookup_lt_Some). eauto.
Qed.

Lemma map_getitem_returns i j hs :
  ∀ s, is_Some (series s i j) →
       ∃ cs, outcome (map_m (values_getitem (Z.of_nat i) (Z.of_nat j)) hs) s = Ok cs.
Proof.
  induction hs as [|h r IH]; intros s Hs; simpl; [by eexists|].
  destruct (getitem_returns s i j h Hs) as [[c Hc] Hs'].
  unfold outcome, after, bind in *.
  destruct (values_getitem _ _ h s) as [[c'|e] s1]; simpl in *; [|done].
  destruct (IH s1 Hs') as [cs Hcs].
  destruct (map_m _ r s1) as [[cs'|e] s2]; simpl in *; [by eexists|done].
Qed.

(** X10.  On a store with the writers' invariant, reading by the ids of a
    source and state returns exactly what reading by their names returns
    (for a state name that does not print as digits), for one hour and for
    several, and leaves the same store; both return and neither raises. *)
Theorem reading_by_id_agrees_with_by_name (s : AnalysisPoint) (source state : pyval)
    (i j : nat) (hoy : Z) (hs : list Z) :
  wf s → resolves s source state i j → isdigit state = false →
  coupledValueById hoy (Some (Z.of_nat i)) (Some (Z.of_nat j)) s
    = coupledValue hoy source state s ∧
  coupledValuesById hs (Some (Z.of_nat i)) (Some (Z.of_nat j)) s
    = coupledValues hs source state s ∧
  (∃ c, outcome (coupledValue hoy source state) s = Ok c) ∧
  (∃ cs, outcome (coupledValues hs source state) s = Ok cs).
Proof.
  intros Hwf Hres Hdig.
  pose proof (resolves_series _ _ _ _ _ Hwf Hres) as Hser.
  destruct Hres as (e & Hget & Hid & Hj).
  destruct (getitem_returns s i j hoy Hser) as [[c Hc] _].
  destruct (map_getitem_returns i j hs s Hser) as [cs Hcs].
  assert (Hname : ∀ A (m : Z → Z → M A),
    (let* sid := sourceId source in
     let* stateid := blindStateId source state in
     try_except (m sid stateid) invalid_hoy) s
    = try_except (m (Z.of_nat i) (Z.of_nat j)) invalid_hoy s).
  { intros A m. unfold bind at 1, sourceId, try_except at 1, bind at 1, sources_getitem,
      bind at 1. simpl. rewrite Hget. simpl.
    unfold bind at 1, blindStateId. rewrite Hdig.
    unfold try_except at 1, bind at 1, sources_getitem, bind at 1. simpl.
    rewrite Hget. simpl. rewrite Hj. simpl. by rewrite Hid. }
  unfold outcome, coupledValueById, coupledValuesById, coupledValue, coupledValues.
  rewrite !id_or_0_nat.
  rewrite (Hname _ (fun sid stateid => values_getitem sid stateid hoy)).
  rewrite (Hname _ (fun sid stateid => map_m (values_getitem sid stateid) hs)).
  rewrite !(try_except_ok _ _ _ _ Hc), !(try_except_ok _ _ _ _ Hcs).
  split_and!; [done|done|by exists c|by exists cs].
Qed.

Lemma reading_by_id_agrees_with_by_name_witness :
  coupledValueById 0 (Some (Z.of_nat 1)) (Some (Z.of_nat 2)) three_sources
    = coupledValue 0 (PStr "B") (PStr "b2") three_sources ∧
  coupledValuesById [0; 5] (Some (Z.of_nat 1)) (Some (Z.of_nat 2)) three_sources
    = coupledValues [0; 5] (PStr "B") (PStr "b2") three_sources ∧
  (∃ c, outcome (coupledValue 0 (PStr "B") (PStr "b2")) three_sources = Ok c) ∧
  (∃ cs, outcome (coupledValues [0; 5] (PStr "B") (PStr "b2")) three_sources = Ok cs).
Proof.
  apply reading_by_id_agrees_with_by_name.
  - apply three_sources_invariant.
  - exists (mk_entry 1 [PStr "b0"; PStr "b1"; PStr "b2"; PStr "b3"]).
    vm_compute. repeat split; reflexivity.
  - reflexivity.
Defined.

Lemma getitem_at_positions s sid stateid i j hoy :
  positions (_values s) sid stateid = Some (i, j) →
  ∃ c, view s i j hoy = Some c ∧ outcome (values_getitem sid stateid hoy) s = Ok c.
Proof.
  intros Hpos. rewrite values_getitem_outcome, Hpos.
  destruct (positions_series _ _ _ _ _ Hpos) as [d Hd].
  unfold view. rewrite Hd. by eexists.
Qed.

Lemma map_getitem_at_positions sid stateid i j hs :
  ∀ s, positions (_values s) sid stateid = Some (i, j) →
       ∃ cs, outcome (map_m (values_getitem sid stateid) hs) s = Ok cs ∧
             length cs = length hs ∧
             Forall2 (fun h c => view s i j h = Some c) hs cs.
Proof.
  induction hs as [|h r IH]; intros s Hpos; simpl.
  { exists []. split; [done|]. split; [done|]. constructor. }
  destruct (getitem_at_positions s sid stateid i j h Hpos) as (c & Hv & Hc).
  pose proof (same_reads_getitem sid stateid h s) as Hs.
  unfold outcome, after, bind in *.
  destruct (values_getitem sid stateid h s) as [[c'|e] s1]; simpl in *; [|done].
  injection Hc as ->.
  destruct (IH s1) as (cs & Hcs & Hl & Hall).
  { by rewrite (positions_same_reads s s1). }
  destruct (map_m _ r s1) as [[cs'|e] s2]; simpl in *; [|done].
  injection Hcs as ->. exists (c :: cs). split; [done|]. split; [simpl; by rewrite Hl|].
  constructor; [done|].
  destruct Hs as (_ & _ & Hview).
  eapply Forall2_impl; [exact Hall|]. intros h' c'' Hc''. simpl in Hc''.
  by rewrite <- Hview.
Qed.

(** X11.  [coupledValueById] and [coupledValuesById] raise nothing but
    'Invalid input'.  With ids that stand for no series (out of range from
    either end) they raise it, for at least one hour asked, and leave the
    store as it is; with the ids of a series they return, for every hour
    asked and in the order asked, the sample that the series holds for the
    hour, a missing hour reading as the default [[None, None]]. *)
Theorem reading_by_id_raises_invalid_input (s : AnalysisPoint) (hoy : Z) (hs : list Z)
    (source_id state_id : option Z) :
  match positions (_values s) (id_or_0 source_id) (id_or_0 state_id) with
  | None =>
      coupledValueById hoy source_id state_id s = (Raise (ValueError InvalidInput), s) ∧
      coupledValuesById (hoy :: hs) source_id state_id s
        = (Raise (ValueError InvalidInput), s)
  | Some (i, j) =>
      (∃ c, view s i j hoy = Some c ∧
            outcome (coupledValueById hoy source_id state_id) s = Ok c) ∧
      (∃ cs, outcome (coupledValuesById hs source_id state_id) s = Ok cs ∧
             length cs = length hs ∧
             Forall2 (fun h c => view s i j h = Some c) hs cs)
  end.
Proof.
  destruct (positions _ _ _) as [[i j]|] eqn:Hpos.
  - destruct (getitem_at_positions s _ _ i j hoy Hpos) as (c & Hv & Hc).
    destruct (map_getitem_at_positions _ _ i j hs s Hpos) as (cs & Hcs & Hl & Hall).
    split.
    + exists c. split; [done|].
      unfold outcome, coupledValueById. by rewrite (try_except_ok _ _ _ _ Hc).
    + exists cs. split; [|done].
      unfold outcome, coupledValuesById. by rewrite (try_except_ok _ _ _ _ Hcs).
  - unfold positions in Hpos.
    unfold coupledValueById, coupledValuesById, try_except. simpl.
    unfold bind, values_getitem.
    by destruct (values_series _ _ _) as [[[[i' j'] row] d]|].
Qed.

Lemma py_index_last {A} (l : list A) (x : A) :
  py_index (length (l ++ [x])) (-1) = Some (length l).
Proof.
  unfold py_index. rewrite length_app. change (length [x]) with 1%nat.
  repeat case_decide; try lia. f_equal. lia.
Qed.

(** X12.  Ids below zero count from the end, as in any Python list: with
    both ids -1 [coupledValueById] reads the last state of the last source
    (where [combinedValueById] takes -1 for a source that is left out). *)
Theorem reading_by_negative_id_wraps (s : AnalysisPoint) (hoy : Z)
    (rows : list (list (gmap Z cell))) (row : list (gmap Z cell)) (d : gmap Z cell) :
  _values s = rows ++ [row ++ [d]] →
  outcome (coupledValueById hoy (Some (-1)) (Some (-1))) s = Ok (default double (d !! hoy)).
Proof.
  intros Hv. unfold outcome, coupledValueById, try_except, values_getitem, values_series.
  change (id_or_0 (Some (-1))) with (-1). rewrite Hv.
  rewrite py_index_last. rewrite lookup_app_r by lia. rewrite Nat.sub_diag. simpl.
  rewrite py_index_last. rewrite lookup_app_r by lia. rewrite Nat.sub_diag. simpl.
  by destruct (d !! hoy).
Qed.

Lemma reading_by_negative_id_wraps_witness :
  outcome (coupledValueById 0 (Some (-1)) (Some (-1))) three_sources
  = Ok (default double (({[0 := CList (Some 1%Q) None]} : gmap Z cell) !! 0)).
Proof.
  apply (reading_by_negative_id_wraps three_sources 0
           [[ {[0 := CList (Some 1%Q) None]}; {[0 := CList (Some 1%Q) None]} ];
            [ {[0 := CList (Some 1%Q) None]}; {[0 := CList (Some 1%Q) None]};
              {[0 := CList (Some 1%Q) None]}; {[0 := CList (Some 1%Q) None]} ]]
           [] {[0 := CList (Some 1%Q) None]}).
  vm_compute. reflexivity.
Defined.

(** ** Combined values and the samples they add up *)

Lemma contribution_same_reads s s' hoy sid stateid :
  same_reads s s' → contribution s' hoy sid stateid = contribution s hoy sid stateid.
Proof.
  intros H. unfold contribution. destruct stateid as [|z|str]; try done.
  destruct (decide _); [done|].
  rewrite (positions_same_reads s s') by done.
  destruct (positions _ _ _) as [[i j]|]; [|done].
  destruct H as (_ & _ & Hv). by rewrite Hv.
Qed.

Lemma contributions_same_reads s s' hoy ids :
  same_reads s s' → ∀ sid, contributions s' hoy sid ids = contributions s hoy sid ids.
Proof.
  intros H. induction ids as [|stateid r IH]; intros sid; simpl; [done|].
  by rewrite (contribution_same_reads s s'), IH.
Qed.

(** One source is read as the store holds it; any failure is 'Invalid
    input'. *)
Lemma source_sample_outcome s hoy sid stateid :
  outcome (source_sample hoy sid stateid) s
  = match contribution s hoy sid stateid with
    | Some td => Ok td
    | None => Raise (ValueError InvalidInput)
    end.
Proof.
  unfold source_sample, contribution.
  destruct stateid as [|z|str]; try done.
  - destruct (decide (PInt z = PInt (-1))) as [[= ->]|Hne].
    + by rewrite decide_True.
    + rewrite decide_False by congruence.
      pose proof (values_getitem_outcome s (Z.of_nat sid) z hoy) as Hg.
      unfold outcome, try_except, bind in *.
      destruct (values_getitem (Z.of_nat sid) z hoy s) as [[c|e] s1]; simpl in *.
      * destruct (positions _ _ _) as [[i j]|]; [|done].
        destruct (view s i j hoy); [|done]. by injection Hg as ->.
      * destruct (positions _ _ _) as [[i j]|]; [|done].
        by destruct (view s i j hoy).
Qed.

(** The sources are read one after the other, and each as the store held
    it at the start. *)
Lemma combine_sources_outcome hoy ids :
  ∀ s sid acc,
    outcome (combine_sources hoy sid ids acc) s
    = match contributions s hoy sid ids with
      | Some tds => Ok (foldl add_sample acc tds)
      | None => Raise (ValueError InvalidInput)
      end.
Proof.
  induction ids as [|stateid r IH]; intros s sid acc; simpl; [done|].
  pose proof (source_sample_outcome s hoy sid stateid) as H1.
  pose proof (proj1 (reader_source_sample hoy sid stateid) s) as Hs.
  unfold outcome, after, bind in *.
  destruct (source_sample hoy sid stateid s) as [[td|e] s1]; simpl in *.
  - destruct (contribution s hoy sid stateid) as [td'|]; [|done].
    injection H1 as ->. rewrite IH, (contributions_same_reads s s1) by done.
    by destruct (contributions s hoy (S sid) r).
  - destruct (contribution s hoy sid stateid); [done|]. by injection H1 as ->.
Qed.

Lemma foldl_add_sample_sums tds :
  ∀ a x,
    ((foldl add_sample (a, x) tds).1 == a + Qsum (map total_part tds))%Q ∧
    match x with
    | Some dsum =>
        ∃ r, (foldl add_sample (a, x) tds).2 = Some r ∧
             (r == dsum + Qsum (map direct_part tds))%Q
    | None => (foldl add_sample (a, x) tds).2 = None
    end.
Proof.
  induction tds as [|[[t|] [d|]] tds IH]; intros a x; simpl.
  - split; [ring|]. destruct x as [dsum|]; [|done]. exists dsum. split; [done|ring].
  - destruct x as [dsum|]; simpl.
    + destruct (IH (a + t)%Q (Some (dsum + d)%Q)) as [Ht (r & Hr & Hd)].
      split; [rewrite Ht; unfold total_part; simpl; ring|].
      exists r. split; [done|]. rewrite Hd. ring.
    + destruct (IH (a + t)%Q None) as [Ht Hd].
      split; [rewrite Ht; unfold total_part; simpl; ring|done].
  - destruct x as [dsum|]; simpl.
    + destruct (IH (a + t)%Q (Some dsum)) as [Ht (r & Hr & Hd)].
      split; [rewrite Ht; unfold total_part; simpl; ring|].
      exists r. split; [done|]. rewrite Hd. ring.
    + destruct (IH (a + t)%Q None) as [Ht Hd].
      split; [rewrite Ht; unfold total_part; simpl; ring|done].
  - destruct x as [dsum|]; simpl.
    + destruct (IH a (Some dsum)) as [Ht (r & Hr & Hd)].
      split; [rewrite Ht; unfold total_part; simpl; ring|].
      exists r. split; [done|]. rewrite Hd. ring.
    + destruct (IH a None) as [Ht Hd].
      split; [rewrite Ht; unfold total_part; simpl; ring|done].
  - destruct x as [dsum|]; simpl.
    + destruct (IH a (Some dsum)) as [Ht (r & Hr & Hd)].
      split; [rewrite Ht; unfold total_part; simpl; ring|].
      exists r. split; [done|]. rewrite Hd. ring.
    + destruct (IH a None) as [Ht Hd].
      split; [rewrite Ht; unfold total_part; simpl; ring|done].
Qed.

Lemma contributions_length s hoy ids :
  ∀ sid tds, contributions s hoy sid ids = Some tds → length tds = length ids.
Proof.
  induction ids as [|stateid r IH]; intros sid tds; simpl.
  - by intros [= <-].
  - destruct (contribution s hoy sid stateid) as [td|]; [|done].
    destruct (contributions s hoy (S sid) r) as [tds'|] eqn:E; [|done].
    intros [= <-]. simpl. by rewrite (IH (S sid) tds').
Qed.

(** X13.  Where [combinedValueById] returns, the total is the sum of the
    totals that the sources hold for the hour under the given states, and
    the direct part is [None] when no direct value is loaded, else the sum
    of the direct parts that stand beside a total.  A source under the id
    -1, a missing hour and an absent total add nothing; earlier look-ups do
    not change what later ones find. *)
Theorem combined_value_adds_the_samples (s : AnalysisPoint) (hoy : Z)
    (ids : option (list pyval)) (total : Q) (direct : pynum) :
  outcome (combinedValueById hoy ids) s = Ok (total, direct) →
  ∃ tds,
    contributions s hoy 0 (or_else ids (replicate (length (_sources s)) (PInt 0)))
      = Some tds ∧
    length tds = length (_sources s) ∧
    (total == Qsum (map total_part tds))%Q ∧
    match direct with
    | Some r => _isDirectLoaded s = true ∧ (r == Qsum (map direct_part tds))%Q
    | None => _isDirectLoaded s = false
    end.
Proof.
  unfold outcome, combinedValueById, bind, get. simpl.
  set (l := or_else ids _). destruct (decide _) as [Hlen|]; [|done].
  intros H. pose proof (combine_sources_outcome hoy l s 0%nat (0%Q, initial_direct s)) as Hc.
  unfold outcome in Hc. rewrite H in Hc.
  destruct (contributions s hoy 0 l) as [tds|] eqn:E; [|done].
  exists tds. split; [done|]. split; [by rewrite (contributions_length _ _ _ _ _ E)|].
  destruct (foldl_add_sample_sums tds 0%Q (initial_direct s)) as [Ht Hd].
  injection Hc as Hc. rewrite <- Hc in *. simpl in *.
  split; [rewrite Ht; ring|].
  unfold initial_direct in *. destruct (_isDirectLoaded s).
  - destruct Hd as (r & -> & Hr). split; [done|]. rewrite Hr. ring.
  - by subst direct.
Qed.

Lemma combined_value_adds_the_samples_witness :
  ∃ tds,
    contributions partial_direct 1 0
      (or_else (Some [PInt 0]) (replicate (length (_sources partial_direct)) (PInt 0)))
      = Some tds ∧
    length tds = length (_sources partial_direct) ∧
    (5 == Qsum (map total_part tds))%Q ∧
    (_isDirectLoaded partial_direct = true ∧ (0 == Qsum (map direct_part tds))%Q).
Proof.
  apply (combined_value_adds_the_samples partial_direct 1 (Some [PInt 0]) 5%Q (Some 0%Q)).
  vm_compute. reflexivity.
Defined.

Lemma combined_rows_rows s dirValue ids hs :
  ∀ s0 ps,
    same_reads s s0 →
    (combined_rows dirValue ids hs s0).1 = (ps, None) →
    length ps = length hs ∧
    ∀ (k : nat) h, hs !! k = Some h →
      ∃ row tds, py_getitem ids h = Some row ∧
                 contributions s h 0 row = Some tds ∧
                 ps !! k = Some (foldl add_sample (0%Q, dirValue) tds).
Proof.
  induction hs as [|hoy r IH]; intros s0 ps Hs; simpl.
  - intros [= <-]. split; [done|]. intros k h Hk. by destruct k.
  - destruct (py_getitem ids hoy) as [row|] eqn:Hrow; simpl; [|done].
    pose proof (combine_sources_outcome hoy row s0 0%nat (0%Q, dirValue)) as Hc.
    pose proof (proj1 (reader_combine_sources hoy row 0%nat (0%Q, dirValue)) s0) as Hs1.
    unfold outcome, after in *.
    destruct (combine_sources hoy 0 row (0%Q, dirValue) s0) as [[p|e] s1]; simpl in *; [|done].
    rewrite (contributions_same_reads s s0) in Hc by done.
    destruct (contributions s hoy 0 row) as [tds|] eqn:E; [|done]. injection Hc as ->.
    specialize (IH s1).
    destruct (combined_rows dirValue ids r s1) as [[ps' e] s2]; simpl in *.
    intros [= <- ->].
    destruct (IH ps' ltac:(by etrans) eq_refl) as [Hl Hk]. split; [simpl; by rewrite Hl|].
    intros [|k] h Hh; simpl in Hh.
    + injection Hh as <-. by exists row, tds.
    + by apply Hk.
Qed.

(** X14.  Where the generator [combinedValuesById], given hours and a
    matrix of state ids, runs to its end, it yields one pair per hour in
    the order of the hours; the pair of hour [h] combines the samples the
    sources hold for [h] under the row that stands at index [h] of the
    matrix.  So where every hour is its own position (hours 0, 1, 2, ...)
    the pair at position [k] combines the sources under row [k] at hour
    [k]. *)
Theorem combined_values_use_the_row_at_the_hour (s : AnalysisPoint)
    (hs : list Z) (ids : list (list pyval)) (ps : list (Q * pynum)) :
  hs ≠ [] → ids ≠ [] →
  (combinedValuesById (Some hs) (Some ids) s).1 = (ps, None) →
  length ps = length hs ∧
  (∀ (k : nat) h, hs !! k = Some h →
     ∃ row tds, py_getitem ids h = Some row ∧
                contributions s h 0 row = Some tds ∧
                ps !! k = Some (combined s tds)) ∧
  ((∀ (k : nat) h, hs !! k = Some h → h = Z.of_nat k) →
   ∀ (k : nat) row, ids !! k = Some row →
     ∃ tds, contributions s (Z.of_nat k) 0 row = Some tds ∧
            ps !! k = Some (combined s tds)).
Proof.
  intros Hhs Hids. unfold combinedValuesById.
  destruct hs as [|h0 hs']; [done|]. destruct ids as [|r0 ids']; [done|].
  cbv beta iota. unfold or_else.
  destruct (decide _) as [Hlen|]; [|done].
  intros H.
  destruct (combined_rows_rows s (initial_direct s) (r0 :: ids') (h0 :: hs') s ps
              ltac:(reflexivity) H) as [Hl Hk].
  split; [done|]. split; [exact Hk|].
  intros Hpos k row Hrow.
  assert (Hlt : (k < length (h0 :: hs'))%nat).
  { rewrite Hlen. by eapply lookup_lt_Some. }
  destruct (lookup_lt_is_Some_2 _ _ Hlt) as [h Hh].
  destruct (Hk k h Hh) as (row' & tds & Hrow' & Htds & Hps).
  rewrite (Hpos k h Hh) in *.
  unfold py_getitem in Hrow'. rewrite py_index_nat in Hrow' by (by rewrite <- Hlen).
  assert (row' = row) as -> by congruence. by exists tds.
Qed.

Lemma combined_values_use_the_row_at_the_hour_witness :
  length [(10%Q, None : pynum); (0%Q, None)] = length [0; 1] ∧
  (∀ (k : nat) h, [0; 1] !! k = Some h →
     ∃ row tds, py_getitem [[PInt 0]; [PInt (-1)]] h = Some row ∧
                contributions two_hours h 0 row = Some tds ∧
                [(10%Q, None : pynum); (0%Q, None)] !! k = Some (combined two_hours tds)) ∧
  ((∀ (k : nat) h, [0; 1] !! k = Some h → h = Z.of_nat k) →
   ∀ (k : nat) row, [[PInt 0]; [PInt (-1)]] !! k = Some row →
     ∃ tds, contributions two_hours (Z.of_nat k) 0 row = Some tds ∧
            [(10%Q, None : pynum); (0%Q, None)] !! k = Some (combined two_hours tds)).
Proof.
  apply (combined_values_use_the_row_at_the_hour two_hours [0; 1]
           [[PInt 0]; [PInt (-1)]] [(10%Q, None); (0%Q, None)]);
    [done|done|vm_compute; reflexivity].
Defined.

(** ** The annual metrics *)

Lemma annual_loop_split thr lo hi schedule values :
  ∀ c u n,
    annual_loop thr lo hi schedule values c u n
    = ((da_loop thr schedule values c n).1,
       (udi_loop lo hi schedule values u n).1,
       (da_loop thr schedule values c n).2).
Proof.
  induction values as [|v r IH]; intros c u n; simpl; [done|].
  destruct (negb _); apply IH.
Qed.

Lemma loops_same_count thr lo hi schedule values c u n :
  (udi_loop lo hi schedule values u n).2 = (da_loop thr schedule values c n).2.
Proof. by rewrite udi_loop_count, da_loop_count. Qed.

(** X15.  [annualMetrics] returns the two results of [daylightAutonomy]
    followed by the three of [usefulDaylightIlluminance] for the same
    arguments, raises what they raise, and leaves the store they leave. *)
Theorem annual_metrics_are_both_metrics (s : AnalysisPoint)
    (thr : option Q) (bounds : option (Q * Q))
    (ids : option (list (list pyval))) (occ : option (list Q)) :
  annualMetrics thr bounds ids occ s
  = match daylightAutonomy thr ids occ s,
          outcome (usefulDaylightIlluminance bounds ids occ) s with
    | (Ok (da, cda), s'), Ok (udi, udi_l, udi_m) => (Ok (da, cda, udi, udi_l, udi_m), s')
    | (Ok _, s'), Raise e => (Raise e, s')
    | (Raise e, s'), _ => (Raise e, s')
    end.
Proof.
  unfold outcome, annualMetrics, daylightAutonomy, usefulDaylightIlluminance.
  destruct (default (100%Q, 2000%Q) bounds) as [lo hi].
  unfold bind.
  destruct (metric_inputs ids occ s) as [[[[hours schedule] values]|e] s1]; [|done].
  rewrite annual_loop_split.
  pose proof (loops_same_count (num_or thr 300) lo hi schedule values (mk_da 0 0)
                (mk_udi 0 0 0) (Z.of_nat (length hours))) as Hn.
  destruct (da_loop _ _ _ _ _) as [c n], (udi_loop _ _ _ _ _ _) as [u n'].
  simpl in Hn. subst n'. simpl.
  unfold py_div. by destruct (num_eq (inject_Z n) 0).
Qed.

Lemma hoys_state s : after hoys s = s.
Proof.
  unfold after, hoys, bind, get. simpl. destruct (hasValues s); [|done].
  destruct (py_getitem (_values s) 0) as [row|]; simpl; [|done].
  by destruct (py_getitem row 0).
Qed.

(** The generator yields one pair per hour of the store. *)
Lemma combined_values_length s hours ids ps :
  outcome hoys s = Ok hours →
  (combinedValuesById (Some hours) ids s).1 = (ps, None) →
  length ps = length hours.
Proof.
  intros Hh. pose proof (hoys_state s) as Hst. unfold outcome, after in *.
  unfold combinedValuesById.
  assert (Hrows : ∀ s0 hs,
    (let ids' := or_else ids (replicate (length hs)
                                (replicate (length (_sources s0)) (PInt 0))) in
     if decide (length hs = length ids')
     then combined_rows (initial_direct s0) ids' hs s0
     else (([], Some AssertionError), s0)).1 = (ps, None) → length ps = length hs).
  { intros s0 hs. simpl. destruct (decide _); [|done]. intros H.
    by destruct (combined_rows_rows s0 _ _ hs s0 ps ltac:(reflexivity) H). }
  destruct hours as [|h0 hs].
  - destruct (hoys s) as [[hs'|e] s1]; simpl in *; [|done].
    injection Hh as ->. subst s1. apply (Hrows s []).
  - apply (Hrows s (h0 :: hs)).
Qed.

Lemma metric_inputs_lengths s ids occ hours schedule values s1 :
  metric_inputs ids occ s = (Ok (hours, schedule, values), s1) →
  length values = length hours.
Proof.
  unfold metric_inputs, bind at 1.
  pose proof (hoys_state s) as Hst. unfold after in Hst.
  destruct (hoys s) as [[hs|e] s0] eqn:Hh; simpl in *; [|done]. subst s0.
  unfold bind, tuple_of.
  destruct (combinedValuesById (Some hs) ids s) as [[ps [e|]] s2] eqn:Hg; simpl; [done|].
  intros [= <- <- <- <-]. rewrite length_fmap.
  apply (combined_values_length s hs ids).
  - unfold outcome. by rewrite Hh.
  - by rewrite Hg.
Qed.

Lemma udi_loop_counters lo hi schedule values :
  ∀ u n,
    UDI (udi_loop lo hi schedule values u n).1 + UDI_l (udi_loop lo hi schedule values u n).1
      + UDI_m (udi_loop lo hi schedule values u n).1
      - (UDI u + UDI_l u + UDI_m u)
    = Z.of_nat (length values) - (n - (udi_loop lo hi schedule values u n).2) ∧
    UDI u ≤ UDI (udi_loop lo hi schedule values u n).1 ∧
    UDI_l u ≤ UDI_l (udi_loop lo hi schedule values u n).1 ∧
    UDI_m u ≤ UDI_m (udi_loop lo hi schedule values u n).1.
Proof.
  induction values as [|v r IH]; intros u n; simpl; [lia|].
  destruct (negb _).
  - specialize (IH u (n - 1)). lia.
  - specialize (IH (udi_step lo hi v u) n). unfold udi_step in *.
    destruct (num_lt v lo); [simpl in *; lia|].
    destruct (num_lt hi v); simpl in *; lia.
Qed.


Lemma num_eq_inject_Z_0 n : num_eq (inject_Z n) 0 = false → n ≠ 0.
Proof. intros H ->. discriminate H. Qed.

Lemma py_div_returns a n s q s' :
  py_div a (inject_Z n) s = (Ok q, s') → n ≠ 0 ∧ q = (a / inject_Z n)%Q ∧ s' = s.
Proof.
  unfold py_div. destruct (num_eq (inject_Z n) 0) eqn:E; [done|].
  intros [= <- <-]. split; [by apply num_eq_inject_Z_0|done].
Qed.




Lemma udi_loop_within lo hi schedule values :
  (∀ v, v ∈ values → in_schedule schedule v = true → (lo <= v)%Q ∧ (v <= hi)%Q) →
  ∀ u n,
    UDI_l (udi_loop lo hi schedule values u n).1 = UDI_l u ∧
    UDI_m (udi_loop lo hi schedule values u n).1 = UDI_m u.
Proof.
  induction values as [|v r IH]; intros Hv u n; simpl; [done|].
  assert (Hr : ∀ v', v' ∈ r → in_schedule schedule v' = true → (lo <= v')%Q ∧ (v' <= hi)%Q).
  { intros v' Hin. apply Hv, elem_of_cons. by right. }
  destruct (in_schedule schedule v) eqn:Hs; simpl; [|by apply IH].
  destruct (Hv v ltac:(apply elem_of_cons; by left) Hs) as [Hlo Hhi].
  destruct (IH Hr (udi_step lo hi v u) n) as [H1 H2]. rewrite H1, H2.
  unfold udi_step, num_lt.
  rewrite (proj2 (Qle_bool_iff lo v) Hlo), (proj2 (Qle_bool_iff v hi) Hhi). done.
Qed.

Lemma da_loop_reached thr schedule values :
  (∀ v, v ∈ values → in_schedule schedule v = true → (thr <= v)%Q) →
  ∀ c n,
    DA (da_loop thr schedule values c n).1 - DA c
      = Z.of_nat (length values) - (n - (da_loop thr schedule values c n).2) ∧
    (CDA (da_loop thr schedule values c n).1
       == CDA c + inject_Z (DA (da_loop thr schedule values c n).1 - DA c))%Q.
Proof.
  induction values as [|v r IH]; intros Hv c n; simpl.
  - split; [lia|]. rewrite Z.sub_diag. change (inject_Z 0) with 0%Q. ring.
  - assert (Hr : ∀ v', v' ∈ r → in_schedule schedule v' = true → (thr <= v')%Q).
    { intros v' Hin. apply Hv, elem_of_cons. by right. }
    destruct (in_schedule schedule v) eqn:Hs; simpl.
    + pose proof (Hv v ltac:(apply elem_of_cons; by left) Hs) as Hthr.
      destruct (IH Hr (da_step thr v c) n) as [H1 H2].
      unfold da_step, num_le in *. rewrite (proj2 (Qle_bool_iff thr v) Hthr) in *.
      simpl in *. split; [lia|]. rewrite H2.
      replace (DA (da_loop thr schedule r (mk_da (DA c + 1) (CDA c + 1)%Q) n).1 - DA c)
        with (1 + (DA (da_loop thr schedule r (mk_da (DA c + 1) (CDA c + 1)%Q) n).1
                   - (DA c + 1))) by lia.
      rewrite inject_Z_plus. change (inject_Z 1) with 1%Q. ring.
    + destruct (IH Hr c (n - 1)) as [H1 H2]. split; [lia|done].
Qed.

(** X17.  Values on the bounds count as reached and as useful: where every
    in-schedule value is at least the threshold, [daylightAutonomy]
    returns 1 for both DA and CDA; where every in-schedule value lies
    between the two bounds, the bounds included, [usefulDaylightIlluminance]
    returns 1 for UDI and 0 for the two other shares. *)
Theorem values_on_the_bounds_count (s s1 : AnalysisPoint)
    (thr lo hi : Q) (ids : option (list (list pyval))) (occ : option (list Q))
    (hours : list Z) (schedule values : list Q) (da cda udi udi_l udi_m : Q) :
  num_eq thr 0 = false →
  metric_inputs ids occ s = (Ok (hours, schedule, values), s1) →
  (∀ v, v ∈ values → in_schedule schedule v = true →
        (thr <= v)%Q ∧ (lo <= v)%Q ∧ (v <= hi)%Q) →
  outcome (daylightAutonomy (Some thr) ids occ) s = Ok (da, cda) →
  outcome (usefulDaylightIlluminance (Some (lo, hi)) ids occ) s = Ok (udi, udi_l, udi_m) →
  (da == 1)%Q ∧ (cda == 1)%Q ∧ (udi == 1)%Q ∧ (udi_l == 0)%Q ∧ (udi_m == 0)%Q.
Proof.
  intros Hthr Hin Hv.
  unfold outcome, daylightAutonomy, usefulDaylightIlluminance, num_or. rewrite Hthr.
  simpl. unfold bind. rewrite Hin.
  pose proof (metric_inputs_lengths _ _ _ _ _ _ _ Hin) as Hlen.
  destruct (da_loop_reached thr schedule values
              (fun v H1 H2 => proj1 (Hv v H1 H2)) (mk_da 0 0) (Z.of_nat (length hours)))
    as [Hda Hcda].
  destruct (udi_loop_within lo hi schedule values
              (fun v H1 H2 => proj2 (Hv v H1 H2)) (mk_udi 0 0 0) (Z.of_nat (length hours)))
    as [Hl Hm].
  pose proof (udi_loop_counters lo hi schedule values (mk_udi 0 0 0)
                (Z.of_nat (length hours))) as Hudi.
  pose proof (loops_same_count thr lo hi schedule values (mk_da 0 0)
                (mk_udi 0 0 0) (Z.of_nat (length hours))) as Hn.
  destruct (da_loop _ _ _ _ _) as [c n], (udi_loop _ _ _ _ _ _) as [u n'].
  simpl in *. subst n'.
  unfold py_div. destruct (num_eq (inject_Z n) 0) eqn:E; [done|]. simpl.
  apply num_eq_inject_Z_0 in E.
  intros [= <- <-] [= <- <- <-].
  assert (Hnz : ¬ (inject_Z n == 0)%Q).
  { intros H. apply E. unfold Qeq, inject_Z in H. simpl in H. lia. }
  assert (DA c = n) as HDA by lia.
  assert (UDI u = n) as HU by lia.
  rewrite Hl, Hm, HU, HDA in *. rewrite Z.sub_0_r in Hcda.
  split_and!.
  - by field.
  - rewrite Hcda. by field.
  - by field.
  - change (inject_Z 0) with 0%Q. by field.
  - change (inject_Z 0) with 0%Q. by field.
Qed.

Lemma values_on_the_bounds_count_witness :
  (1 == 1)%Q ∧ (1 == 1)%Q ∧ (1 == 1)%Q ∧ (0 == 0)%Q ∧ (0 == 0)%Q.
Proof.
  apply (values_on_the_bounds_count (one_hour 0 300) (one_hour 0 300) 300 100 300
           None (Some [300%Q]) [0] [300%Q] [300%Q] 1 1 1 0 0).
  - reflexivity.
  - vm_compute. reflexivity.
  - intros v Hin _. apply list_elem_of_singleton in Hin. subst v.
    unfold Qle. simpl. lia.
  - vm_compute. reflexivity.
  - vm_compute. reflexivity.
Defined.

(** ** The search for the first state the rule accepts *)

Lemma first_rejected_finds lg h results col :
  Forall2 (fun r q => py_getitem r h = Some q) results col →
  ∀ state last0 s,
    first_rejected lg h state results last0 s
    = (Ok match list_find (rejected lg h) col with
          | Some (k, q) => (Some (state + k)%nat, Some q)
          | None => (None, match last col with Some q => Some q | None => last0 end)
          end, s).
Proof.
  induction 1 as [|r q results col Hr _ IH]; intros state last0 s; simpl; [done|].
  unfold bind. rewrite Hr. simpl. destruct q as [ill ill_dir].
  unfold rejected at 1. simpl.
  destruct (decide (lg ill ill_dir h = false)) as [Hrej|Hacc].
  - rewrite Hrej. simpl. by rewrite Nat.add_0_r.
  - apply not_false_is_true in Hacc. rewrite Hacc. simpl. rewrite IH.
    destruct (list_find (rejected lg h) col) as [[k q']|]; simpl.
    + by rewrite Nat.add_succ_r.
    + destruct col as [|q1 col]; [done|]. rewrite last_cons_cons.
      destruct (last (q1 :: col)) eqn:Hlast; [done|]. by apply last_None in Hlast.
Qed.

(** The body of the selection loop for one hour: it records at the position
    of the hour what [record_choice] says, and does not touch the store. *)
Lemma select_hour_records (lg : Q → pynum → Z → bool) (h : Z)
    (results : list (list (Q * pynum))) (col : list (Q * pynum))
    (sel : selection) (last0 : option (Q * pynum)) (p : nat) (s : AnalysisPoint) :
  Forall2 (fun r q => py_getitem r h = Some q) results col →
  col ≠ [] →
  py_index (length (blindsIndex sel)) h = Some p →
  length (illValues sel) = length (blindsIndex sel) →
  length (dirValues sel) = length (blindsIndex sel) →
  length (success sel) = length (blindsIndex sel) →
  ∃ sel' last',
    select_hour lg results h (sel, last0) s = (Ok (sel', last'), s) ∧
    record_choice lg h p col sel = Some sel' ∧
    length (blindsIndex sel') = length (blindsIndex sel) ∧
    length (illValues sel') = length (blindsIndex sel) ∧
    length (dirValues sel') = length (blindsIndex sel) ∧
    length (success sel') = length (blindsIndex sel).
Proof.
  intros Hcol Hne Hp Hiv Hdv Hsu.
  unfold select_hour, record_choice, bind at 1.
  rewrite (first_rejected_finds lg h results col Hcol).
  assert (Hset : ∀ A (l : list A) x, length l = length (blindsIndex sel) →
            set_at l h x s = (Ok (<[p := x]> l), s)).
  { intros A l x Hl. unfold set_at, py_setitem. by rewrite Hl, Hp. }
  destruct (list_find (rejected lg h) col) as [[k [ill ill_dir]]|] eqn:Hfind; simpl.
  - unfold bind, ret. cbv beta iota. rewrite !Hset by done.
    destruct (decide (0 < k)%nat).
    + rewrite Hset by done. eexists _, _. split; [done|]. split; [done|].
      simpl. by rewrite !length_insert.
    + eexists _, _. split; [done|]. split; [done|].
      simpl. by rewrite !length_insert.
  - destruct (last col) as [[ill ill_dir]|] eqn:Hlast.
    + unfold bind, ret. rewrite !Hset by done. simpl. rewrite !Hset by done.
      eexists _, _. split; [done|]. split; [done|]. simpl. by rewrite !length_insert.
    + apply last_None in Hlast. done.
Qed.

(** ** The combinations of [longestStateIds] as input of the combined values *)

Lemma contribution_in_range s hoy i name e z :
  wf s → _sources s !! i = Some (name, e) →
  -1 ≤ z < Z.of_nat (length (src_state e)) →
  is_Some (contribution s hoy i (PInt z)).
Proof.
  intros [Hlen Hent] Hi Hz. unfold contribution.
  destruct (decide (z = -1)); [by eauto|].
  destruct (Hent i name e Hi) as (_ & row & Hrow & Hrl).
  rewrite positions_by_shape.
  rewrite py_index_nat by (by eapply lookup_lt_Some).
  rewrite list_lookup_fmap, Hrow. simpl.
  assert (Hj : py_index (length row) z = Some (Z.to_nat z)).
  { unfold py_index. rewrite decide_True by lia. done. }
  rewrite Hj. unfold view, series. rewrite Hrow.
  destruct (lookup_lt_is_Some_2 row (Z.to_nat z) ltac:(lia)) as [d Hd].
  rewrite Hd. by eauto.
Qed.

Lemma contributions_in_range s hoy l :
  wf s →
  ∀ sid,
    (∀ (k : nat) z, l !! k = Some z →
       ∃ name e, _sources s !! (sid + k)%nat = Some (name, e) ∧
                 -1 ≤ z < Z.of_nat (length (src_state e))) →
    is_Some (contributions s hoy sid (map PInt l)).
Proof.
  intros Hwf. induction l as [|z l IH]; intros sid Hl; [simpl; by eauto|].
  change (map PInt (z :: l)) with (PInt z :: map PInt l). cbn [contributions].
  destruct (Hl 0%nat z eq_refl) as (name & e & Hs & Hz).
  rewrite Nat.add_0_r in Hs.
  destruct (contribution_in_range s hoy sid name e z Hwf Hs Hz) as [td ->].
  destruct (IH (S sid)) as [tds ->]; [|by eauto].
  intros k z' Hk. destruct (Hl (S k) z' Hk) as (name' & e' & Hs' & Hz').
  exists name', e'. split; [|done].
  by replace (S sid + k)%nat with (sid + S k)%nat by lia.
Qed.

(** The ids of a combination stand for a state of their source, or are
    -1 for a source without states. *)
Lemma longest_combination s combs comb :
  iteritems (_sources s) = _sources s →
  outcome longestStateIds s = Ok combs → comb ∈ combs →
  length comb = length (_sources s) ∧ _sources s ≠ [] ∧
  ∀ (k : nat) z, comb !! k = Some z →
    ∃ name e, _sources s !! k = Some (name, e) ∧
              -1 ≤ z < Z.of_nat (length (src_state e)).
Proof.
  intros Hord. unfold outcome, longestStateIds, bind, get. cbn [fst snd]. rewrite Hord.
  destruct (py_max _) as [m|] eqn:Hm; simpl; [|done].
  intros [= <-] Hin. apply list_elem_of_fmap in Hin as (i & -> & Hi).
  unfold py_range in Hi. apply list_elem_of_fmap in Hi as (n & -> & _).
  rewrite !length_map. split; [done|]. split.
  { intros Hnil. by rewrite Hnil in Hm. }
  intros k z. rewrite !list_lookup_fmap.
  destruct (_sources s !! k) as [[name e]|]; simpl; [|done].
  intros [= <-]. exists name, e. split; [done|]. lia.
Qed.

Lemma candidate_value_longest s hoy combs comb :
  wf s → iteritems (_sources s) = _sources s →
  outcome longestStateIds s = Ok combs → comb ∈ combs →
  is_Some (candidate_value s hoy (map PInt comb)).
Proof.
  intros Hwf Hord Hc Hin.
  destruct (longest_combination s combs comb Hord Hc Hin) as (_ & _ & Hk).
  destruct (contributions_in_range s hoy comb Hwf 0 Hk) as [tds Htds].
  unfold candidate_value. rewrite Htds. by eauto.
Qed.

Lemma combinedValueById_candidate s hoy comb q :
  comb ≠ [] → length comb = length (_sources s) →
  candidate_value s hoy comb = Some q →
  outcome (combinedValueById hoy (Some comb)) s = Ok q.
Proof.
  intros Hne Hlen. unfold candidate_value, outcome, combinedValueById, bind, get. simpl.
  destruct comb as [|c comb]; [done|]. cbv beta iota. unfold or_else.
  rewrite decide_True by done.
  pose proof (combine_sources_outcome hoy (c :: comb) s 0%nat (0%Q, initial_direct s)) as H.
  unfold outcome in H. rewrite H.
  destruct (contributions s hoy 0 (c :: comb)) as [tds|]; [|done].
  simpl. by intros [= <-].
Qed.

(** A dict with one key is walked in the one possible order. *)
Lemma single_source_order s : length (_sources s) = 1%nat → ids_in_dict_order s.
Proof.
  intros Hlen. split; [left; lia|].
  by destruct (_sources s) as [|kv [|kv' d]] eqn:Hs.
Qed.

(** X18.  On a store that the writers leave and whose dict of sources
    yields the sources in the order of their ids (as every store with one
    source does), every combination that [longestStateIds] returns can be
    combined at every hour: [combinedValueById] returns for it, with a
    direct part exactly when direct values are loaded.  (A source without a
    state gets the id -1 in the combination, which leaves it out.)  Where
    the dict yields the sources in another order this fails: C8. *)
Theorem longest_combinations_can_be_combined (s : AnalysisPoint) (hoy : Z)
    (combs : list (list Z)) (comb : list Z) :
  wf s → ids_in_dict_order s →
  outcome longestStateIds s = Ok combs → comb ∈ combs →
  ∃ total direct,
    outcome (combinedValueById hoy (Some (map PInt comb))) s = Ok (total, direct) ∧
    (is_Some direct ↔ _isDirectLoaded s = true).
Proof.
  intros Hwf [_ Hord] Hc Hin.
  destruct (longest_combination s combs comb Hord Hc Hin) as (Hlen & Hne & _).
  destruct (candidate_value_longest s hoy combs comb Hwf Hord Hc Hin)
    as [[total direct] Hq].
  exists total, direct. split.
  - apply combinedValueById_candidate; [|by rewrite length_map|done].
    destruct comb; [|done]. simpl in Hlen. by destruct (_sources s).
  - unfold candidate_value in Hq.
    destruct (contributions s hoy 0 (map PInt comb)) as [tds|]; [|done].
    injection Hq as Hq. unfold combined in Hq.
    destruct (foldl_add_sample_sums tds 0%Q (initial_direct s)) as [_ Hd].
    rewrite Hq in Hd. simpl in Hd. unfold initial_direct in Hd.
    destruct (_isDirectLoaded s).
    + destruct Hd as (r & -> & _). split; [done|by eauto].
    + subst direct. split; [by intros [? ?]|done].
Qed.

Lemma two_windows_invariant : wf two_windows.
Proof. apply (steps_run_writers wf_kept _ call_wf_kept init), wf_init. Qed.

Lemma two_windows_order : ids_in_dict_order two_windows.
Proof.
  assert (Hkeys : (_sources two_windows).*1 = [PStr "A"; PStr "B"])
    by (vm_compute; reflexivity).
  split; [|vm_compute; reflexivity].
  right. rewrite Hkeys. repeat constructor.
Qed.

Lemma longest_combinations_can_be_combined_witness :
  ∃ total direct,
    outcome (combinedValueById 1 (Some (map PInt [1; 0]))) two_windows
      = Ok (total, direct) ∧
    (is_Some direct ↔ _isDirectLoaded two_windows = true).
Proof.
  apply (longest_combinations_can_be_combined two_windows 1 [[0; 0]; [1; 0]] [1; 0]).
  - apply two_windows_invariant.
  - apply two_windows_order.
  - vm_compute. reflexivity.
  - rewrite !elem_of_cons. by auto.
Defined.

(** ** The selection on a store whose hours are 0, 1, 2, ... *)

Lemma initial_direct_same_reads s s' :
  same_reads s s' → initial_direct s' = initial_direct s.
Proof. intros ((_ & Hf & _) & _). unfold initial_direct. by rewrite Hf. Qed.

Lemma candidate_value_same_reads s s' hoy comb :
  same_reads s s' → candidate_value s' hoy comb = candidate_value s hoy comb.
Proof.
  intros H. unfold candidate_value, combined.
  by rewrite (contributions_same_reads s s'), (initial_direct_same_reads s s').
Qed.

(** The generator returns where the row of every hour is [comb] and can
    be combined. *)
Lemma combined_rows_returns s ids comb hs ps :
  Forall2 (fun h p => candidate_value s h comb = Some p) hs ps →
  (∀ h, h ∈ hs → py_getitem ids h = Some comb) →
  ∀ s0, same_reads s s0 →
    ∃ s1, combined_rows (initial_direct s) ids hs s0 = ((ps, None), s1) ∧
          same_reads s s1.
Proof.
  induction 1 as [|h p hs ps Hp _ IH]; intros Hrow s0 Hs; simpl.
  - by exists s0.
  - rewrite (Hrow h) by (apply elem_of_cons; by left).
    pose proof (combine_sources_outcome h comb s0 0%nat (0%Q, initial_direct s)) as Hc.
    pose proof (proj1 (reader_combine_sources h comb 0%nat (0%Q, initial_direct s)) s0) as Hs1.
    unfold outcome, after in *.
    destruct (combine_sources h 0 comb (0%Q, initial_direct s) s0) as [r s1]; simpl in *.
    rewrite (contributions_same_reads s s0) in Hc by done.
    unfold candidate_value in Hp.
    destruct (contributions s h 0 comb) as [tds|]; [|done]. injection Hp as <-.
    subst r.
    destruct (IH ltac:(intros h' Hh'; apply Hrow, elem_of_cons; by right) s1
                ltac:(by etrans)) as (s2 & -> & Hs2).
    by exists s2.
Qed.

Lemma py_getitem_replicate {A} (n : nat) (x : A) h :
  is_Some (py_index n h) → py_getitem (replicate n x) h = Some x.
Proof.
  intros [k Hk]. unfold py_getitem. rewrite length_replicate, Hk.
  apply lookup_replicate_2. by eapply py_index_lt.
Qed.

Lemma results_return s hs combIds results :
  hs ≠ [] →
  (∀ h, h ∈ hs → is_Some (py_index (length hs) h)) →
  Forall2 (fun comb r => Forall2 (fun h p => candidate_value s h comb = Some p) hs r)
    combIds results →
  ∀ s0, same_reads s s0 →
    ∃ s1,
      map_m (fun state =>
               tuple_of (combinedValuesById (Some hs) (Some (replicate (length hs) state))))
        combIds s0 = (Ok results, s1) ∧
      same_reads s s1.
Proof.
  intros Hne Hidx. induction 1 as [|comb r combIds results Hr _ IH]; intros s0 Hs; simpl.
  - by exists s0.
  - assert (Hgen : tuple_of (combinedValuesById (Some hs)
                               (Some (replicate (length hs) comb))) s0
                   = (let '((ps, e), s1) :=
                        combined_rows (initial_direct s) (replicate (length hs) comb) hs s0 in
                      match e with None => (Ok ps, s1) | Some e => (Raise e, s1) end)).
    { unfold tuple_of, combinedValuesById.
      destruct hs as [|h0 hs']; [done|]. cbv beta iota.
      change (or_else (Some (replicate (length (h0 :: hs')) comb)) ?d)
        with (replicate (length (h0 :: hs')) comb).
      rewrite decide_True by (by rewrite length_replicate).
      rewrite (initial_direct_same_reads s s0) by done.
      by destruct (combined_rows _ _ _ s0) as [[ps [e|]] s1]. }
    unfold bind at 1. rewrite Hgen.
    destruct (combined_rows_returns s (replicate (length hs) comb) comb hs r Hr) with (s0 := s0)
      as (s1 & -> & Hs1); [|done|].
    { intros h Hh. by apply py_getitem_replicate, Hidx. }
    destruct (IH s1 Hs1) as (s2 & Hm & Hs2). unfold bind. rewrite Hm. by exists s2.
Qed.

Lemma record_choice_chosen lg (k n : nat) col fallback sel sel1 :
  record_choice lg (Z.of_nat k) k col sel = Some sel1 →
  sel_lengths sel n → (k < n)%nat →
  blindsIndex sel !! k = Some fallback → success sel !! k = Some 0 →
  chosen lg k col fallback sel1 ∧ sel_lengths sel1 n ∧
  ∀ k', k' ≠ k → same_at k' sel sel1.
Proof.
  unfold record_choice, chosen, sel_lengths, same_at.
  intros H (Hbi & Hiv & Hdv & Hsu) Hk Hfb H0.
  assert (Heq : ∀ A (l : list A) x, length l = n → <[k := x]> l !! k = Some x).
  { intros A l x Hl. apply list_lookup_insert_eq. lia. }
  assert (Hother : ∀ A (l : list A) x k', k' ≠ k → <[k := x]> l !! k' = l !! k').
  { intros A l x k' Hne. apply list_lookup_insert_ne. congruence. }
  destruct (list_find _ col) as [[i q]|].
  - injection H as <-. simpl. split; [|split].
    + split_and!; try (by apply Heq).
      destruct (decide (0 < i)%nat); [by apply Heq|done].
    + rewrite !length_insert. destruct (decide (0 < i)%nat); by rewrite ?length_insert.
    + intros k' Hne. split_and!; try (by apply Hother).
      destruct (decide (0 < i)%nat); [by apply Hother|done].
  - destruct (last col) as [q|]; [|done]. injection H as <-. simpl. split; [|split].
    + split_and!; try (by apply Heq); try done.
      exists q. split_and!; try done; by apply Heq.
    + by rewrite !length_insert.
    + intros k' Hne. split_and!; try done; by apply Hother.
Qed.

Lemma chosen_same_at lg k col fallback sel sel' :
  same_at k sel sel' → chosen lg k col fallback sel → chosen lg k col fallback sel'.
Proof.
  unfold same_at, chosen. intros (Hb & Hi & Hd & Hs).
  destruct (list_find _ col) as [[i q]|].
  - intros (H1 & H2 & H3 & H4). split_and!; (etrans; [eassumption|done]).
  - intros (H1 & (q & Hq & H2 & H3) & H4).
    split_and!; [etrans; [eassumption|done]| |etrans; [eassumption|done]].
    exists q. split_and!; [done|etrans; [eassumption|done]..].
Qed.

(** The loop over the hours [ks], each of which is its own position. *)
Lemma select_hours_records lg results (n : nat) fallback (colf : nat → list (Q * pynum)) s :
  ∀ ks sel last0,
    NoDup ks → (∀ k, k ∈ ks → (k < n)%nat) →
    sel_lengths sel n →
    (∀ k, k ∈ ks → blindsIndex sel !! k = Some fallback ∧ success sel !! k = Some 0) →
    (∀ k, k ∈ ks →
       colf k ≠ [] ∧
       Forall2 (fun r q => py_getitem r (Z.of_nat k) = Some q) results (colf k)) →
    ∃ sel' last',
      select_hours lg results (map Z.of_nat ks) (sel, last0) s = (Ok (sel', last'), s) ∧
      sel_lengths sel' n ∧
      (∀ k, k ∈ ks → chosen lg k (colf k) fallback sel') ∧
      (∀ k, k ∉ ks → same_at k sel sel').
Proof.
  induction ks as [|k ks IH]; intros sel last0 Hnd Hlt Hlen Hinit Hcol.
  - exists sel, last0. split; [done|]. split; [done|]. split.
    + intros k Hk. by apply elem_of_nil in Hk.
    + intros k _. by unfold same_at.
  - apply NoDup_cons in Hnd as [Hk Hnd].
    assert (Hkin : k ∈ k :: ks) by (apply elem_of_cons; by left).
    destruct (Hcol k Hkin) as [Hne Hf2]. destruct (Hinit k Hkin) as [Hfb H0].
    pose proof (Hlt k Hkin) as Hkn.
    destruct Hlen as (Hbi & Hiv & Hdv & Hsu).
    destruct (select_hour_records lg (Z.of_nat k) results (colf k) sel last0 k s Hf2 Hne)
      as (sel1 & last1 & Hrun & Hrec & _); try congruence.
    { rewrite Hbi. by apply py_index_nat. }
    destruct (record_choice_chosen lg k n (colf k) fallback sel sel1 Hrec) as (Hch & Hlen1 & Hsame);
      [done|done|done|done|].
    destruct (IH sel1 last1 Hnd) as (sel' & last' & Hrun' & Hlen' & Hch' & Hsame'); [| done | | |].
    + intros k' Hk'. apply Hlt, elem_of_cons. by right.
    + intros k' Hk'. assert (k' ≠ k) as Hne' by (intros ->; done).
      destruct (Hsame k' Hne') as (Hb1 & _ & _ & Hs1).
      destruct (Hinit k') as [Hb0 Hs0]; [apply elem_of_cons; by right|].
      split; congruence.
    + intros k' Hk'. apply Hcol, elem_of_cons. by right.
    + exists sel', last'.
      change (map Z.of_nat (k :: ks)) with (Z.of_nat k :: map Z.of_nat ks).
      cbn [select_hours]. unfold bind. rewrite Hrun. split; [done|]. split; [done|]. split.
      * intros k' Hk'. apply elem_of_cons in Hk' as [->|Hk']; [|by apply Hch'].
        by apply (chosen_same_at lg k (colf k) fallback sel1 sel'); [apply Hsame'|].
      * intros k' Hk'. apply not_elem_of_cons in Hk' as [Hne' Hk'].
        destruct (Hsame k' Hne') as (? & ? & ? & ?).
        destruct (Hsame' k' Hk') as (? & ? & ? & ?).
        unfold same_at. split_and!; congruence.
Qed.

Lemma bind_ok {A B} (m : M A) (k : A → M B) s a s' :
  m s = (Ok a, s') → bind m k s = k a s'.
Proof. intros H. unfold bind. by rewrite H. Qed.

Lemma bind_raise {A B} (m : M A) (k : A → M B) s e s' :
  m s = (Raise e, s') → bind m k s = (Raise e, s').
Proof. intros H. unfold bind. by rewrite H. Qed.

Lemma map_m_of_option {A B} (f : A → option B) (e : exn) (l : list A) (l' : list B) s :
  Forall2 (fun x y => f x = Some y) l l' →
  map_m (fun x => of_option (f x) e) l s = (Ok l', s).
Proof.
  induction 1 as [|x y l l' Hxy _ IH]; simpl; [done|].
  unfold bind. rewrite Hxy. simpl. by rewrite IH.
Qed.

(** With hours in the store there is a source with a state, so that
    [longestStateIds] returns at least one combination. *)
Lemma longestStateIds_returns s hs :
  wf s → outcome hoys s = Ok hs → hs ≠ [] →
  ∃ combs, longestStateIds s = (Ok combs, s) ∧ combs ≠ [].
Proof.
  intros [Hlen Hent]. unfold outcome, hoys, bind, get. simpl.
  destruct (hasValues s); [|by intros [= <-]].
  unfold py_getitem.
  destruct (_values s) as [|row rows] eqn:Hv; [done|]. simpl.
  destruct row as [|d ds]; [done|]. intros _ _.
  destruct (_sources s) as [|[name e] items] eqn:Hs; [done|].
  destruct (Hent 0%nat name e eq_refl) as (_ & row & Hrow & Hrl).
  injection Hrow as <-. simpl in Hrl.
  unfold longestStateIds, bind, get. cbn [fst snd]. rewrite Hs.
  set (states := map _ _).
  destruct (py_max_spec states) as (m & Hm & Hle & _).
  { unfold states. intros H. by apply fmap_nil_inv, iteritems_nil_inv in H. }
  unfold of_option. rewrite Hm. eexists. split; [done|].
  assert (0 ≤ m). { etrans; [|apply (Hle (Z.of_nat (length (src_state e)) - 1))].
                    - lia.
                    - unfold states. apply list_elem_of_fmap. exists (name, e).
                      split; [done|]. apply iteritems_elem_of, elem_of_cons. by left. }
  unfold py_range. replace (Z.to_nat (m + 1)) with (S (Z.to_nat m)) by lia. done.
Qed.

Lemma py_getitem_hours {A} (f : Z → A) (n k : nat) :
  (k < n)%nat →
  py_getitem (map f (map Z.of_nat (seq 0 n))) (Z.of_nat k) = Some (f (Z.of_nat k)).
Proof.
  intros Hk. unfold py_getitem. rewrite !length_map, length_seq, py_index_nat by done.
  by rewrite !list_lookup_fmap, lookup_seq_lt.
Qed.

(** X19.  The selection where it works.  On a store the writers leave whose
    dict of sources yields the sources in the order of their ids (as every
    store with one source does) and whose hours are 0, 1, ..., n-1,
    [blindsState] without arguments returns and leaves a store that
    answers as before.  Its candidates are the
    combinations of [longestStateIds]; for every hour it reports the first
    candidate for which the rule is false, with the combined pair of that
    candidate and the flag 1, or 0 for the first candidate of all; where the
    rule is true for all candidates it reports the last candidate, its
    pair and the flag -1.  The combination reported for an hour is the
    candidate of the reported index. *)
Theorem blindsState_takes_first_rejected (s : AnalysisPoint) (n : nat) :
  wf s → ids_in_dict_order s →
  outcome hoys s = Ok (py_range (Z.of_nat n)) → (0 < n)%nat →
  ∃ combs names sel s',
    blindsState None None s = (Ok (names, sel), s') ∧
    same_reads s s' ∧
    outcome longestStateIds s = Ok combs ∧
    sel_lengths sel n ∧
    Forall2 (fun i name => py_getitem (map (map PInt) combs) i = Some name)
      (blindsIndex sel) names ∧
    ∀ k, (k < n)%nat →
      ∃ col, mapM (candidate_value s (Z.of_nat k)) (map (map PInt) combs) = Some col ∧
             chosen (logic s) k col (Z.of_nat (length combs) - 1) sel.
Proof.
  intros Hwf [_ Hord] Hh Hn.
  assert (Hhs : py_range (Z.of_nat n) = map Z.of_nat (seq 0 n)).
  { unfold py_range. by rewrite Nat2Z.id. }
  rewrite Hhs in Hh. set (hs := map Z.of_nat (seq 0 n)) in *.
  assert (Hhl : length hs = n) by (unfold hs; by rewrite length_map, length_seq).
  assert (Hhne : hs ≠ []) by (intros E; rewrite E in Hhl; simpl in Hhl; lia).
  assert (Hrun_h : hoys s = (Ok hs, s)).
  { pose proof (hoys_state s) as Hst. unfold outcome, after in *.
    destruct (hoys s) as [r s0]; simpl in *. congruence. }
  destruct (longestStateIds_returns s hs Hwf Hh Hhne) as (combs & Hl & Hcne).
  assert (Hlo : outcome longestStateIds s = Ok combs) by (unfold outcome; by rewrite Hl).
  set (combIds := map (map PInt) combs).
  assert (Hcl : length combIds = length combs) by (unfold combIds; by rewrite length_map).
  assert (Hclpos : (0 < length combIds)%nat).
  { rewrite Hcl. destruct combs; [done|simpl; lia]. }
  set (cv := fun comb h => default (0%Q, None : pynum) (candidate_value s h comb)).
  assert (Hcv : ∀ comb h, comb ∈ combIds → candidate_value s h comb = Some (cv comb h)).
  { intros comb h Hin. apply list_elem_of_fmap in Hin as (c & -> & Hc).
    unfold cv. by destruct (candidate_value_longest s h combs c Hwf Hord Hlo Hc) as [q ->]. }
  set (results := map (fun comb => map (cv comb) hs) combIds).
  set (colf := fun k : nat => map (fun comb => cv comb (Z.of_nat k)) combIds).
  destruct (results_return s hs combIds results Hhne) with (s0 := s) as (s1 & Hres & Hs1).
  { intros h Hin. apply list_elem_of_fmap in Hin as (k & -> & Hk).
    apply elem_of_seq in Hk. rewrite Hhl, py_index_nat by lia. by eauto. }
  { unfold results. apply Forall2_fmap_r, Forall_Forall2_diag, Forall_forall.
    intros comb Hin. apply Forall2_fmap_r, Forall_Forall2_diag, Forall_forall.
    intros h _. by apply Hcv. }
  { reflexivity. }
  set (fallback := Z.of_nat (length combIds) - 1).
  set (start := mk_selection (replicate n fallback) (replicate n None)
                  (replicate n None) (replicate n 0)).
  destruct (select_hours_records (logic s) results n fallback colf s1 (seq 0 n) start None)
    as (sel & last' & Hsel & Hlen & Hch & _).
  { apply NoDup_seq. }
  { intros k Hk. apply elem_of_seq in Hk. lia. }
  { unfold sel_lengths, start. simpl. by rewrite !length_replicate. }
  { intros k Hk. apply elem_of_seq in Hk. unfold start. simpl.
    split; apply lookup_replicate_2; lia. }
  { intros k Hk. apply elem_of_seq in Hk. split.
    - unfold colf. destruct combIds; [simpl in Hclpos; lia|done].
    - unfold results, colf. apply Forall2_fmap, Forall_Forall2_diag, Forall_forall.
      intros comb _. unfold hs. apply py_getitem_hours. lia. }
  assert (Hidx : ∀ i, i ∈ blindsIndex sel → is_Some (py_getitem combIds i)).
  { intros i Hi. apply list_elem_of_lookup in Hi as [k Hk].
    assert (Hkn : (k < n)%nat).
    { destruct Hlen as [Hbl _]. rewrite <- Hbl. by eapply lookup_lt_Some. }
    specialize (Hch k ltac:(apply elem_of_seq; lia)). unfold chosen in Hch.
    assert (Hsome : ∀ j : nat, (j < length combIds)%nat →
                      is_Some (py_getitem combIds (Z.of_nat j))).
    { intros j Hj. unfold py_getitem. rewrite py_index_nat by done.
      by apply lookup_lt_is_Some_2. }
    destruct (list_find _ (colf k)) as [[j q]|] eqn:Hfind.
    - destruct Hch as (Hb & _). assert (i = Z.of_nat j) as -> by congruence.
      apply Hsome. apply list_find_Some in Hfind as (Hj & _).
      apply lookup_lt_Some in Hj. unfold colf in Hj. by rewrite length_map in Hj.
    - destruct Hch as (Hb & _). assert (i = fallback) as -> by congruence.
      unfold fallback. replace (Z.of_nat (length combIds) - 1)
        with (Z.of_nat (length combIds - 1)) by lia.
      apply Hsome. lia. }
  set (names := map (fun i => default [] (py_getitem combIds i)) (blindsIndex sel)).
  assert (Hnames : Forall2 (fun i name => py_getitem combIds i = Some name)
                     (blindsIndex sel) names).
  { unfold names. apply Forall2_fmap_r, Forall_Forall2_diag, Forall_forall.
    intros i Hi. simpl. by destruct (Hidx i Hi) as [c ->]. }
  assert (Hlg : logic s1 = logic s) by (by destruct Hs1 as ((_ & _ & ?) & _)).
  exists combs, names, sel, s1. split_and!; try done.
  - unfold blindsState.
    rewrite (bind_ok _ _ _ _ _ Hrun_h).
    assert (Hcand : candidates None s = (Ok combIds, s)).
    { unfold candidates. by rewrite (bind_ok _ _ _ _ _ Hl). }
    rewrite (bind_ok _ _ _ _ _ Hcand).
    rewrite (bind_ok _ _ _ _ _ Hres).
    rewrite (bind_ok get _ s1 s1 s1 eq_refl).
    rewrite Hhl, Hlg. fold fallback. fold start.
    rewrite (bind_ok _ _ _ _ _ Hsel). cbn [fst].
    rewrite (bind_ok _ _ _ _ _ (map_m_of_option _ IndexError _ names s1 Hnames)).
    reflexivity.
  - intros k Hk. exists (colf k). split.
    + apply mapM_Some_2. unfold colf. apply Forall2_fmap_r, Forall_Forall2_diag, Forall_forall.
      intros comb Hin. by apply Hcv.
    + unfold fallback in Hch. rewrite Hcl in Hch. apply Hch, elem_of_seq. lia.
Qed.

Lemma two_states_invariant : wf two_states.
Proof. apply (steps_run_writers wf_kept _ call_wf_kept init), wf_init. Qed.

Lemma blindsState_takes_first_rejected_witness :
  ∃ combs names sel s',
    blindsState None None two_windows = (Ok (names, sel), s') ∧
    same_reads two_windows s' ∧
    outcome longestStateIds two_windows = Ok combs ∧
    sel_lengths sel 2 ∧
    Forall2 (fun i name => py_getitem (map (map PInt) combs) i = Some name)
      (blindsIndex sel) names ∧
    ∀ k, (k < 2)%nat →
      ∃ col, mapM (candidate_value two_windows (Z.of_nat k)) (map (map PInt) combs)
             = Some col ∧
             chosen (logic two_windows) k col (Z.of_nat (length combs) - 1) sel.
Proof.
  apply (blindsState_takes_first_rejected two_windows 2).
  - apply two_windows_invariant.
  - apply two_windows_order.
  - vm_compute. reflexivity.
  - lia.
Defined.

(** ** What a write changes *)

(** Replacing the series at [i], [j]: the samples of that series are the
    new ones, all others are kept. *)
Lemma stored_set_series s i j row dd (d' : gmap Z cell) i' j' h :
  _values s !! i = Some row → row !! j = Some dd →
  stored (set_values (<[i := <[j := d']> row]> (_values s)) s) i' j' h
  = if decide (i' = i ∧ j' = j) then d' !! h else stored s i' j' h.
Proof.
  intros Hrow Hdd. unfold stored, series. simpl.
  destruct (decide (i' = i ∧ j' = j)) as [[-> ->]|Hne].
  - rewrite list_lookup_insert_eq by (by eapply lookup_lt_Some).
    by rewrite list_lookup_insert_eq by (by eapply lookup_lt_Some).
  - destruct (decide (i' = i)) as [->|Hi].
    + rewrite list_lookup_insert_eq by (by eapply lookup_lt_Some).
      rewrite Hrow. rewrite list_lookup_insert_ne by (intros ->; by apply Hne). done.
    + by rewrite list_lookup_insert_ne.
Qed.

Lemma stored_series s i j dd h : series s i j = Some dd → stored s i j h = dd !! h.
Proof. intros H. unfold stored. by rewrite H. Qed.

(** A look-up in a series that exists: what it returns and leaves. *)
Lemma getitem_stored s i j dd hoy :
  series s i j = Some dd →
  ∃ s', values_getitem (Z.of_nat i) (Z.of_nat j) hoy s
          = (Ok (default double (dd !! hoy)), s') ∧
        values_only s s' ∧ (wf s → wf s') ∧
        series s' i j = Some (<[hoy := default double (dd !! hoy)]> dd) ∧
        ∀ i' j' h, stored s' i' j' h
                   = if decide (i' = i ∧ j' = j ∧ h = hoy)
                     then Some (default double (dd !! hoy)) else stored s i' j' h.
Proof.
  intros Hser. destruct (series_Some _ _ _ _ Hser) as (row & Hrow & Hdd).
  unfold values_getitem. rewrite (values_series_nat _ _ _ _ _ Hrow Hdd).
  destruct (dd !! hoy) as [c|] eqn:Hc; simpl.
  - exists s. split; [done|]. split; [done|]. split; [done|]. split.
    + by rewrite insert_id.
    + intros i' j' h. destruct (decide _) as [(-> & -> & ->)|]; [|done].
      by rewrite (stored_series _ _ _ _ _ Hser).
  - eexists. split; [done|]. split; [done|]. split; [by apply wf_set_series|]. split.
    + unfold series. simpl.
      rewrite list_lookup_insert_eq by (by eapply lookup_lt_Some).
      by rewrite list_lookup_insert_eq by (by eapply lookup_lt_Some).
    + intros i' j' h. rewrite (stored_set_series _ _ _ _ _ _ _ _ _ Hrow Hdd).
      destruct (decide (i' = i ∧ j' = j)) as [[-> ->]|Hne].
      * destruct (decide (h = hoy)) as [->|Hh].
        -- rewrite decide_True by done. by rewrite lookup_insert_eq.
        -- rewrite decide_False by (intros (_ & _ & ?); done).
           rewrite lookup_insert_ne by done. by rewrite (stored_series _ _ _ _ _ Hser).
      * rewrite decide_False; [done|]. intros (? & ? & _). by apply Hne.
Qed.

(** An assignment in a series that exists. *)
Lemma setitem_stored s i j dd hoy c :
  series s i j = Some dd →
  ∃ s', values_setitem (Z.of_nat i) (Z.of_nat j) hoy c s = (Ok tt, s') ∧
        values_only s s' ∧ (wf s → wf s') ∧
        ∀ i' j' h, stored s' i' j' h
                   = if decide (i' = i ∧ j' = j ∧ h = hoy) then Some c
                     else stored s i' j' h.
Proof.
  intros Hser. destruct (series_Some _ _ _ _ Hser) as (row & Hrow & Hdd).
  unfold values_setitem. rewrite (values_series_nat _ _ _ _ _ Hrow Hdd).
  eexists. split; [done|]. split; [done|]. split; [by apply wf_set_series|].
  intros i' j' h. rewrite (stored_set_series _ _ _ _ _ _ _ _ _ Hrow Hdd).
  destruct (decide (i' = i ∧ j' = j)) as [[-> ->]|Hne].
  - destruct (decide (h = hoy)) as [->|Hh].
    + rewrite decide_True by done. by rewrite lookup_insert_eq.
    + rewrite decide_False by (intros (_ & _ & ?); done).
      rewrite lookup_insert_ne by done. by rewrite (stored_series _ _ _ _ _ Hser).
  - rewrite decide_False; [done|]. intros (? & ? & _). by apply Hne.
Qed.

(** The place holders of [_createDataStructure] hold no sample. *)
Lemma create_state_stored source state s e :
  wf s → dict_get (_sources s) source = Some e →
  ∀ i' j' h, stored (after (create_state source state) s) i' j' h = stored s i' j' h.
Proof.
  intros [Hlen Hent] Hget i' j' h.
  destruct (dict_get_position _ _ _ Hget) as (p & Hp & Happ).
  destruct (Hent p source e Hp) as (Hid & row & Hrow & Hrl).
  unfold after, create_state, bind at 1, sources_getitem, bind at 1. simpl.
  rewrite Hget. simpl.
  destruct (decide (state ∈ src_state e)) as [Hin|Hnin].
  - destruct (list_index_is_Some _ _ Hin) as [j Hj].
    unfold bind. simpl. rewrite Hget. simpl. by rewrite Hj.
  - unfold bind at 1 2, modify. simpl.
    unfold values_append_state. simpl. rewrite Hid.
    rewrite py_index_nat by (by eapply lookup_lt_Some). rewrite Hrow.
    unfold bind. simpl.
    rewrite (dict_get_append_state _ _ _ _ Hget). simpl.
    rewrite list_index_app_new by done. simpl.
    unfold stored, series. simpl.
    destruct (decide (i' = p)) as [->|Hne].
    + rewrite list_lookup_insert_eq by (by eapply lookup_lt_Some). rewrite Hrow.
      destruct (decide (j' < length row)%nat).
      * by rewrite lookup_app_l.
      * rewrite lookup_app_r by lia. rewrite (lookup_ge_None_2 row j') by lia.
        destruct (j' - length row)%nat as [|k]; simpl; [done|by destruct k].
    + by rewrite list_lookup_insert_ne.
Qed.

Lemma with_source_stored source s i' j' h :
  stored (with_source source s) i' j' h = stored s i' j' h.
Proof.
  unfold stored, series, with_source. simpl.
  destruct (decide (i' < length (_values s))%nat).
  - by rewrite lookup_app_l.
  - rewrite lookup_app_r by lia. rewrite (lookup_ge_None_2 (_values s) i') by lia.
    destruct (i' - length (_values s))%nat as [|k]; simpl; [by destruct j'|by destruct k].
Qed.

(** [_createDataStructure] on a store with the invariant: it returns the
    ids of a series that exists afterwards, and adds no sample. *)
Lemma create_full source state s :
  wf s →
  ∃ s1 i j dd,
    _createDataStructure source state s = (Ok (Z.of_nat i, Z.of_nat j), s1) ∧
    wf s1 ∧ resolves s1 source state i j ∧ series s1 i j = Some dd ∧
    _isDirectLoaded s1 = _isDirectLoaded s ∧
    ∀ i' j' h, stored s1 i' j' h = stored s i' j' h.
Proof.
  intros Hwf.
  destruct (create_spec source state s Hwf) as (s1 & i & j & dd & Hc & Hwf1 & Hres & Hser & Hf).
  exists s1, i, j, dd. split_and!; try done.
  intros i' j' h.
  assert (Hs1 : s1 = after (_createDataStructure source state) s).
  { unfold after. by rewrite Hc. }
  rewrite Hs1. unfold after.
  destruct (decide (source ∈ (_sources s).*1)) as [Hin|Hnin].
  - rewrite create_known_source by done.
    destruct (dict_get_is_Some _ _ Hin) as [e He].
    apply (create_state_stored source state s e Hwf He).
  - rewrite create_new_source by done.
    rewrite <- (with_source_stored source s i' j' h).
    apply (create_state_stored source state (with_source source s)
             (mk_entry (length (_sources s).*1) [])).
    + by apply wf_with_source.
    + simpl. by apply dict_get_app_new.
Qed.

(** The assignment [self._values[sid][stateid][hoy][ind] = value] in a
    series that exists. *)
Lemma setslot_stored s i j dd hoy (isDirect : bool) v :
  series s i j = Some dd →
  ∃ r s',
    values_setslot (Z.of_nat i) (Z.of_nat j) hoy (if isDirect then 1 else 0) v s = (r, s') ∧
    values_only s s' ∧ (wf s → wf s') ∧
    (∀ i' j' h, ¬ (i' = i ∧ j' = j ∧ h = hoy) → stored s' i' j' h = stored s i' j' h) ∧
    match default double (dd !! hoy) with
    | CList t d =>
        r = Ok tt ∧ stored s' i j hoy = Some (if isDirect then CList t v else CList v d)
    | CTuple t d => r = Raise TypeError ∧ stored s' i j hoy = Some (CTuple t d)
    end.
Proof.
  intros Hser.
  destruct (getitem_stored s i j dd hoy Hser) as (s1 & Hget & Hvo1 & Hwf1 & Hser1 & Hst1).
  unfold values_setslot. rewrite (bind_ok _ _ _ _ _ Hget).
  destruct (default double (dd !! hoy)) as [t d|t d] eqn:Hold.
  - set (c' := if isDirect then CList t v else CList v d).
    assert (Hcell : cell_setitem (CList t d) (if isDirect then 1 else 0) v = Ok c').
    { unfold c'. by destruct isDirect. }
    rewrite Hcell.
    destruct (setitem_stored s1 i j _ hoy c' Hser1) as (s2 & Hset & Hvo2 & Hwf2 & Hst2).
    exists (Ok tt), s2. split; [done|]. split; [by etrans|]. split; [by auto|]. split.
    + intros i' j' h Hne. rewrite Hst2, Hst1. by rewrite !decide_False.
    + split; [done|]. rewrite Hst2. by rewrite decide_True.
  - exists (Raise TypeError), s1. simpl. split; [done|]. split; [done|]. split; [done|].
    split.
    + intros i' j' h Hne. rewrite Hst1. by rewrite decide_False.
    + split; [done|]. rewrite Hst1. by rewrite decide_True.
Qed.

(** X20.  What [setValue] does on a store the writers leave.  The source
    and the state have ids afterwards, and the invariant holds.  If the
    hour of their series holds a pair written by a coupled setter, the
    item assignment raises [TypeError] and the pair stays.  Otherwise the
    call returns, and the sample of the hour has the value in the slot
    written (total, or direct with [isDirect]) and keeps the other slot,
    which is [None] for an hour that had no sample.  No other sample of
    the store changes.  The direct flag is set with [isDirect], also where
    the call raises, and is else as before. *)
Theorem setValue_sets_one_slot (s : AnalysisPoint) (v : pynum) (hoy : Z)
    (source state : pyval) (isDirect : bool) :
  wf s →
  ∃ i j,
    resolves (after (setValue v hoy source state isDirect) s) source state i j ∧
    wf (after (setValue v hoy source state isDirect) s) ∧
    _isDirectLoaded (after (setValue v hoy source state isDirect) s)
      = isDirect || _isDirectLoaded s ∧
    (∀ i' j' h, ¬ (i' = i ∧ j' = j ∧ h = hoy) →
       stored (after (setValue v hoy source state isDirect) s) i' j' h = stored s i' j' h) ∧
    match default double (stored s i j hoy) with
    | CList t d =>
        outcome (setValue v hoy source state isDirect) s = Ok tt ∧
        stored (after (setValue v hoy source state isDirect) s) i j hoy
          = Some (if isDirect then CList t v else CList v d)
    | CTuple t d =>
        outcome (setValue v hoy source state isDirect) s = Raise TypeError ∧
        stored (after (setValue v hoy source state isDirect) s) i j hoy = Some (CTuple t d)
    end.
Proof.
  intros Hwf.
  destruct (create_full source state s Hwf)
    as (s1 & i & j & dd & Hc & Hwf1 & Hres & Hser & Hf & Hst).
  set (s2 := if isDirect then set_isDirectLoaded true s1 else s1).
  assert (Hstep : (if isDirect then modify (set_isDirectLoaded true) else ret tt) s1
                  = (Ok tt, s2)) by (subst s2; by destruct isDirect).
  assert (Hsrc2 : _sources s2 = _sources s1) by (subst s2; by destruct isDirect).
  assert (Hval2 : _values s2 = _values s1) by (subst s2; by destruct isDirect).
  assert (Hser2 : series s2 i j = Some dd) by (unfold series; by rewrite Hval2).
  assert (Hst2 : ∀ i' j' h, stored s2 i' j' h = stored s i' j' h).
  { intros i' j' h. rewrite <- Hst. unfold stored, series. by rewrite Hval2. }
  assert (Hf2 : _isDirectLoaded s2 = isDirect || _isDirectLoaded s).
  { subst s2. destruct isDirect; simpl; [done|]. done. }
  destruct (setslot_stored s2 i j dd hoy isDirect v Hser2)
    as (r & s3 & Hslot & (Hsrc3 & Hf3 & _) & Hwf3 & Hst3 & Hcase).
  assert (Hrun : setValue v hoy source state isDirect s = (r, s3)).
  { unfold setValue. rewrite (bind_ok _ _ _ _ _ Hc). cbv beta iota.
    by rewrite (bind_ok _ _ _ _ _ Hstep). }
  unfold after, outcome. rewrite Hrun. simpl.
  exists i, j. split_and!.
  - apply (resolves_ext s1); [congruence|done].
  - apply Hwf3, (wf_ext s1); done.
  - congruence.
  - intros i' j' h Hne. by rewrite Hst3, Hst2.
  - rewrite <- Hst2, (stored_series _ _ _ _ hoy Hser2).
    destruct (default double (dd !! hoy)); done.
Qed.

Lemma setValue_sets_one_slot_witness :
  ∃ i j,
    resolves (after (setValue (Some 3%Q) 1 PNone PNone true) one_sample) PNone PNone i j ∧
    wf (after (setValue (Some 3%Q) 1 PNone PNone true) one_sample) ∧
    _isDirectLoaded (after (setValue (Some 3%Q) 1 PNone PNone true) one_sample)
      = true || _isDirectLoaded one_sample ∧
    (∀ i' j' h, ¬ (i' = i ∧ j' = j ∧ h = 1) →
       stored (after (setValue (Some 3%Q) 1 PNone PNone true) one_sample) i' j' h
       = stored one_sample i' j' h) ∧
    match default double (stored one_sample i j 1) with
    | CList t d =>
        outcome (setValue (Some 3%Q) 1 PNone PNone true) one_sample = Ok tt ∧
        stored (after (setValue (Some 3%Q) 1 PNone PNone true) one_sample) i j 1
          = Some (if true then CList t (Some 3%Q) else CList (Some 3%Q) d)
    | CTuple t d =>
        outcome (setValue (Some 3%Q) 1 PNone PNone true) one_sample = Raise TypeError ∧
        stored (after (setValue (Some 3%Q) 1 PNone PNone true) one_sample) i j 1
          = Some (CTuple t d)
    end.
Proof.
  apply (setValue_sets_one_slot one_sample (Some 3%Q) 1 PNone PNone true).
  apply setValue_wf, wf_init.
Defined.

(** X21.  What [setCoupledValue] does on a store the writers leave.  The
    source and the state have ids afterwards and the invariant holds.
    Given at least two values the call returns, the sample of the hour is
    the pair of the first two, whatever was there, and the direct flag is
    set.  Given fewer it raises 'Wrong input', and neither a sample nor
    the flag changes.  In both cases every other sample is kept. *)
Theorem setCoupledValue_sets_one_sample (s : AnalysisPoint) (value : list pynum)
    (hoy : Z) (source state : pyval) :
  wf s →
  ∃ i j,
    resolves (after (setCoupledValue value hoy source state) s) source state i j ∧
    wf (after (setCoupledValue value hoy source state) s) ∧
    (∀ i' j' h, ¬ (i' = i ∧ j' = j ∧ h = hoy) →
       stored (after (setCoupledValue value hoy source state) s) i' j' h
       = stored s i' j' h) ∧
    match value with
    | t :: d :: _ =>
        outcome (setCoupledValue value hoy source state) s = Ok tt ∧
        stored (after (setCoupledValue value hoy source state) s) i j hoy
          = Some (CTuple t d) ∧
        _isDirectLoaded (after (setCoupledValue value hoy source state) s) = true
    | _ =>
        outcome (setCoupledValue value hoy source state) s = Raise (ValueError WrongInput) ∧
        stored (after (setCoupledValue value hoy source state) s) i j hoy
          = stored s i j hoy ∧
        _isDirectLoaded (after (setCoupledValue value hoy source state) s)
          = _isDirectLoaded s
    end.
Proof.
  intros Hwf.
  destruct (create_full source state s Hwf)
    as (s1 & i & j & dd & Hc & Hwf1 & Hres & Hser & Hf & Hst).
  exists i, j. unfold after, outcome, setCoupledValue.
  rewrite (bind_ok _ _ _ _ _ Hc). cbv beta iota.
  assert (Hshort : ∀ value', (∀ t d r, value' ≠ t :: d :: r) →
            couple value' s1 = (Raise IndexError, s1)).
  { intros [|t [|d r]] Hne; try done. by destruct (Hne t d r). }
  destruct value as [|t [|d rest]].
  1,2: unfold bind, try_except; rewrite Hshort by done; simpl;
       split_and!; try done; intros i' j' h _; apply Hst.
  destruct (setitem_stored s1 i j dd hoy (CTuple t d) Hser)
    as (s2 & Hset & (Hsrc2 & _) & Hwf2 & Hst2).
  unfold bind, try_except, couple, ret. cbv beta iota. rewrite Hset. simpl.
  split_and!.
  - apply (resolves_ext s1); done.
  - apply (wf_ext s2); [done|done|by apply Hwf2].
  - intros i' j' h Hne. unfold stored, series in *. simpl.
    specialize (Hst2 i' j' h). rewrite decide_False in Hst2 by done.
    rewrite Hst2. apply Hst.
  - done.
  - specialize (Hst2 i j hoy). rewrite decide_True in Hst2 by done.
    unfold stored, series in *. simpl. exact Hst2.
  - done.
Qed.

Lemma setCoupledValue_sets_one_sample_witness :
  ∃ i j,
    resolves (after (setCoupledValue [Some 7%Q] 1 PNone PNone) one_sample) PNone PNone i j ∧
    wf (after (setCoupledValue [Some 7%Q] 1 PNone PNone) one_sample) ∧
    (∀ i' j' h, ¬ (i' = i ∧ j' = j ∧ h = 1) →
       stored (after (setCoupledValue [Some 7%Q] 1 PNone PNone) one_sample) i' j' h
       = stored one_sample i' j' h) ∧
    outcome (setCoupledValue [Some 7%Q] 1 PNone PNone) one_sample
      = Raise (ValueError WrongInput) ∧
    stored (after (setCoupledValue [Some 7%Q] 1 PNone PNone) one_sample) i j 1
      = stored one_sample i j 1 ∧
    _isDirectLoaded (after (setCoupledValue [Some 7%Q] 1 PNone PNone) one_sample)
      = _isDirectLoaded one_sample.
Proof.
  apply (setCoupledValue_sets_one_sample one_sample [Some 7%Q] 1 PNone PNone).
  apply setValue_wf, wf_init.
Defined.

(** ** Reading back what the scalar setter wrote *)

(** The ids a known source and state name resolve to. *)
Lemma names_to_ids s source state i j :
  resolves s source state i j → isdigit state = false →
  sourceId source s = (Ok (Z.of_nat i), s) ∧
  blindStateId source state s = (Ok (Z.of_nat j), s).
Proof.
  intros (e & Hget & Hid & Hj) Hdig. split.
  - unfold sourceId, try_except, bind at 1, sources_getitem, bind at 1. simpl.
    rewrite Hget. simpl. by rewrite Hid.
  - unfold blindStateId. rewrite Hdig.
    unfold try_except, bind at 1, sources_getitem, bind at 1. simpl. rewrite Hget. simpl.
    by rewrite Hj.
Qed.

(** The readers by name on a stored sample. *)
Lemma read_stored_by_name s source state i j hoy c :
  resolves s source state i j → isdigit state = false →
  stored s i j hoy = Some c →
  value hoy source state s = (Ok (cell_total c), s) ∧
  directValue hoy source state s = (Ok (cell_direct c), s).
Proof.
  intros Hres Hdig Hst.
  destruct (names_to_ids s source state i j Hres Hdig) as [Hsid Hstate].
  unfold stored in Hst. destruct (series s i j) as [dd|] eqn:Hser; [|done].
  destruct (series_Some _ _ _ _ Hser) as (row & Hrow & Hdd).
  pose proof (values_getitem_present _ _ hoy s _ _ _ _ c
                (values_series_nat _ _ _ _ _ Hrow Hdd) Hst) as Hget.
  split.
  - unfold value. rewrite (bind_ok _ _ _ _ _ Hsid), (bind_ok _ _ _ _ _ Hstate).
    unfold try_except. by rewrite (bind_ok _ _ _ _ _ Hget).
  - unfold directValue. rewrite (bind_ok _ _ _ _ _ Hsid), (bind_ok _ _ _ _ _ Hstate).
    unfold try_except. by rewrite (bind_ok _ _ _ _ _ Hget).
Qed.

(** X22.  The round trip of the scalar setter.  On a store the writers
    leave, for a state whose name does not print as digits: where
    [setValue] returns, [value] (or [directValue] for a write with
    [isDirect]) returns the value written for the hour, and the look-up
    leaves the store as it is. *)
Theorem setValue_round_trip (s : AnalysisPoint) (v : pynum) (hoy : Z)
    (source state : pyval) (isDirect : bool) :
  wf s → isdigit state = false →
  outcome (setValue v hoy source state isDirect) s = Ok tt →
  (if isDirect then directValue hoy source state else value hoy source state)
    (after (setValue v hoy source state isDirect) s)
  = (Ok v, after (setValue v hoy source state isDirect) s).
Proof.
  intros Hwf Hdig.
  destruct (create_full source state s Hwf)
    as (s1 & i & j & dd & Hc & Hwf1 & Hres & Hser & Hf & Hst).
  set (s2 := if isDirect then set_isDirectLoaded true s1 else s1).
  assert (Hstep : (if isDirect then modify (set_isDirectLoaded true) else ret tt) s1
                  = (Ok tt, s2)) by (subst s2; by destruct isDirect).
  assert (Hsrc2 : _sources s2 = _sources s1) by (subst s2; by destruct isDirect).
  assert (Hval2 : _values s2 = _values s1) by (subst s2; by destruct isDirect).
  assert (Hser2 : series s2 i j = Some dd) by (unfold series; by rewrite Hval2).
  destruct (setslot_stored s2 i j dd hoy isDirect v Hser2)
    as (r & s3 & Hslot & (Hsrc3 & _) & _ & _ & Hcase).
  assert (Hrun : setValue v hoy source state isDirect s = (r, s3)).
  { unfold setValue. rewrite (bind_ok _ _ _ _ _ Hc). cbv beta iota.
    by rewrite (bind_ok _ _ _ _ _ Hstep). }
  unfold after, outcome. rewrite Hrun. simpl. intros ->.
  assert (Hres3 : resolves s3 source state i j).
  { apply (resolves_ext s1); [congruence|done]. }
  destruct (default double (dd !! hoy)) as [t d|t d]; [|by destruct Hcase].
  destruct Hcase as [_ Hnew].
  destruct (read_stored_by_name s3 source state i j hoy _ Hres3 Hdig Hnew) as [Hv Hd].
  by destruct isDirect.
Qed.

Lemma setValue_round_trip_witness :
  value 4 (PStr "A") (PStr "a0")
    (after (setValue (Some 8%Q) 4 (PStr "A") (PStr "a0") false) two_states)
  = (Ok (Some 8%Q), after (setValue (Some 8%Q) 4 (PStr "A") (PStr "a0") false) two_states).
Proof.
  apply (setValue_round_trip two_states (Some 8%Q) 4 (PStr "A") (PStr "a0") false).
  - apply two_states_invariant.
  - reflexivity.
  - vm_compute. reflexivity.
Defined.

(** ** The vectorised setters and the scalar ones *)

Lemma values_only_setslot sid stateid hoy ind v :
  steps values_only (values_setslot sid stateid hoy ind v).
Proof.
  apply (steps_bind values_only); [apply values_only_getitem|]. intros c.
  destruct (cell_setitem c ind v);
    [apply values_only_setitem|apply (steps_raise values_only)].
Qed.

Lemma mark_loaded s : _isDirectLoaded s = true → set_isDirectLoaded true s = s.
Proof. destruct s. simpl. by intros ->. Qed.

(** On a store that knows the source and the state, [setValue] is the
    item assignment. *)
Lemma setValue_known s v hoy source state (isDirect : bool) i j :
  resolves s source state i j →
  (isDirect = true → _isDirectLoaded s = true) →
  setValue v hoy source state isDirect s
  = values_setslot (Z.of_nat i) (Z.of_nat j) hoy (if isDirect then 1 else 0) v s.
Proof.
  intros Hres Hflag. unfold setValue.
  rewrite (bind_ok _ _ _ _ _ (create_existing source state s i j Hres)). cbv beta iota.
  destruct isDirect; [|done].
  unfold bind, modify. by rewrite mark_loaded by auto.
Qed.

Lemma for_each_setValue_known l source state (isDirect : bool) i j :
  ∀ s, resolves s source state i j →
       (isDirect = true → _isDirectLoaded s = true) →
       for_each l (fun '(hoy, v) => setValue v hoy source state isDirect) s
       = for_each l (fun '(hoy, v) =>
                       values_setslot (Z.of_nat i) (Z.of_nat j) hoy
                         (if isDirect then 1 else 0) v) s.
Proof.
  induction l as [|[hoy v] l IH]; intros s Hres Hflag; simpl; [done|].
  unfold bind. rewrite (setValue_known s v hoy source state isDirect i j) by done.
  pose proof (values_only_setslot (Z.of_nat i) (Z.of_nat j) hoy
                (if isDirect then 1 else 0) v s) as (Hsrc & Hf & _).
  unfold after in *.
  destruct (values_setslot _ _ _ _ _ s) as [[[]|e] s1]; simpl in *; [|done].
  apply IH.
  - by apply (resolves_ext s).
  - intros H. rewrite Hf. by apply Hflag.
Qed.

(** X23.  [setValues] is [setValue] repeated.  On a store the writers
    leave, with at least one pair of an hour and a value, and the
    arguments of equal length (or one of them a generator, for which the
    lengths are not compared): the call does what the calls of [setValue]
    for the pairs do one after the other, returns what they return, and
    stops where one of them raises. *)
Theorem setValues_repeats_setValue (s : AnalysisPoint) (lazy : bool)
    (values : list pynum) (hoys : list Z) (source state : pyval) (isDirect : bool) :
  wf s → zip hoys values ≠ [] →
  lazy = true ∨ length values = length hoys →
  setValues lazy values hoys source state isDirect s
  = for_each (zip hoys values)
      (fun '(hoy, v) => setValue v hoy source state isDirect) s.
Proof.
  intros Hwf Hne Hlen.
  destruct (create_full source state s Hwf)
    as (s1 & i & j & dd & Hc & Hwf1 & Hres & Hser & Hf & Hst).
  set (s2 := if isDirect then set_isDirectLoaded true s1 else s1).
  assert (Hstep : (if isDirect then modify (set_isDirectLoaded true) else ret tt) s1
                  = (Ok tt, s2)) by (subst s2; by destruct isDirect).
  assert (Hres2 : resolves s2 source state i j).
  { apply (resolves_ext s1); [subst s2; by destruct isDirect|done]. }
  assert (Hflag2 : isDirect = true → _isDirectLoaded s2 = true).
  { intros ->. done. }
  assert (Hassert : assert_same_length lazy values hoys s = (Ok tt, s)).
  { unfold assert_same_length. destruct lazy; [done|].
    destruct Hlen as [|Hlen]; [done|]. by rewrite decide_True. }
  unfold setValues. rewrite (bind_ok _ _ _ _ _ Hassert).
  rewrite (bind_ok _ _ _ _ _ Hc). cbv beta iota. rewrite (bind_ok _ _ _ _ _ Hstep).
  destruct (zip hoys values) as [|[hoy v] l]; [done|].
  cbn [for_each]. unfold bind at 2. unfold setValue at 1.
  rewrite (bind_ok _ _ _ _ _ Hc). cbv beta iota. rewrite (bind_ok _ _ _ _ _ Hstep).
  unfold bind at 1.
  pose proof (values_only_setslot (Z.of_nat i) (Z.of_nat j) hoy
                (if isDirect then 1 else 0) v s2) as (Hsrc & Hf3 & _).
  unfold after in *.
  destruct (values_setslot _ _ _ _ _ s2) as [[[]|e] s3]; simpl in *; [|done].
  symmetry. apply for_each_setValue_known.
  - by apply (resolves_ext s2).
  - intros H. rewrite Hf3. by apply Hflag2.
Qed.

Lemma setValues_repeats_setValue_witness :
  setValues false [Some 1%Q; Some 2%Q] [7; 8] (PStr "A") (PStr "a2") true two_states
  = for_each (zip [7; 8] [Some 1%Q; Some 2%Q])
      (fun '(hoy, v) => setValue v hoy (PStr "A") (PStr "a2") true) two_states.
Proof.
  apply (setValues_repeats_setValue two_states false [Some 1%Q; Some 2%Q] [7; 8]
           (PStr "A") (PStr "a2") true).
  - apply two_states_invariant.
  - discriminate.
  - right. reflexivity.
Defined.

(** The loop of [setCoupledValues] on a series that exists: it stops at
    the first value that is no pair. *)
Lemma coupled_writes_outcome (i j : nat) l :
  ∀ s, is_Some (series s i j) →
    ∃ s', for_each l
            (fun '(hoy, value) =>
               try_except
                 (let* c := couple value in
                  values_setitem (Z.of_nat i) (Z.of_nat j) hoy c)
                 wrong_input) s
          = (if forallb is_pair l then Ok tt else Raise (ValueError WrongInput), s') ∧
          values_only s s'.
Proof.
  set (w := fun '(hoy, value) =>
              try_except
                (let* c := couple value in
                 values_setitem (Z.of_nat i) (Z.of_nat j) hoy c)
                wrong_input).
  induction l as [|[hoy value] l IH]; intros s [dd Hser]; cbn [for_each forallb].
  - by exists s.
  - assert (Hshort : is_pair (hoy, value) = false →
              w (hoy, value) s = (Raise (ValueError WrongInput), s)).
    { unfold is_pair. simpl. by destruct value as [|t [|d r]]. }
    destruct (is_pair (hoy, value)) eqn:Hp; cbn [andb].
    + destruct value as [|t [|d r]]; try done.
      destruct (setitem_stored s i j dd hoy (CTuple t d) Hser) as (s1 & Hset & Hvo & _ & Hst).
      assert (Hw : w (hoy, t :: d :: r) s = (Ok tt, s1)).
      { unfold w, try_except, bind, couple, ret. by rewrite Hset. }
      rewrite (bind_ok _ _ _ _ _ Hw).
      destruct (IH s1) as (s' & -> & Hvo').
      { pose proof (Hst i j hoy) as H. rewrite decide_True in H by done.
        unfold stored in H. destruct (series s1 i j); [by eauto|done]. }
      exists s'. split; [done|]. by etrans.
    + unfold bind. rewrite Hshort by done. by exists s.
Qed.

(** X24.  How [setCoupledValues] ends on a store the writers leave.  It
    raises [AssertionError] where two sequences of different lengths are
    given, 'Wrong input' where one of the values paired with an hour has
    fewer than two entries, and returns otherwise.  The direct flag is set
    where it returns; where it raises the flag is as before, also if pairs
    with direct values were written before the value that is refused. *)
Theorem setCoupledValues_outcome (s : AnalysisPoint) (lazy : bool)
    (values : list (list pynum)) (hoys : list Z) (source state : pyval) :
  wf s →
  outcome (setCoupledValues lazy values hoys source state) s
  = (if negb lazy && negb (bool_decide (length values = length hoys))
     then Raise AssertionError
     else if forallb is_pair (zip hoys values) then Ok tt
          else Raise (ValueError WrongInput)) ∧
  _isDirectLoaded (after (setCoupledValues lazy values hoys source state) s)
  = match outcome (setCoupledValues lazy values hoys source state) s with
    | Ok _ => true
    | Raise _ => _isDirectLoaded s
    end.
Proof.
  intros Hwf.
  destruct (create_full source state s Hwf)
    as (s1 & i & j & dd & Hc & _ & _ & Hser & Hf & _).
  destruct (coupled_writes_outcome i j (zip hoys values) s1 ltac:(by eauto))
    as (s2 & Hw & (_ & Hf2 & _)).
  unfold outcome, after, setCoupledValues.
  set (body := bind (_createDataStructure source state) _).
  assert (Hbody : body s = if forallb is_pair (zip hoys values)
                           then (Ok tt, set_isDirectLoaded true s2)
                           else (Raise (ValueError WrongInput), s2)).
  { unfold body. rewrite (bind_ok _ _ _ _ _ Hc). cbv beta iota.
    destruct (forallb is_pair (zip hoys values)).
    - by rewrite (bind_ok _ _ _ _ _ Hw).
    - by rewrite (bind_raise _ _ _ _ _ Hw). }
  assert (Hend : (body s).1 = (if forallb is_pair (zip hoys values) then Ok tt
                               else Raise (ValueError WrongInput)) ∧
                 _isDirectLoaded (body s).2
                 = match (body s).1 with Ok _ => true | Raise _ => _isDirectLoaded s end).
  { rewrite Hbody. destruct (forallb is_pair (zip hoys values)); simpl; [done|].
    split; [done|congruence]. }
  unfold bind, assert_same_length.
  destruct lazy; [exact Hend|].
  destruct (decide (length values = length hoys)) as [Hl|Hl].
  - rewrite bool_decide_eq_true_2 by done. exact Hend.
  - by rewrite bool_decide_eq_false_2.
Qed.

Lemma setCoupledValues_outcome_witness :
  outcome (setCoupledValues false [[Some 1%Q; Some 1%Q]; [Some 2%Q]] [0; 1]
             (PStr "A") (PStr "a0")) two_states
  = (if negb false && negb (bool_decide (length [[Some 1%Q; Some 1%Q]; [Some 2%Q]]
                                         = length [0; 1]))
     then Raise AssertionError
     else if forallb is_pair (zip [0; 1] [[Some 1%Q; Some 1%Q]; [Some 2%Q]]) then Ok tt
          else Raise (ValueError WrongInput)) ∧
  _isDirectLoaded (after (setCoupledValues false [[Some 1%Q; Some 1%Q]; [Some 2%Q]] [0; 1]
                            (PStr "A") (PStr "a0")) two_states)
  = match outcome (setCoupledValues false [[Some 1%Q; Some 1%Q]; [Some 2%Q]] [0; 1]
                     (PStr "A") (PStr "a0")) two_states with
    | Ok _ => true
    | Raise _ => _isDirectLoaded two_states
    end.
Proof.
  apply (setCoupledValues_outcome two_states false [[Some 1%Q; Some 1%Q]; [Some 2%Q]] [0; 1]
           (PStr "A") (PStr "a0")).
  apply two_states_invariant.
Defined.

(** The assignment of a pair does not look at the direct flag. *)
Lemma coupled_write_flag sid stateid hoy value b s :
  try_except (let* c := couple value in values_setitem sid stateid hoy c) wrong_input
    (set_isDirectLoaded b s)
  = (let '(r, s') :=
       try_except (let* c := couple value in values_setitem sid stateid hoy c)
         wrong_input s in
     (r, set_isDirectLoaded b s')).
Proof.
  unfold try_except, bind, couple, values_setitem.
  destruct value as [|t [|d r]]; simpl; try done.
  by destruct (values_series (_values s) sid stateid) as [[[[i j] row] dd]|].
Qed.

(** On a store that knows the source and the state and has the flag set,
    the calls of [setCoupledValue] are the assignments. *)
Lemma for_each_setCoupledValue_known l source state i j :
  ∀ s, resolves s source state i j →
       for_each l (fun '(hoy, value) => setCoupledValue value hoy source state)
         (set_isDirectLoaded true s)
       = (let '(r, s') :=
            for_each l
              (fun '(hoy, value) =>
                 try_except
                   (let* c := couple value in
                    values_setitem (Z.of_nat i) (Z.of_nat j) hoy c)
                   wrong_input) s in
          (r, set_isDirectLoaded true s')).
Proof.
  set (w := fun '(hoy, value) =>
              try_except
                (let* c := couple value in
                 values_setitem (Z.of_nat i) (Z.of_nat j) hoy c)
                wrong_input).
  induction l as [|[hoy value] l IH]; intros s Hres; cbn [for_each]; [done|].
  assert (Hw : setCoupledValue value hoy source state (set_isDirectLoaded true s)
               = (let '(r, s') := w (hoy, value) s in (r, set_isDirectLoaded true s'))).
  { unfold setCoupledValue.
    rewrite (bind_ok _ _ _ _ _
               (create_existing source state (set_isDirectLoaded true s) i j
                  ltac:(by apply (resolves_ext s)))).
    cbv beta iota. unfold bind at 1. rewrite coupled_write_flag.
    unfold w. destruct (try_except _ wrong_input s) as [[[]|e] s1]; [|done].
    unfold modify. by destruct s1. }
  pose proof (steps_coupled_write values_only (fun a b c d => values_only_setitem a b c d)
                (Z.of_nat i) (Z.of_nat j) hoy value s) as (Hsrc & _).
  unfold after in Hsrc. fold (w (hoy, value)) in Hsrc.
  unfold bind. rewrite Hw.
  destruct (w (hoy, value) s) as [[[]|e] s1]; [|done].
  apply IH. by apply (resolves_ext s).
Qed.

(** X25.  [setCoupledValues] is [setCoupledValue] repeated, as long as
    every value is a pair.  On a store the writers leave, with at least
    one pair of an hour and a value, the arguments of equal length (or one
    of them a generator) and at least two entries in every value: the call
    returns and leaves the store that the calls of [setCoupledValue] for
    the pairs leave one after the other. *)
Theorem setCoupledValues_repeats_setCoupledValue (s : AnalysisPoint) (lazy : bool)
    (values : list (list pynum)) (hoys : list Z) (source state : pyval) :
  wf s → zip hoys values ≠ [] →
  lazy = true ∨ length values = length hoys →
  forallb is_pair (zip hoys values) = true →
  outcome (setCoupledValues lazy values hoys source state) s = Ok tt ∧
  setCoupledValues lazy values hoys source state s
  = for_each (zip hoys values)
      (fun '(hoy, value) => setCoupledValue value hoy source state) s.
Proof.
  intros Hwf Hne Hlen Hpairs.
  destruct (create_full source state s Hwf)
    as (s1 & i & j & dd & Hc & _ & Hres & Hser & _ & _).
  destruct (coupled_writes_outcome i j (zip hoys values) s1 ltac:(by eauto))
    as (s2 & Hw & _).
  rewrite Hpairs in Hw.
  assert (Hassert : assert_same_length lazy values hoys s = (Ok tt, s)).
  { unfold assert_same_length. destruct lazy; [done|].
    destruct Hlen as [|Hlen]; [done|]. by rewrite decide_True. }
  assert (Hrun : setCoupledValues lazy values hoys source state s
                 = (Ok tt, set_isDirectLoaded true s2)).
  { unfold setCoupledValues. rewrite (bind_ok _ _ _ _ _ Hassert).
    rewrite (bind_ok _ _ _ _ _ Hc). cbv beta iota.
    by rewrite (bind_ok _ _ _ _ _ Hw). }
  split; [unfold outcome; by rewrite Hrun|]. rewrite Hrun.
  destruct (zip hoys values) as [|[hoy value] l]; [done|].
  cbn [for_each forallb] in *.
  set (w := fun '(hoy, value) =>
              try_except
                (let* c := couple value in
                 values_setitem (Z.of_nat i) (Z.of_nat j) hoy c)
                wrong_input) in *.
  unfold bind at 1 in Hw.
  pose proof (steps_coupled_write values_only (fun a b c d => values_only_setitem a b c d)
                (Z.of_nat i) (Z.of_nat j) hoy value s1) as (Hsrc & _).
  unfold after in Hsrc. fold (w (hoy, value)) in Hsrc.
  change (try_except _ wrong_input s1) with (w (hoy, value) s1) in Hw.
  destruct (w (hoy, value) s1) as [[[]|e] s1'] eqn:Hw1; [|done].
  assert (Hfirst : setCoupledValue value hoy source state s
                   = (Ok tt, set_isDirectLoaded true s1')).
  { unfold setCoupledValue. rewrite (bind_ok _ _ _ _ _ Hc). cbv beta iota.
    fold (w (hoy, value)). by rewrite (bind_ok _ _ _ _ _ Hw1). }
  rewrite (bind_ok _ _ _ _ _ Hfirst).
  rewrite (for_each_setCoupledValue_known l source state i j s1')
    by (by apply (resolves_ext s1)).
  fold w. by rewrite Hw.
Qed.

Lemma setCoupledValues_repeats_setCoupledValue_witness :
  outcome (setCoupledValues false [[Some 1%Q; Some 1%Q]; [Some 2%Q; None]] [0; 1]
             (PStr "A") (PStr "a0")) two_states = Ok tt ∧
  setCoupledValues false [[Some 1%Q; Some 1%Q]; [Some 2%Q; None]] [0; 1]
    (PStr "A") (PStr "a0") two_states
  = for_each (zip [0; 1] [[Some 1%Q; Some 1%Q]; [Some 2%Q; None]])
      (fun '(hoy, value) => setCoupledValue value hoy (PStr "A") (PStr "a0")) two_states.
Proof.
  apply (setCoupledValues_repeats_setCoupledValue two_states false
           [[Some 1%Q; Some 1%Q]; [Some 2%Q; None]] [0; 1] (PStr "A") (PStr "a0")).
  - apply two_states_invariant.
  - discriminate.
  - right. reflexivity.
  - reflexivity.
Defined.

(** ** Combinations given to [blindsState] by name *)

Lemma blindStateId_known s source e name :
  dict_get (_sources s) source = Some e →
  blindStateId source (PStr name) s
  = (if str_isdigit name then Ok (int_of_digits 0 name)
     else match list_index (PStr name) (src_state e) with
          | Some j => Ok (Z.of_nat j)
          | None => Raise (ValueError InvalidState)
          end, s).
Proof.
  intros Hget. unfold blindStateId. simpl. destruct (str_isdigit name); [done|].
  unfold try_except, bind, sources_getitem, bind. simpl. rewrite Hget. simpl.
  by destruct (list_index (PStr name) (src_state e)).
Qed.

Lemma resolve_comb_cases s srcs comb :
  (∀ source, source ∈ srcs → is_Some (dict_get (_sources s) source)) →
  ∀ count row,
    ∃ r, resolve_comb srcs count comb row s = (r, s) ∧
         match r with Ok _ => True | Raise e => bad_combination e end.
Proof.
  induction srcs as [|source srcs IH]; intros Hknown count row; simpl.
  - by exists (Ok row).
  - destruct (Hknown source) as [e He]; [apply elem_of_cons; by left|].
    unfold bind at 1. destruct (comb !! count) as [name|]; simpl.
    2: { exists (Raise IndexError). split; [done|by left]. }
    unfold bind at 1. rewrite (blindStateId_known s source e name He).
    destruct (str_isdigit name).
    + apply IH. intros src Hin. apply Hknown, elem_of_cons. by right.
    + destruct (list_index (PStr name) (src_state e)) as [j|].
      * apply IH. intros src Hin. apply Hknown, elem_of_cons. by right.
      * exists (Raise (ValueError InvalidState)). split; [done|by right].
Qed.

Lemma resolve_comb_bad s srcs comb :
  (∀ source, source ∈ srcs → is_Some (dict_get (_sources s) source)) →
  ∀ (k : nat) count row source e name,
    srcs !! k = Some source → dict_get (_sources s) source = Some e →
    comb !! (count + k)%nat = Some name →
    str_isdigit name = false → PStr name ∉ src_state e →
    ∃ e', resolve_comb srcs count comb row s = (Raise e', s) ∧ bad_combination e'.
Proof.
  induction srcs as [|src srcs IH]; intros Hknown k count row source e name Hk He Hn Hd Hnin.
  - by destruct k.
  - assert (Hrest : ∀ x, x ∈ srcs → is_Some (dict_get (_sources s) x)).
    { intros x Hin. apply Hknown, elem_of_cons. by right. }
    simpl. destruct k as [|k]; simpl in Hk.
    + injection Hk as ->. rewrite Nat.add_0_r in Hn.
      unfold bind at 1. rewrite Hn. simpl.
      unfold bind at 1. rewrite (blindStateId_known s source e name He), Hd.
      rewrite (list_index_None _ _ Hnin).
      exists (ValueError InvalidState). split; [done|by right].
    + destruct (Hknown src) as [e0 He0]; [apply elem_of_cons; by left|].
      unfold bind at 1. destruct (comb !! count) as [name0|]; simpl.
      2: { exists IndexError. split; [done|by left]. }
      unfold bind at 1. rewrite (blindStateId_known s src e0 name0 He0).
      assert (Hn' : comb !! (S count + k)%nat = Some name).
      { by replace (S count + k)%nat with (count + S k)%nat by lia. }
      destruct (str_isdigit name0).
      * by apply (IH Hrest k (S count) _ source e name).
      * destruct (list_index (PStr name0) (src_state e0)) as [j|].
        -- by apply (IH Hrest k (S count) _ source e name).
        -- exists (ValueError InvalidState). split; [done|by right].
Qed.

Lemma map_m_stops {A B} (f : A → M B) s l :
  (∀ x, x ∈ l → ∃ r, f x s = (r, s) ∧
                      match r with Ok _ => True | Raise e => bad_combination e end) →
  (∃ x e, x ∈ l ∧ f x s = (Raise e, s)) →
  ∃ e, map_m f l s = (Raise e, s) ∧ bad_combination e.
Proof.
  induction l as [|x l IH]; intros Hall (x0 & e0 & Hin & Hx0).
  - by apply elem_of_nil in Hin.
  - simpl. destruct (Hall x) as (r & Hr & Hcase); [apply elem_of_cons; by left|].
    unfold bind at 1. rewrite Hr. destruct r as [y|e]; [|by exists e].
    destruct IH as (e & He & Hbad).
    + intros x' Hx'. apply Hall, elem_of_cons. by right.
    + apply elem_of_cons in Hin as [->|Hin]; [congruence|by exists x0, e0].
    + exists e. unfold bind. by rewrite He.
Qed.

(** X26.  A combination given to [blindsState] names each state by a
    string of digits, which is taken as the id, or by the state's name.
    On a store the writers leave, if some given combination has, at the
    position of a source, an entry that is neither digits nor a state of
    that source, the call raises a [ValueError] ('Invalid state input', or
    'Length of each state ..' where an earlier combination is too short).
    The entry '-1' is such an entry: unlike in [combinedValueById], a
    source cannot be left out of a combination that is given here. *)
Theorem blindsState_rejects_unknown_state_names (s : AnalysisPoint)
    (hoys_arg : option (list Z)) (hs : list Z) (ccs : list string) (cc : string)
    (k : nat) (source : pyval) (e : source_entry) (name : string) :
  wf s → uniq s → outcome hoys s = Ok hs →
  cc ∈ ccs →
  _sources s !! k = Some (source, e) →
  map strip (split_comma cc) !! k = Some name →
  str_isdigit name = false → PStr name ∉ src_state e →
  blindsState hoys_arg (Some ccs) s = (Raise (ValueError InvalidState), s) ∨
  blindsState hoys_arg (Some ccs) s = (Raise (ValueError StateLength), s).
Proof.
  intros Hwf [Hnd Hst] Hh Hcc Hk Hname Hdig Hnin.
  assert (Hhoys : ∃ hs', (match hoys_arg with
                          | None | Some [] => hoys
                          | Some l => ret l
                          end) s = (Ok hs', s)).
  { assert (Hrun : hoys s = (Ok hs, s)).
    { pose proof (hoys_state s) as H. unfold outcome, after in *.
      destruct (hoys s) as [r s0]; simpl in *. congruence. }
    destruct hoys_arg as [[|h l]|]; by eauto. }
  destruct Hhoys as [hs' Hhoys].
  assert (Hknown : ∀ src, src ∈ (_sources s).*1 → is_Some (dict_get (_sources s) src)).
  { intros src Hin. by apply dict_get_is_Some. }
  assert (He : dict_get (_sources s) source = Some e) by (by eapply dict_get_NoDup).
  assert (Hsk : (_sources s).*1 !! k = Some source).
  { by rewrite list_lookup_fmap, Hk. }
  set (combs := map (fun cc => map strip (split_comma cc)) ccs).
  destruct (map_m_stops
              (fun comb => resolve_comb (_sources s).*1 0 comb (map PStr comb)) s combs)
    as (e' & Hm & Hbad).
  { intros comb _. by apply resolve_comb_cases. }
  { destruct (resolve_comb_bad s (_sources s).*1 (map strip (split_comma cc)) Hknown
                k 0%nat (map PStr (map strip (split_comma cc))) source e name)
      as (e' & Hr & _); try done.
    exists (map strip (split_comma cc)), e'. split; [|done].
    unfold combs. apply list_elem_of_fmap. by exists cc. }
  assert (Hcand : candidates (Some ccs) s
                  = (Raise (match e' with
                            | IndexError => ValueError StateLength
                            | _ => e'
                            end), s)).
  { unfold candidates. destruct ccs as [|c0 ccs']; [by apply elem_of_nil in Hcc|].
    rewrite (bind_ok _ _ _ _ _ (sources_returns s Hwf)).
    unfold try_except. fold combs. rewrite Hm.
    by destruct Hbad as [-> | ->]. }
  unfold blindsState. rewrite (bind_ok _ _ _ _ _ Hhoys).
  rewrite (bind_raise _ _ _ _ _ Hcand).
  destruct Hbad as [-> | ->]; [by right|by left].
Qed.

Lemma blindsState_rejects_unknown_state_names_witness :
  blindsState None (Some ["0"; "-1"]%string) two_states
    = (Raise (ValueError InvalidState), two_states) ∨
  blindsState None (Some ["0"; "-1"]%string) two_states
    = (Raise (ValueError StateLength), two_states).
Proof.
  apply (blindsState_rejects_unknown_state_names two_states None [0; 1]
           ["0"; "-1"]%string "-1"%string 0 (PStr "A")
           (mk_entry 0 [PStr "a0"; PStr "a1"]) "-1"%string).
  - apply two_states_invariant.
  - apply (steps_run_writers uniq_kept _ call_uniq_kept init), uniq_init.
  - vm_compute. reflexivity.
  - rewrite !elem_of_cons. by auto.
  - vm_compute. reflexivity.
  - vm_compute. reflexivity.
  - reflexivity.
  - simpl. rewrite !not_elem_of_cons. repeat split; try discriminate.
    apply not_elem_of_nil.
Defined.

(** ** States given by number to the readers by name *)

Lemma getitem_beyond_states s (p : nat) row z hoy :
  _values s !! p = Some row → Z.of_nat (length row) ≤ z →
  values_getitem (Z.of_nat p) z hoy s = (Raise IndexError, s).
Proof.
  intros Hrow Hz. unfold values_getitem, values_series.
  rewrite py_index_nat by (by eapply lookup_lt_Some). rewrite Hrow.
  unfold py_index. rewrite decide_False by lia. by rewrite decide_False by lia.
Qed.

Lemma reader_beyond_states {A} (m : Z → Z → M A) s source state e :
  dict_get (_sources s) source = Some e → isdigit state = true →
  m (Z.of_nat (src_id e)) (int_of state) s = (Raise IndexError, s) →
  (let* sid := sourceId source in
   let* stateid := blindStateId source state in
   try_except (m sid stateid) invalid_hoy) s = (Raise IndexError, s).
Proof.
  intros Hget Hdig Hm.
  assert (Hsid : sourceId source s = (Ok (Z.of_nat (src_id e)), s)).
  { unfold sourceId, try_except, bind, sources_getitem, bind. simpl. by rewrite Hget. }
  assert (Hstate : blindStateId source state s = (Ok (int_of state), s)).
  { unfold blindStateId. by rewrite Hdig. }
  rewrite (bind_ok _ _ _ _ _ Hsid), (bind_ok _ _ _ _ _ Hstate).
  unfold try_except. by rewrite Hm.
Qed.

(** X27.  A state given to a reader by name as a number (or a string of
    digits) is used as the state id without a check.  On a store the
    writers leave, if the number is not below the number of states of the
    source, the six readers by name raise the [IndexError] of the list
    look-up, not the [ValueError] they raise for an unknown state name;
    the store is left as it is. *)
Theorem readers_raise_IndexError_beyond_states (s : AnalysisPoint)
    (source state : pyval) (e : source_entry) (hoy h0 : Z) (hs : list Z) :
  wf s → dict_get (_sources s) source = Some e →
  isdigit state = true → Z.of_nat (length (src_state e)) ≤ int_of state →
  value hoy source state s = (Raise IndexError, s) ∧
  directValue hoy source state s = (Raise IndexError, s) ∧
  values (h0 :: hs) source state s = (Raise IndexError, s) ∧
  directValues (h0 :: hs) source state s = (Raise IndexError, s) ∧
  coupledValue hoy source state s = (Raise IndexError, s) ∧
  coupledValues (h0 :: hs) source state s = (Raise IndexError, s).
Proof.
  intros [_ Hent] Hget Hdig Hz.
  destruct (dict_get_position _ _ _ Hget) as (p & Hp & _).
  destruct (Hent p source e Hp) as (Hid & row & Hrow & Hrl).
  assert (Hraise : ∀ h, values_getitem (Z.of_nat (src_id e)) (int_of state) h s
                        = (Raise IndexError, s)).
  { intros h. rewrite Hid. apply (getitem_beyond_states s p row); [done|lia]. }
  split_and!.
  - apply (reader_beyond_states
             (fun sid stateid => let* c := values_getitem sid stateid hoy in
                                 ret (cell_total c)) s source state e); try done.
    by rewrite (bind_raise _ _ _ _ _ (Hraise hoy)).
  - apply (reader_beyond_states
             (fun sid stateid => let* c := values_getitem sid stateid hoy in
                                 ret (cell_direct c)) s source state e); try done.
    by rewrite (bind_raise _ _ _ _ _ (Hraise hoy)).
  - apply (reader_beyond_states
             (fun sid stateid =>
                map_m (fun hoy => let* c := values_getitem sid stateid hoy in
                                  ret (cell_total c)) (h0 :: hs)) s source state e); try done.
    cbn [map_m]. apply bind_raise. by rewrite (bind_raise _ _ _ _ _ (Hraise h0)).
  - apply (reader_beyond_states
             (fun sid stateid =>
                map_m (fun hoy => let* c := values_getitem sid stateid hoy in
                                  ret (cell_direct c)) (h0 :: hs)) s source state e); try done.
    cbn [map_m]. apply bind_raise. by rewrite (bind_raise _ _ _ _ _ (Hraise h0)).
  - apply (reader_beyond_states (fun sid stateid => values_getitem sid stateid hoy)
             s source state e); try done.
  - apply (reader_beyond_states
             (fun sid stateid => map_m (values_getitem sid stateid) (h0 :: hs))
             s source state e); try done.
    cbn [map_m]. apply bind_raise. apply Hraise.
Qed.

Lemma readers_raise_IndexError_beyond_states_witness :
  value 0 (PStr "A") (PStr "2") two_states = (Raise IndexError, two_states) ∧
  directValue 0 (PStr "A") (PStr "2") two_states = (Raise IndexError, two_states) ∧
  values [0; 1] (PStr "A") (PStr "2") two_states = (Raise IndexError, two_states) ∧
  directValues [0; 1] (PStr "A") (PStr "2") two_states = (Raise IndexError, two_states) ∧
  coupledValue 0 (PStr "A") (PStr "2") two_states = (Raise IndexError, two_states) ∧
  coupledValues [0; 1] (PStr "A") (PStr "2") two_states = (Raise IndexError, two_states).
Proof.
  apply (readers_raise_IndexError_beyond_states two_states (PStr "A") (PStr "2")
           (mk_entry 0 [PStr "a0"; PStr "a1"]) 0 0 [1]).
  - apply two_states_invariant.
  - vm_compute. reflexivity.
  - vm_compute. reflexivity.
  - vm_compute. discriminate.
Defined.

(** ** The direct part of a combined value *)

(** The accumulation adds from left to right, and skips what it cannot
    add. *)
Lemma foldl_add_sample_exact tds :
  ∀ a x,
    foldl add_sample (a, x) tds
    = (foldl Qplus a (totals_added tds),
       match x with
       | Some dsum => Some (foldl Qplus dsum (directs_added tds))
       | None => None
       end).
Proof.
  induction tds as [|[[t|] [d|]] tds IH]; intros a [dsum|]; simpl; try done;
    by rewrite IH.
Qed.

(** What a source adds does not depend on the series of another source. *)
Lemma contribution_same_but_source k s s' hoy sid stateid :
  same_but_source k s s' → sid ≠ k ∨ stateid = PInt (-1) →
  contribution s' hoy sid stateid = contribution s hoy sid stateid.
Proof.
  intros (_ & _ & Hlen & Hv) Hk. unfold contribution.
  destruct stateid as [|z|str]; try done.
  destruct (decide (z = -1)) as [->|Hz]; [done|].
  destruct Hk as [Hk|[= ?]]; [|done].
  rewrite !positions_by_shape, Hlen.
  destruct (decide (sid < length (_values s))%nat) as [Hlt|Hge].
  - rewrite py_index_nat by done. rewrite !list_lookup_fmap, (Hv sid Hk).
    destruct (_values s !! sid) as [row|] eqn:Hrow; simpl; [|done].
    destruct (py_index (length row) z) as [j|]; [|done].
    unfold view, series. by rewrite (Hv sid Hk), Hrow.
  - unfold py_index. rewrite decide_False by lia. by rewrite decide_False by lia.
Qed.

Lemma contributions_same_but_source k s s' hoy ids :
  same_but_source k s s' →
  ∀ sid, (∀ j : nat, (sid + j)%nat = k → ids !! j = Some (PInt (-1))) →
         contributions s' hoy sid ids = contributions s hoy sid ids.
Proof.
  intros Hs. induction ids as [|stateid ids IH]; intros sid Hk; simpl; [done|].
  rewrite (contribution_same_but_source k s s' hoy sid stateid Hs).
  - rewrite (IH (S sid)); [done|]. intros j Hj. apply (Hk (S j)). lia.
  - destruct (decide (sid = k)) as [Heq|]; [|by left].
    right. specialize (Hk 0%nat ltac:(lia)). by injection Hk.
Qed.

Lemma contributions_lookup s hoy ids :
  ∀ sid tds (k : nat) stateid,
    contributions s hoy sid ids = Some tds → ids !! k = Some stateid →
    ∃ td, tds !! k = Some td ∧ contribution s hoy (sid + k) stateid = Some td.
Proof.
  induction ids as [|st ids IH]; intros sid tds k stateid; simpl; [by destruct k|].
  destruct (contribution s hoy sid st) as [td|] eqn:Htd; [|done].
  destruct (contributions s hoy (S sid) ids) as [tds'|] eqn:E; [|done].
  intros [= <-] Hk. destruct k as [|k]; simpl in *.
  - injection Hk as ->. exists td. by rewrite Nat.add_0_r.
  - destruct (IH (S sid) tds' k stateid E Hk) as (td' & Hl & Hc).
    exists td'. split; [done|]. by replace (sid + S k)%nat with (S sid + k)%nat by lia.
Qed.

(** C7 (amended).  Where [combinedValueById] returns, the direct part is
    [None] exactly when no direct value is loaded.  The total is the sum,
    from left to right, of the totals the sources hold for the hour under
    the given states.  With direct values loaded the direct part is the
    sum, from left to right, of the direct parts that are numbers and stand
    beside a total: an absent direct part is passed over and leaves the sum
    accumulated so far.  A source under the state id -1 is taken as
    [(0, 0)], and the result is the same whatever the store holds for that
    source. *)
Theorem C7_direct_None_iff_not_loaded
    (s : AnalysisPoint) (hoy : Z) (ids : option (list pyval)) (total : Q) (direct : pynum) :
  outcome (combinedValueById hoy ids) s = Ok (total, direct) →
  (direct = None ↔ _isDirectLoaded s = false) ∧
  ∃ tds,
    contributions s hoy 0 (or_else ids (replicate (length (_sources s)) (PInt 0)))
      = Some tds ∧
    total = foldl Qplus 0%Q (totals_added tds) ∧
    (_isDirectLoaded s = true →
     direct = Some (foldl Qplus 0%Q (directs_added tds))) ∧
    ∀ k : nat,
      or_else ids (replicate (length (_sources s)) (PInt 0)) !! k = Some (PInt (-1)) →
      tds !! k = Some (Some 0%Q, Some 0%Q) ∧
      ∀ s', same_but_source k s s' →
            outcome (combinedValueById hoy ids) s' = Ok (total, direct).
Proof.
  unfold outcome at 1. unfold combinedValueById at 1. unfold bind, get. cbn [fst snd].
  set (l := or_else ids _). destruct (decide _) as [Hlen|]; [|done].
  intros H. pose proof (combine_sources_outcome hoy l s 0%nat (0%Q, initial_direct s)) as Hc.
  unfold outcome in Hc. rewrite H in Hc.
  destruct (contributions s hoy 0 l) as [tds|] eqn:E; [|done].
  injection Hc as Hc. rewrite foldl_add_sample_exact in Hc.
  injection Hc as Ht Hd. split.
  { rewrite Hd. unfold initial_direct. destruct (_isDirectLoaded s); split; done. }
  exists tds. split; [done|]. split; [done|]. split.
  { intros Hload. rewrite Hd. unfold initial_direct. by rewrite Hload. }
  intros k Hk. split.
  - destruct (contributions_lookup s hoy l 0%nat tds k (PInt (-1)) E Hk) as (td & Hl & Hcon).
    unfold contribution in Hcon. rewrite decide_True in Hcon by done.
    injection Hcon as <-. exact Hl.
  - intros s' Hs'. pose proof Hs' as (Hlen' & Hflag & _).
    assert (Hl' : or_else ids (replicate (length (_sources s')) (PInt 0)) = l).
    { unfold l. by rewrite Hlen'. }
    unfold outcome, combinedValueById, bind, get. cbn [fst snd]. rewrite Hl'.
    rewrite decide_True by congruence.
    pose proof (combine_sources_outcome hoy l s' 0%nat (0%Q, initial_direct s')) as Hc'.
    unfold outcome in Hc'. rewrite Hc'.
    rewrite (contributions_same_but_source k s s' hoy l Hs').
    + rewrite E, foldl_add_sample_exact. unfold initial_direct. rewrite Hflag.
      fold (initial_direct s). by rewrite Ht, Hd.
    + intros j Hj. simpl in Hj. by subst j.
Qed.

(** The amended C7 on [mixed_direct]: the second window has no direct
    part and the third is left out; another store for the third window
    gives the same result. *)
Lemma C7_direct_None_witness :
  (Some 4%Q = None ↔ _isDirectLoaded mixed_direct = false) ∧
  ∃ tds,
    contributions mixed_direct 0 0
      (or_else (Some [PInt 0; PInt 0; PInt (-1)])
         (replicate (length (_sources mixed_direct)) (PInt 0)))
      = Some tds ∧
    (0 + 10 + 20 + 0)%Q = foldl Qplus 0%Q (totals_added tds) ∧
    (_isDirectLoaded mixed_direct = true →
     Some (0 + 4 + 0)%Q = Some (foldl Qplus 0%Q (directs_added tds))) ∧
    ∀ k : nat,
      or_else (Some [PInt 0; PInt 0; PInt (-1)])
        (replicate (length (_sources mixed_direct)) (PInt 0)) !! k = Some (PInt (-1)) →
      tds !! k = Some (Some 0%Q, Some 0%Q) ∧
      ∀ s', same_but_source k mixed_direct s' →
            outcome (combinedValueById 0 (Some [PInt 0; PInt 0; PInt (-1)])) s'
            = Ok ((0 + 10 + 20 + 0)%Q, Some (0 + 4 + 0)%Q).
Proof.
  apply (C7_direct_None_iff_not_loaded mixed_direct 0 (Some [PInt 0; PInt 0; PInt (-1)])
           (0 + 10 + 20 + 0)%Q (Some (0 + 4 + 0)%Q)).
  vm_compute. reflexivity.
Defined.
